(** * FinAA: persistence, currency normalisation and session control

    A shallow embedding of the core of the FinAA personal-finance
    application (TypeScript / React) and the properties its specification
    states about it.

    Conventions of the embedding:
    - a JavaScript [number] is an IEEE-754 binary64 value, modelled by the
      primitive type [float]; [NaN], the infinities and the two zeros are
      therefore the real ones;
    - a JavaScript string is a [string]; the character operations used by
      the program ([trim], [toUpperCase], [replace], [slice]) are modelled on
      its ASCII range;
    - an optional property ([x?: T]) is an [option T]: an absent property and
      one holding [undefined] are not told apart;
    - a [Record<string, number>] is the [gmap string number] of its own
      properties; a read [obj[key]] also finds what [Object.prototype] has
      under that name ([JS.get]);
    - asynchronous functions are run to completion, one at a time, in a
      state-and-exception monad over the outside world (the IndexedDB store,
      the granted directory, the remote drive, injected faults). *)

From Stdlib Require Import Ascii String Floats ZArith QArith Qround.
From stdpp Require Import gmap strings list infinite pretty.

Set Default Proof Using "Type".
Set Warnings "-register-all,-inexact-float".
Open Scope Z_scope.

(* ================================================================= *)
(** ** JavaScript built-ins *)
(* ================================================================= *)

Module JS.

Abbreviation number := float.

(** [ToBoolean] on a number: [0], [-0] and [NaN] are falsy. *)
Definition truthy (x : number) : bool :=
  negb (PrimFloat.is_zero x || PrimFloat.is_nan x).

(** [x || d] on numbers. *)
Definition or_else (x d : number) : number := if truthy x then x else d.

(** [ToBoolean] on a string: only the empty string is falsy. *)
Definition truthy_str (s : string) : bool :=
  match s with EmptyString => false | String _ _ => true end.

(** [s || d] on strings. *)
Definition or_else_str (s d : string) : string := if truthy_str s then s else d.

(** A string that may be [null] or [undefined], kept only when truthy:
    the [s] of [if (s) ...] and [s ? ... : ...]. *)
Definition truthy_opt (o : option string) : option string :=
  match o with
  | Some s => if truthy_str s then Some s else None
  | None => None
  end.

(** [s.slice(0, n)] for a non-negative [n]. *)
Definition slice0 (n : nat) (s : string) : string := String.substring 0 n s.

(** Left-to-right accumulation into a variable initialised to [0]
    ([let t = 0; xs.forEach(x => t += x)]). *)
Definition sum (xs : list number) : number :=
  fold_left PrimFloat.add xs 0%float.

(** *** Strings (ASCII range) *)

(** White space as matched by [\s] and removed by [trim]: TAB, LF, VT, FF,
    CR and SPACE. *)
Definition is_space (c : ascii) : bool :=
  let n := nat_of_ascii c in
  ((9 <=? n)%nat && (n <=? 13)%nat) || (n =? 32)%nat.

Definition is_hyphen (c : ascii) : bool := (nat_of_ascii c =? 45)%nat.

Definition upper_char (c : ascii) : ascii :=
  let n := nat_of_ascii c in
  if ((97 <=? n)%nat && (n <=? 122)%nat) then ascii_of_nat (n - 32) else c.

Fixpoint map_chars (f : ascii -> ascii) (s : string) : string :=
  match s with
  | EmptyString => EmptyString
  | String c r => String (f c) (map_chars f r)
  end.

(** [s.replace(/re/g, '')] for a regular expression matching the single
    characters selected by [drop]. *)
Fixpoint remove_chars (drop : ascii -> bool) (s : string) : string :=
  match s with
  | EmptyString => EmptyString
  | String c r => if drop c then remove_chars drop r else String c (remove_chars drop r)
  end.

Definition toUpperCase (s : string) : string := map_chars upper_char s.

Fixpoint trimStart (s : string) : string :=
  match s with
  | EmptyString => EmptyString
  | String c r => if is_space c then trimStart r else s
  end.

Definition trimEnd (s : string) : string := String.rev (trimStart (String.rev s)).

Definition trim (s : string) : string := trimEnd (trimStart s).

(** [s.charAt(i)]: the empty string when [i] is out of range. *)
Definition charAt (s : string) (i : nat) : string :=
  match String.get i s with
  | Some c => String c EmptyString
  | None => EmptyString
  end.

Definition lower_char (c : ascii) : ascii :=
  let n := nat_of_ascii c in
  if ((65 <=? n)%nat && (n <=? 90)%nat) then ascii_of_nat (n + 32) else c.

Definition toLowerCase (s : string) : string := map_chars lower_char s.

(** [s.includes(sub)]. *)
Fixpoint includes (sub s : string) : bool :=
  String.prefix sub s ||
  match s with
  | EmptyString => false
  | String _ r => includes sub r
  end.

(** [s.split(sep)[0]] for a one-character separator. *)
Fixpoint before (sep : ascii) (s : string) : string :=
  match s with
  | EmptyString => EmptyString
  | String c r => if bool_decide (c = sep) then EmptyString else String c (before sep r)
  end.

(** [Array.from(new Set(xs))]: first occurrences, in order. *)
Fixpoint dedupe_from (seen xs : list string) : list string :=
  match xs with
  | [] => []
  | x :: r => if bool_decide (x ∈ seen) then dedupe_from seen r
              else x :: dedupe_from (x :: seen) r
  end.
Definition dedupe (xs : list string) : list string := dedupe_from [] xs.

(** *** [parseFloat] *)

Definition digit_of (c : ascii) : option Z :=
  let n := nat_of_ascii c in
  if ((48 <=? n)%nat && (n <=? 57)%nat) then Some (Z.of_nat (n - 48)) else None.

(** Reads the longest run of decimal digits at the head of [s]: the number
    read so far, how many digits were read, and the rest. *)
Fixpoint digits (acc : Z) (count : nat) (s : string) : Z * nat * string :=
  match s with
  | EmptyString => (acc, count, s)
  | String c r =>
      match digit_of c with
      | Some d => digits (10 * acc + d) (S count) r
      | None => (acc, count, s)
      end
  end.

(** The double nearest to the integer [m]. *)
Definition number_of_Z (m : Z) : number :=
  SF2Prim (binary_normalize prec emax m 0 false).

(** The value [m * 10^e]: one rounding for [e >= 0], the quotient of two
    roundings otherwise (exact whenever [m] and [10^-e] are below [2^53],
    which covers the literals a money field holds). *)
Definition scale10 (m e : Z) : number :=
  if (0 <=? e)%Z then number_of_Z (m * 10 ^ e)
  else (number_of_Z m / number_of_Z (10 ^ (- e)))%float.

(** An optional exponent part [e±ddd]; an incomplete one is not consumed. *)
Definition exponent (s : string) : Z :=
  match s with
  | String c r =>
      if bool_decide (c = "e"%char) || bool_decide (c = "E"%char) then
        let '(neg, r') :=
          match r with
          | String "-" r' => (true, r')
          | String "+" r' => (false, r')
          | _ => (false, r)
          end in
        let '(v, k, _) := digits 0 0 r' in
        match k with O => 0%Z | S _ => if neg then (- v)%Z else v end
      else 0%Z
  | EmptyString => 0%Z
  end.

(** [parseFloat(s)]: leading white space is skipped, then the longest
    prefix that is a decimal literal (sign, digits, fraction, exponent, or
    [Infinity]) is read; [NaN] when there is none. *)
Definition parseFloat (s : string) : number :=
  let s := trimStart s in
  let '(neg, s) :=
    match s with
    | String "-" r => (true, r)
    | String "+" r => (false, r)
    | _ => (false, s)
    end in
  let sign (x : number) : number := if neg then (- x)%float else x in
  if String.prefix "Infinity" s then sign infinity
  else
    let '(ip, ni, s1) := digits 0 0 s in
    let '(m, nf, s2) :=
      match s1 with
      | String "." r => let '(m, nf, s2) := digits ip 0 r in (m, nf, s2)
      | _ => (ip, O, s1)
      end in
    match (ni + nf)%nat with
    | O => nan
    | S _ => sign (scale10 m (exponent s2 - Z.of_nat nf))
    end.

(** [parseInt(s)] on decimal digits (the hexadecimal prefix is not
    modelled). *)
Definition parseInt (s : string) : number :=
  let s := trimStart s in
  let '(neg, s) :=
    match s with
    | String "-" r => (true, r)
    | String "+" r => (false, r)
    | _ => (false, s)
    end in
  let '(v, k, _) := digits 0 0 s in
  match k with
  | O => nan
  | S _ => if neg then (- number_of_Z v)%float else number_of_Z v
  end.

(** [s.charAt(Math.floor(x))] for a real [x]. *)
Definition charAt_floor (s : string) (x : Q) : string :=
  let i := Qfloor x in
  if (i <? 0)%Z then EmptyString else charAt s (Z.to_nat i).

(** [atob(s)] succeeds: with ASCII white space removed and up to two
    padding signs dropped from a length that is a multiple of four, [s] is
    made of base64 digits and its length is not one more than a multiple of
    four. *)
Definition is_html_space (c : ascii) : bool :=
  let n := nat_of_ascii c in
  (n =? 9)%nat || (n =? 10)%nat || (n =? 12)%nat || (n =? 13)%nat || (n =? 32)%nat.

Definition is_base64_digit (c : ascii) : bool :=
  let n := nat_of_ascii c in
  ((65 <=? n)%nat && (n <=? 90)%nat) || ((97 <=? n)%nat && (n <=? 122)%nat)
  || ((48 <=? n)%nat && (n <=? 57)%nat) || (n =? 43)%nat || (n =? 47)%nat.

Fixpoint all_chars (p : ascii -> bool) (s : string) : bool :=
  match s with
  | EmptyString => true
  | String c r => p c && all_chars p r
  end.

Definition strip_padding (s : string) : string :=
  match String.rev s with
  | String "=" (String "=" r) => String.rev r
  | String "=" r => String.rev r
  | _ => s
  end.

Definition atob_ok (s : string) : bool :=
  let s := remove_chars is_html_space s in
  let s := if (String.length s mod 4 =? 0)%nat then strip_padding s else s in
  negb (String.length s mod 4 =? 1)%nat && all_chars is_base64_digit s.

(** [Math.abs]. *)
Definition Math_abs (x : number) : number := PrimFloat.abs x.

(** *** Plain objects *)

(** The names a plain object ([{}], or what [JSON.parse] and the
    structured clone build) inherits from [Object.prototype]. *)
Definition inherited : list string :=
  [ "constructor"; "hasOwnProperty"; "isPrototypeOf"; "propertyIsEnumerable";
    "toLocaleString"; "toString"; "valueOf"; "__defineGetter__"; "__defineSetter__";
    "__lookupGetter__"; "__lookupSetter__"; "__proto__" ].

(** What [obj[key]] reads off a plain object held as the map of its own
    properties: an own property; or else, for an inherited name, a function
    (for [__proto__], the prototype object), which is truthy and which
    [ToNumber] turns into [NaN]; or else [undefined]. *)
Inductive property (A : Type) :=
| own (x : A)
| prototype
| undefined.
Arguments own {A} x.
Arguments prototype {A}.
Arguments undefined {A}.

Definition get {A} (obj : gmap string A) (key : string) : property A :=
  match obj !! key with
  | Some x => own x
  | None => if bool_decide (key ∈ inherited) then prototype else undefined
  end.

(** [obj[key] = x] for an [x] that is not an object: the assignment makes
    or updates an own property, except under the name [__proto__] when the
    object has no own property of that name: it then goes to the setter of
    [Object.prototype], which ignores such a value. *)
Definition set {A} (key : string) (x : A) (obj : gmap string A) : gmap string A :=
  match obj !! key with
  | None => if bool_decide (key = "__proto__") then obj else <[key := x]> obj
  | Some _ => <[key := x]> obj
  end.

(** [x > y], [x >= y] on numbers (false whenever an operand is [NaN]). *)
Definition gt (x y : number) : bool := PrimFloat.ltb y x.
Definition ge (x y : number) : bool := PrimFloat.leb y x.

End JS.

(* ================================================================= *)
(** ** types.ts *)
(* ================================================================= *)

Inductive EntryType := ASSET | LIABILITY | EXPENSE | BILL | INSURANCE | BENEFIT.

#[global] Instance EntryType_eq_dec : EqDecision EntryType.
Proof. solve_decision. Defined.

Inductive Liquidity := high | medium | low.

#[global] Instance Liquidity_eq_dec : EqDecision Liquidity.
Proof. solve_decision. Defined.

Module GroundingSource.
Record t := mk { title : string; uri : string }.
End GroundingSource.
Abbreviation GroundingSource := GroundingSource.t.

Module FinanceEntry.
Record t := mk {
  id : string;
  type : EntryType;
  category : string;
  name : string;
  amount : JS.number;
  currency : option string;
  initialAmount : option JS.number;
  date : string;
  address : option string;
  plotSize : option string;
  propertyType : option string;
  valuationSources : option (list GroundingSource);
  lastValuated : option string;
  referenceNumber : option string;
  linkedAssetId : option string;
  statementDriveId : option string;
  isRecurring : option bool;
  isWorkProvided : option bool;
  liquidity : option Liquidity;
  notes : option string;
  coverageAmount : option JS.number;
  expiryDate : option string;
  emi : option JS.number;
  monthsRemaining : option JS.number
}.
End FinanceEntry.
Abbreviation FinanceEntry := FinanceEntry.t.

Inductive GoalCategory :=
Travel | House | Education | Wedding | Retirement | Emergency | Other.

Module Goal.
Record t := mk {
  id : string;
  name : string;
  targetAmount : JS.number;
  currentAmount : JS.number;
  currency : option string;
  deadline : option string;
  category : GoalCategory;
  linkedAssetId : option string
}.
End Goal.
Abbreviation Goal := Goal.t.

Module LegacyProfile.
Record t := mk {
  successorName : string;
  recoveryPasskey : string;
  isConfigured : bool;
  lastUpdated : string
}.
End LegacyProfile.
Abbreviation LegacyProfile := LegacyProfile.t.

Module Settings.
Record t := mk {
  currency : string;
  userName : string;
  biometricEnabled : bool;
  termsAccepted : bool;
  spreadsheetId : option string;
  monthlyBudgetLimit : option JS.number
}.
End Settings.
Abbreviation Settings := Settings.t.

Module UserData.
Record t := mk {
  entries : list FinanceEntry;
  goals : list Goal;
  lastSynced : string;
  exchangeRates : option (gmap string JS.number);
  legacy : option LegacyProfile;
  settings : Settings
}.
End UserData.
Abbreviation UserData := UserData.t.

(* ================================================================= *)
(** ** components/Dashboard.tsx *)
(* ================================================================= *)

Module Dashboard.

(** [getConvertedAmount], a closure over the component's [data]. *)
Definition getConvertedAmount (data : UserData)
    (amount : JS.number) (fromCurrency : option string) : JS.number :=
  match fromCurrency with
  | None => amount
  | Some c =>
      if negb (JS.truthy_str c) || bool_decide (c = Settings.currency (UserData.settings data))
      then amount
      else
        let rates := default ∅ (UserData.exchangeRates data) in
        match JS.get rates c with
        | JS.own rateToBase =>
            if JS.truthy rateToBase then (amount / rateToBase)%float else amount
        | JS.prototype => (amount / nan)%float
        | JS.undefined => amount
        end
  end.

(** The five running totals of the [forEach] in [stats]. *)
Record totals := mkTotals {
  t_assets : JS.number;
  t_debt : JS.number;
  t_burn : JS.number;
  t_monthlyInflow : JS.number;
  t_savings : JS.number
}.

Definition totals0 : totals := mkTotals 0 0 0 0 0.

(** One iteration of the [forEach] body; [currentMonth] is
    [new Date().toISOString().slice(0, 7)]. *)
Definition step (data : UserData) (currentMonth : string)
    (t : totals) (e : FinanceEntry) : totals :=
  let amt := getConvertedAmount data
               (JS.or_else (FinanceEntry.amount e) 0) (FinanceEntry.currency e) in
  let entryMonth := JS.slice0 7 (JS.or_else_str (FinanceEntry.date e) "") in
  let thisMonth := bool_decide (entryMonth = currentMonth) in
  match FinanceEntry.type e with
  | ASSET =>
      let cat := FinanceEntry.category e in
      let inflow :=
        if thisMonth && bool_decide (cat = "Income")
        then (t_monthlyInflow t + amt)%float else t_monthlyInflow t in
      let sav :=
        if thisMonth && (bool_decide (cat = "Savings") || bool_decide (cat = "Investments"))
        then (t_savings t + amt)%float else t_savings t in
      mkTotals (t_assets t + amt)%float (t_debt t) (t_burn t) inflow sav
  | LIABILITY =>
      mkTotals (t_assets t) (t_debt t + amt)%float (t_burn t)
               (t_monthlyInflow t) (t_savings t)
  | EXPENSE | BILL =>
      if thisMonth
      then mkTotals (t_assets t) (t_debt t) (t_burn t + amt)%float
                    (t_monthlyInflow t) (t_savings t)
      else t
  | INSURANCE | BENEFIT => t
  end.

(** The part of the [stats] object made of sums and differences.  The
    three display ratios ([savingsRate], [debtBurden],
    [emergencyFundMonths]) are computed from these fields afterwards and
    feed nothing back; they are not embedded. *)
Record stats_t := mkStats {
  assets : JS.number;
  debt : JS.number;
  netWorth : JS.number;
  burn : JS.number;
  monthlyInflow : JS.number;
  netFlow : JS.number
}.

Definition stats (currentMonth : string) (data : UserData) : stats_t :=
  let t := fold_left (step data currentMonth) (UserData.entries data) totals0 in
  mkStats (t_assets t) (t_debt t)
          (t_assets t - t_debt t)%float
          (t_burn t) (t_monthlyInflow t)
          (t_monthlyInflow t - t_burn t)%float.

End Dashboard.

(* ================================================================= *)
(** ** components/MatrixView.tsx *)
(* ================================================================= *)

Module MatrixView.

(** [MatrixItem.getConverted], a closure over the props [item],
    [baseCurrency] and [rates]. *)
Definition getConverted (item : FinanceEntry) (baseCurrency : string)
    (rates : option (gmap string JS.number)) (amount : JS.number) : JS.number :=
  match FinanceEntry.currency item with
  | None => amount
  | Some c =>
      if negb (JS.truthy_str c) || bool_decide (c = baseCurrency)
      then amount
      else
        match rates with
        | Some table =>
            match JS.get table c with
            | JS.own rateToBase =>
                if JS.truthy rateToBase then (amount / rateToBase)%float else amount
            | JS.prototype => (amount / nan)%float
            | JS.undefined => amount
            end
        | None => amount
        end
  end.

End MatrixView.

(* ================================================================= *)
(** ** Untyped values, JSON and structured clones *)
(* ================================================================= *)

(** A JavaScript value as far as persistence sees it.  An object is the
    list of its own enumerable properties. *)
Inductive jsval :=
| VUndef
| VNull
| VBool (b : bool)
| VNum (x : JS.number)
| VStr (s : string)
| VArr (items : list jsval)
| VObj (props : list (string * jsval)).

(** A piece of text, as far as [JSON.parse] is concerned: either a
    well-formed JSON text, given by the value it denotes, or anything else. *)
Inductive text :=
| Document (v : jsval)
| NotJson.

(** [ToBoolean] on an untyped value that may be missing. *)
Definition truthy_val (v : option jsval) : bool :=
  match v with
  | None | Some VUndef | Some VNull => false
  | Some (VBool b) => b
  | Some (VNum x) => JS.truthy x
  | Some (VStr s) => JS.truthy_str s
  | Some (VArr _) | Some (VObj _) => true
  end.

Module JSON.

(** How [JSON.stringify] writes a number: a finite one as itself (the
    sign of a zero is lost), any other as [null]. *)
Definition number (x : JS.number) : jsval :=
  if PrimFloat.is_finite x
  then VNum (if PrimFloat.is_zero x then 0%float else x)
  else VNull.

(** The value denoted by the text [JSON.stringify] writes for [v], when [v]
    sits inside an array or an object: [undefined] array items become
    [null], [undefined] properties are left out. *)
Fixpoint serialise (v : jsval) : jsval :=
  match v with
  | VUndef => VNull
  | VNull => VNull
  | VBool b => VBool b
  | VNum x => number x
  | VStr s => VStr s
  | VArr items => VArr (map serialise items)
  | VObj props =>
      VObj ((fix go (ps : list (string * jsval)) : list (string * jsval) :=
               match ps with
               | [] => []
               | (k, VUndef) :: r => go r
               | (k, x) :: r => (k, serialise x) :: go r
               end) props)
  end.

(** [JSON.stringify(v)]; it returns [undefined] for [undefined]. *)
Definition stringify (v : jsval) : option text :=
  match v with
  | VUndef => None
  | _ => Some (Document (serialise v))
  end.

(** [JSON.parse(t)]; [None] stands for the [SyntaxError] it throws. *)
Definition parse (t : text) : option jsval :=
  match t with
  | Document v => Some v
  | NotJson => None
  end.

End JSON.

(** *** Typed snapshots as values *)

Module Encode.

Definition opt {A} (k : string) (f : A -> jsval) (o : option A) : list (string * jsval) :=
  match o with
  | Some a => [(k, f a)]
  | None => []
  end.

Definition EntryType_name (t : EntryType) : string :=
  match t with
  | ASSET => "ASSET" | LIABILITY => "LIABILITY" | EXPENSE => "EXPENSE"
  | BILL => "BILL" | INSURANCE => "INSURANCE" | BENEFIT => "BENEFIT"
  end.

Definition Liquidity_name (l : Liquidity) : string :=
  match l with high => "high" | medium => "medium" | low => "low" end.

Definition GoalCategory_name (c : GoalCategory) : string :=
  match c with
  | Travel => "Travel" | House => "House" | Education => "Education"
  | Wedding => "Wedding" | Retirement => "Retirement"
  | Emergency => "Emergency" | Other => "Other"
  end.

Definition source (s : GroundingSource) : jsval :=
  VObj [("title", VStr (GroundingSource.title s)); ("uri", VStr (GroundingSource.uri s))].

Definition entry (e : FinanceEntry) : jsval :=
  VObj ([("id", VStr (FinanceEntry.id e));
         ("type", VStr (EntryType_name (FinanceEntry.type e)));
         ("category", VStr (FinanceEntry.category e));
         ("name", VStr (FinanceEntry.name e));
         ("amount", VNum (FinanceEntry.amount e))]
        ++ opt "currency" VStr (FinanceEntry.currency e)
        ++ opt "initialAmount" VNum (FinanceEntry.initialAmount e)
        ++ [("date", VStr (FinanceEntry.date e))]
        ++ opt "address" VStr (FinanceEntry.address e)
        ++ opt "plotSize" VStr (FinanceEntry.plotSize e)
        ++ opt "propertyType" VStr (FinanceEntry.propertyType e)
        ++ opt "valuationSources" (fun l => VArr (map source l)) (FinanceEntry.valuationSources e)
        ++ opt "lastValuated" VStr (FinanceEntry.lastValuated e)
        ++ opt "referenceNumber" VStr (FinanceEntry.referenceNumber e)
        ++ opt "linkedAssetId" VStr (FinanceEntry.linkedAssetId e)
        ++ opt "statementDriveId" VStr (FinanceEntry.statementDriveId e)
        ++ opt "isRecurring" VBool (FinanceEntry.isRecurring e)
        ++ opt "isWorkProvided" VBool (FinanceEntry.isWorkProvided e)
        ++ opt "liquidity" (fun l => VStr (Liquidity_name l)) (FinanceEntry.liquidity e)
        ++ opt "notes" VStr (FinanceEntry.notes e)
        ++ opt "coverageAmount" VNum (FinanceEntry.coverageAmount e)
        ++ opt "expiryDate" VStr (FinanceEntry.expiryDate e)
        ++ opt "emi" VNum (FinanceEntry.emi e)
        ++ opt "monthsRemaining" VNum (FinanceEntry.monthsRemaining e)).

Definition goal (g : Goal) : jsval :=
  VObj ([("id", VStr (Goal.id g));
         ("name", VStr (Goal.name g));
         ("targetAmount", VNum (Goal.targetAmount g));
         ("currentAmount", VNum (Goal.currentAmount g))]
        ++ opt "currency" VStr (Goal.currency g)
        ++ opt "deadline" VStr (Goal.deadline g)
        ++ [("category", VStr (GoalCategory_name (Goal.category g)))]
        ++ opt "linkedAssetId" VStr (Goal.linkedAssetId g)).

Definition legacy (l : LegacyProfile) : jsval :=
  VObj [("successorName", VStr (LegacyProfile.successorName l));
        ("recoveryPasskey", VStr (LegacyProfile.recoveryPasskey l));
        ("isConfigured", VBool (LegacyProfile.isConfigured l));
        ("lastUpdated", VStr (LegacyProfile.lastUpdated l))].

Definition settings (s : Settings) : jsval :=
  VObj ([("currency", VStr (Settings.currency s));
         ("userName", VStr (Settings.userName s));
         ("biometricEnabled", VBool (Settings.biometricEnabled s));
         ("termsAccepted", VBool (Settings.termsAccepted s))]
        ++ opt "spreadsheetId" VStr (Settings.spreadsheetId s)
        ++ opt "monthlyBudgetLimit" VNum (Settings.monthlyBudgetLimit s)).

Definition rates (m : gmap string JS.number) : jsval :=
  VObj (map (fun kv => (kv.1, VNum kv.2)) (map_to_list m)).

(** The object a [UserData] snapshot is. *)
Definition userData (d : UserData) : jsval :=
  VObj ([("entries", VArr (map entry (UserData.entries d)));
         ("goals", VArr (map goal (UserData.goals d)));
         ("lastSynced", VStr (UserData.lastSynced d))]
        ++ opt "exchangeRates" rates (UserData.exchangeRates d)
        ++ opt "legacy" legacy (UserData.legacy d)
        ++ [("settings", settings (UserData.settings d))]).

End Encode.

(** *** Reading a value at a TypeScript type

    [downloadData] is declared to return a [UserData]; nothing checks it.
    [Decode] reads a value at that type, and has no answer ([None]) for a
    value that does not have the declared shape. *)

Module Decode.

Fixpoint get (k : string) (ps : list (string * jsval)) : option jsval :=
  match ps with
  | [] => None
  | (k', v) :: r => if bool_decide (k' = k) then Some v else get k r
  end.

Definition str (v : jsval) : option string :=
  match v with VStr s => Some s | _ => None end.
Definition num (v : jsval) : option JS.number :=
  match v with VNum x => Some x | _ => None end.
Definition bool (v : jsval) : option Datatypes.bool :=
  match v with VBool b => Some b | _ => None end.
Definition arr {A} (f : jsval -> option A) (v : jsval) : option (list A) :=
  match v with VArr l => mapM f l | _ => None end.

(** A required property. *)
Definition req {A} (f : jsval -> option A) (k : string)
    (ps : list (string * jsval)) : option A :=
  get k ps ≫= f.

(** An optional property: absent, or holding [undefined]. *)
Definition opt {A} (f : jsval -> option A) (k : string)
    (ps : list (string * jsval)) : option (option A) :=
  match get k ps with
  | None | Some VUndef => Some None
  | Some v => Some <$> f v
  end.

(** A property the program replaces when it is falsy ([if (!data.x)]). *)
Definition unless_falsy {A} (f : jsval -> option A) (k : string)
    (ps : list (string * jsval)) : option (option A) :=
  if truthy_val (get k ps) then Some <$> (get k ps ≫= f) else Some None.

Definition entryType (v : jsval) : option EntryType :=
  s ← str v;
  if bool_decide (s = "ASSET") then Some ASSET
  else if bool_decide (s = "LIABILITY") then Some LIABILITY
  else if bool_decide (s = "EXPENSE") then Some EXPENSE
  else if bool_decide (s = "BILL") then Some BILL
  else if bool_decide (s = "INSURANCE") then Some INSURANCE
  else if bool_decide (s = "BENEFIT") then Some BENEFIT
  else None.

Definition liquidity (v : jsval) : option Liquidity :=
  s ← str v;
  if bool_decide (s = "high") then Some high
  else if bool_decide (s = "medium") then Some medium
  else if bool_decide (s = "low") then Some low
  else None.

Definition goalCategory (v : jsval) : option GoalCategory :=
  s ← str v;
  if bool_decide (s = "Travel") then Some Travel
  else if bool_decide (s = "House") then Some House
  else if bool_decide (s = "Education") then Some Education
  else if bool_decide (s = "Wedding") then Some Wedding
  else if bool_decide (s = "Retirement") then Some Retirement
  else if bool_decide (s = "Emergency") then Some Emergency
  else if bool_decide (s = "Other") then Some Other
  else None.

Definition source (v : jsval) : option GroundingSource :=
  match v with
  | VObj ps =>
      t ← req str "title" ps; u ← req str "uri" ps;
      Some (GroundingSource.mk t u)
  | _ => None
  end.

Definition entry (v : jsval) : option FinanceEntry :=
  match v with
  | VObj ps =>
      id ← req str "id" ps;
      type ← req entryType "type" ps;
      category ← req str "category" ps;
      name ← req str "name" ps;
      amount ← req num "amount" ps;
      currency ← opt str "currency" ps;
      initialAmount ← opt num "initialAmount" ps;
      date ← req str "date" ps;
      address ← opt str "address" ps;
      plotSize ← opt str "plotSize" ps;
      propertyType ← opt str "propertyType" ps;
      valuationSources ← opt (arr source) "valuationSources" ps;
      lastValuated ← opt str "lastValuated" ps;
      referenceNumber ← opt str "referenceNumber" ps;
      linkedAssetId ← opt str "linkedAssetId" ps;
      statementDriveId ← opt str "statementDriveId" ps;
      isRecurring ← opt bool "isRecurring" ps;
      isWorkProvided ← opt bool "isWorkProvided" ps;
      liq ← opt liquidity "liquidity" ps;
      notes ← opt str "notes" ps;
      coverageAmount ← opt num "coverageAmount" ps;
      expiryDate ← opt str "expiryDate" ps;
      emi ← opt num "emi" ps;
      monthsRemaining ← opt num "monthsRemaining" ps;
      Some (FinanceEntry.mk id type category name amount currency initialAmount
              date address plotSize propertyType valuationSources lastValuated
              referenceNumber linkedAssetId statementDriveId isRecurring
              isWorkProvided liq notes coverageAmount expiryDate emi
              monthsRemaining)
  | _ => None
  end.

Definition goal (v : jsval) : option Goal :=
  match v with
  | VObj ps =>
      id ← req str "id" ps;
      name ← req str "name" ps;
      targetAmount ← req num "targetAmount" ps;
      currentAmount ← req num "currentAmount" ps;
      currency ← opt str "currency" ps;
      deadline ← opt str "deadline" ps;
      category ← req goalCategory "category" ps;
      linkedAssetId ← opt str "linkedAssetId" ps;
      Some (Goal.mk id name targetAmount currentAmount currency deadline
              category linkedAssetId)
  | _ => None
  end.

Definition legacy (v : jsval) : option LegacyProfile :=
  match v with
  | VObj ps =>
      successorName ← req str "successorName" ps;
      recoveryPasskey ← req str "recoveryPasskey" ps;
      isConfigured ← req bool "isConfigured" ps;
      lastUpdated ← req str "lastUpdated" ps;
      Some (LegacyProfile.mk successorName recoveryPasskey isConfigured lastUpdated)
  | _ => None
  end.

Definition settings (v : jsval) : option Settings :=
  match v with
  | VObj ps =>
      currency ← req str "currency" ps;
      userName ← req str "userName" ps;
      biometricEnabled ← req bool "biometricEnabled" ps;
      termsAccepted ← req bool "termsAccepted" ps;
      spreadsheetId ← opt str "spreadsheetId" ps;
      monthlyBudgetLimit ← opt num "monthlyBudgetLimit" ps;
      Some (Settings.mk currency userName biometricEnabled termsAccepted
              spreadsheetId monthlyBudgetLimit)
  | _ => None
  end.

Definition rate (kv : string * jsval) : option (string * JS.number) :=
  x ← num kv.2; Some (kv.1, x).

Definition rates (v : jsval) : option (gmap string JS.number) :=
  match v with
  | VObj ps => list_to_map <$> mapM rate ps
  | _ => None
  end.

(** What [handleLogin] holds in [data] after [downloadData]: a [UserData]
    in which [goals] and [settings] may be missing (it fills them in). *)
Record loaded := mkLoaded {
  l_entries : list FinanceEntry;
  l_goals : option (list Goal);
  l_lastSynced : string;
  l_exchangeRates : option (gmap string JS.number);
  l_legacy : option LegacyProfile;
  l_settings : option Settings
}.

Definition userData (v : jsval) : option loaded :=
  match v with
  | VObj ps =>
      entries ← req (arr entry) "entries" ps;
      goals ← unless_falsy (arr goal) "goals" ps;
      lastSynced ← req str "lastSynced" ps;
      exchangeRates ← opt rates "exchangeRates" ps;
      leg ← opt legacy "legacy" ps;
      sett ← unless_falsy settings "settings" ps;
      Some (mkLoaded entries goals lastSynced exchangeRates leg sett)
  | _ => None
  end.

End Decode.

(* ================================================================= *)
(** ** The outside world and the monad of asynchronous code *)
(* ================================================================= *)

(** What a stored file or request body holds. *)
Inductive body :=
| TextBody (t : text)                        (* a text, e.g. the vault document *)
| Bytes (base64 : string)                    (* bytes, named by their base64 form *)
| Csv (rows : list FinanceEntry).            (* the tabular mirror of these entries *)

Module DriveFile.
Record t := mk {
  id : string;
  name : string;
  mimeType : string;
  parents : list string;
  trashed : bool;
  content : body
}.
End DriveFile.
Abbreviation DriveFile := DriveFile.t.

(** The answer of the language-model service to one request. *)
Inductive ai_response :=
| Rejected                         (* the call rejects: network, quota, key *)
| Responded (t : option text).     (* [response.text]; [None] when empty *)

(** The fields [handleFileUpload] reads from a [Partial<FinanceEntry>]. *)
Module PartialEntry.
Record t := mk {
  name : option string;
  amount : option JS.number;
  currency : option string;
  type : option EntryType;
  category : option string;
  referenceNumber : option string;
  date : option string;
  isWorkProvided : option bool;
  coverageAmount : option JS.number
}.
End PartialEntry.
Abbreviation PartialEntry := PartialEntry.t.

(** The outcome of [processDocument]'s request, read at its declared type. *)
Inductive extraction :=
| ExtractRejected
| ExtractUnparseable
| Extracted (transactions : list PartialEntry).

Inductive Mode := drive | local_db | local_fs.

#[global] Instance Mode_eq_dec : EqDecision Mode.
Proof. solve_decision. Defined.

(** Everything outside the program.  [faults] is a fault script: each
    storage or network operation takes the next flag off it and fails when
    the flag is set (no flag left: no fault). *)
Record World := mkWorld {
  now : string;                      (* [new Date().toISOString()] *)
  faults : list bool;
  ticks : nat;                       (* random draws made so far *)
  randomUUID : nat -> string;        (* [crypto.randomUUID()], by draw *)
  random36 : nat -> string;          (* [Math.random().toString(36).slice(2, 6)] *)
  random : nat -> Q;                 (* [Math.random()], by draw *)
  idb : gmap string jsval;           (* the IndexedDB object store *)
  fs : gmap string body;             (* files under the granted directory, by path *)
  cloud : list DriveFile;            (* the remote drive *)
  gapi_loaded : bool;                (* [window.gapi] and [window.google] exist *)
  picker_grants : bool;              (* the user grants a directory *)
  consent : option string;           (* the token the consent flow yields, if any *)
  rate_service : ai_response;
  extract_service : extraction
}.

(** The fields of the [GoogleDriveService] and [LocalDbService] singletons. *)
Record Service := mkService {
  tokenClient : bool;                (* non-null *)
  accessToken : option string;
  directoryHandle : bool;            (* non-null *)
  isConfigured : bool;               (* [!CLIENT_ID.includes('PLACEHOLDER')] *)
  mode : Mode;
  db : bool                          (* [localDb.db] non-null *)
}.

Record Env := mkEnv { world : World; svc : Service }.

Definition set_faults (x : list bool) (w : World) : World :=
  mkWorld (now w) x (ticks w) (randomUUID w) (random36 w) (random w) (idb w) (fs w)
    (cloud w) (gapi_loaded w) (picker_grants w) (consent w) (rate_service w)
    (extract_service w).
Definition set_ticks (x : nat) (w : World) : World :=
  mkWorld (now w) (faults w) x (randomUUID w) (random36 w) (random w) (idb w) (fs w)
    (cloud w) (gapi_loaded w) (picker_grants w) (consent w) (rate_service w)
    (extract_service w).
Definition set_idb (x : gmap string jsval) (w : World) : World :=
  mkWorld (now w) (faults w) (ticks w) (randomUUID w) (random36 w) (random w) x (fs w)
    (cloud w) (gapi_loaded w) (picker_grants w) (consent w) (rate_service w)
    (extract_service w).
Definition set_fs (x : gmap string body) (w : World) : World :=
  mkWorld (now w) (faults w) (ticks w) (randomUUID w) (random36 w) (random w) (idb w) x
    (cloud w) (gapi_loaded w) (picker_grants w) (consent w) (rate_service w)
    (extract_service w).
Definition set_cloud (x : list DriveFile) (w : World) : World :=
  mkWorld (now w) (faults w) (ticks w) (randomUUID w) (random36 w) (random w) (idb w) (fs w)
    x (gapi_loaded w) (picker_grants w) (consent w) (rate_service w)
    (extract_service w).

Definition set_tokenClient (x : bool) (s : Service) : Service :=
  mkService x (accessToken s) (directoryHandle s) (isConfigured s) (mode s) (db s).
Definition set_accessToken (x : option string) (s : Service) : Service :=
  mkService (tokenClient s) x (directoryHandle s) (isConfigured s) (mode s) (db s).
Definition set_directoryHandle (x : bool) (s : Service) : Service :=
  mkService (tokenClient s) (accessToken s) x (isConfigured s) (mode s) (db s).
Definition set_mode (x : Mode) (s : Service) : Service :=
  mkService (tokenClient s) (accessToken s) (directoryHandle s) (isConfigured s) x (db s).
Definition set_db (x : bool) (s : Service) : Service :=
  mkService (tokenClient s) (accessToken s) (directoryHandle s) (isConfigured s) (mode s) x.

(** How an asynchronous call ends: it resolves, it rejects (or throws), or
    it runs into a value that does not have its declared type, about which
    the typed embedding says nothing. *)
Inductive result (A : Type) :=
| Ok (a : A)
| Throw (message : string)
| IllTyped.
Arguments Ok {A} a.
Arguments Throw {A} message.
Arguments IllTyped {A}.

(** State-and-exception monad; a rejection keeps the state reached. *)
Definition ST (S A : Type) : Type := S -> result A * S.

#[global] Instance ST_ret {S} : MRet (ST S) := fun A a s => (Ok a, s).
#[global] Instance ST_bind {S} : MBind (ST S) := fun A B f m s =>
  match m s with
  | (Ok a, s') => f a s'
  | (Throw e, s') => (Throw e, s')
  | (IllTyped, s') => (IllTyped, s')
  end.

Definition throw {S A} (message : string) : ST S A := fun s => (Throw message, s).
Definition illTyped {S A} : ST S A := fun s => (IllTyped, s).
Definition gets {S A} (f : S -> A) : ST S A := fun s => (Ok (f s), s).
Definition modify {S} (f : S -> S) : ST S unit := fun s => (Ok tt, f s).

(** [try { m } catch (e) { h e }]. *)
Definition try_catch {S A} (m : ST S A) (h : string -> ST S A) : ST S A := fun s =>
  match m s with
  | (Throw e, s') => h e s'
  | r => r
  end.

(** [try { m } finally { f }]. *)
Definition try_finally {S A} (m : ST S A) (f : ST S unit) : ST S A := fun s =>
  match m s with
  | (IllTyped, s') => (IllTyped, s')
  | (r, s') =>
      match f s' with
      | (Ok _, s'') => (r, s'')
      | (Throw e, s'') => (Throw e, s'')
      | (IllTyped, s'') => (IllTyped, s'')
      end
  end.

(** [for (const x of xs) { ys.push(await f(x)) }]. *)
Fixpoint for_each {S A B} (f : A -> ST S B) (xs : list A) : ST S (list B) :=
  match xs with
  | [] => mret []
  | x :: r => y ← f x; ys ← for_each f r; mret (y :: ys)
  end.

(** A computation that never meets an ill-typed value. *)
Definition well_typed {S A} (m : ST S A) : Prop := forall s, fst (m s) <> IllTyped.

Abbreviation IO := (ST Env).

Definition modify_world (f : World -> World) : IO unit :=
  modify (fun e => mkEnv (f (world e)) (svc e)).
Definition modify_svc (f : Service -> Service) : IO unit :=
  modify (fun e => mkEnv (world e) (f (svc e))).

(** One storage or network operation: fails when the fault script says so. *)
Definition io (what : string) : IO unit :=
  fs ← gets (fun e => faults (world e));
  match fs with
  | [] => mret tt
  | failed :: rest =>
      _ ← modify_world (set_faults rest);
      if failed : bool then throw what else mret tt
  end.

(** One operation nobody waits for: whether it went through. *)
Definition attempt (what : string) : IO bool :=
  try_catch (_ ← io what; mret true) (fun _ => mret false).

(** One random draw. *)
Definition draw {A} (source : World -> nat -> A) : IO A :=
  x ← gets (fun e => source (world e) (ticks (world e)));
  _ ← modify_world (fun w => set_ticks (S (ticks w)) w);
  mret x.

(* ================================================================= *)
(** ** services/localDbService.ts *)
(* ================================================================= *)

Module LocalDbService.

Definition init : IO unit :=
  _ ← io "indexedDB.open";
  modify_svc (set_db true).

Definition ensure_open : IO unit :=
  opened ← gets (fun e => db (svc e));
  if opened : bool then mret tt else init.

(** The promise settles on the request's [onsuccess] or [onerror]; the
    transaction commits afterwards, and [save] listens for neither its
    [oncomplete] nor its [onabort]: when the commit aborts the write is
    undone, the promise having resolved. *)
Definition save (key : string) (data : jsval) : IO unit :=
  _ ← ensure_open;
  _ ← io "IDBObjectStore.put";
  committed ← attempt "IDBTransaction.commit";
  if committed : bool
  then modify_world (fun w => set_idb (<[key := data]> (idb w)) w)
  else mret tt.

(** [None] is the [undefined] a missing key yields. *)
Definition get (key : string) : IO (option jsval) :=
  _ ← ensure_open;
  _ ← io "IDBObjectStore.get";
  gets (fun e => idb (world e) !! key).

End LocalDbService.

(* ================================================================= *)
(** ** services/googleDriveService.ts *)
(* ================================================================= *)

Module GoogleDriveService.

Definition FILE_NAME : string := "finaa_vault_v1.json".
Definition SHEET_NAME : string := "FinAA - Financial Archive (Live)".
Definition ROOT_FOLDER_NAME : string := "FinAA Archive".
Definition STORAGE_IDB_KEY : string := "finaa_vault_blob".

Definition init : IO unit :=
  _ ← LocalDbService.init;
  configured ← gets (fun e => isConfigured (svc e));
  if negb configured then mret tt
  else
    loaded ← gets (fun e => gapi_loaded (world e));
    if negb loaded then mret tt
    else
      try_catch
        (_ ← io "gapi.client.init";
         modify_svc (set_tokenClient true))
        (fun _ => mret tt).

Definition login (m : Mode) : IO bool :=
  _ ← modify_svc (set_mode m);
  match m with
  | drive =>
      configured ← gets (fun e => isConfigured (svc e));
      if negb configured then throw "Google Drive integration not configured."
      else
        client ← gets (fun e => tokenClient (svc e));
        if negb client then throw "TypeError: tokenClient is null"
        else
          granted ← gets (fun e => consent (world e));
          _ ← match granted with
              | Some token => modify_svc (set_accessToken (Some token))
              | None => mret tt
              end;
          token ← gets (fun e => accessToken (svc e));
          match token with
          | Some t => if JS.truthy_str t then mret true else throw "Login timed out."
          | None => throw "Login timed out."
          end
  | local_fs =>
      grants ← gets (fun e => picker_grants (world e));
      if grants : bool
      then _ ← modify_svc (set_directoryHandle true); mret true
      else throw "Local folder access is required for this mode."
  | local_db => mret true
  end.

(** The files a [files.list] query selects when the texts pasted into it
    are quotable (see [findFile]): by name, not trashed, and below
    [parentId] when one is given. *)
Definition matches (name : string) (parentId : option string) (f : DriveFile) : bool :=
  bool_decide (DriveFile.name f = name) && negb (DriveFile.trashed f)
  && match parentId with
     | Some p => if JS.truthy_str p then bool_decide (p ∈ DriveFile.parents f) else true
     | None => true
     end.

(** A text that can stand between apostrophes in a query as it is: it has
    no apostrophe, which would end the literal, and no backslash, which
    would start an escape. *)
Definition quotable (s : string) : bool :=
  JS.all_chars (fun c => negb ((nat_of_ascii c =? 39)%nat || (nat_of_ascii c =? 92)%nat)) s.

(** The query [findFile] builds pastes [name] and [parentId] between
    apostrophes without escaping them. *)
Definition well_quoted (name : string) (parentId : option string) : bool :=
  quotable name
  && match parentId with
     | Some p => if JS.truthy_str p then quotable p else true
     | None => true
     end.

(** A query in which a pasted text is not quotable is not the query meant;
    the request for it is rejected (as it is for a name with an apostrophe,
    which leaves the query malformed). *)
Definition findFile (name : string) (parentId : option string) : IO (option string) :=
  m ← gets (fun e => mode (svc e));
  match m with
  | local_fs => mret (Some "fs-vault")
  | local_db => mret (Some "idb-vault")
  | drive =>
      _ ← io "drive.files.list";
      if negb (well_quoted name parentId) then throw "Invalid Value"
      else
        files ← gets (fun e => filter (fun f => matches name parentId f = true)
                                 (cloud (world e)));
        mret (match files with
              | f :: _ => Some (DriveFile.id f)
              | [] => None
              end)
  end.

(** The remote store creates a file under an identifier of its choosing,
    distinct from those in use. *)
Definition create_remote (name mimeType : string) (parents : list string)
    (content : body) : IO string :=
  files ← gets (fun e => cloud (world e));
  let id := fresh (DriveFile.id <$> files) in
  _ ← modify_world (set_cloud (files ++ [DriveFile.mk id name mimeType parents false content]));
  mret id.

(** A multipart [PATCH] of the file [id]: new metadata and new content. *)
Definition patch_remote (id name mimeType : string) (content : body) : IO string :=
  files ← gets (fun e => cloud (world e));
  if bool_decide (id ∈ DriveFile.id <$> files) then
    _ ← modify_world (set_cloud
          ((fun f => if bool_decide (DriveFile.id f = id)
                     then DriveFile.mk id name mimeType (DriveFile.parents f)
                            (DriveFile.trashed f) content
                     else f) <$> files));
    mret id
  else throw "404".

Definition ensureFolder (name : string) (parentId : option string) : IO string :=
  existing ← findFile name parentId;
  match JS.truthy_opt existing with
  | Some id => mret id
  | None =>
      _ ← io "drive.files.create";
      create_remote name "application/vnd.google-apps.folder"
        (match parentId with
         | Some p => if JS.truthy_str p then [p] else []
         | None => []
         end)
        (TextBody NotJson)
  end.

Definition uploadBinaryFile (base64 mimeType fileName parentId : string) : IO string :=
  _ ← io "gapi.client.request";
  create_remote fileName mimeType [parentId] (Bytes base64).

Definition path (parts : list string) : string := String.concat "/" parts.

(** A name [getDirectoryHandle] and [getFileHandle] take: not empty, not
    [.] nor [..], and without the separator [/]; any other is refused with
    a [TypeError].  (The constant names of this module are such names.) *)
Definition valid_name (s : string) : bool :=
  negb (bool_decide (s = "") || bool_decide (s = ".") || bool_decide (s = "..")
        || JS.includes "/" s).

(** [getDirectoryHandle(name, ...)] or [getFileHandle(name, ...)]. *)
Definition handle_for (what name : string) : IO unit :=
  if valid_name name then io what else throw "TypeError: Name is not allowed.".

Definition archiveStatement (base64 mimeType accountName date : string)
    : IO (option string) :=
  suffix ← draw random36;
  let fileName := "Statement_" +:+ date +:+ "_" +:+ suffix +:+ ".png" in
  m ← gets (fun e => mode (svc e));
  handle ← gets (fun e => directoryHandle (svc e));
  if bool_decide (m = local_fs) && handle then
    try_catch
      (_ ← io "getDirectoryHandle";
       let monthStr := JS.slice0 7 date in
       _ ← handle_for "getDirectoryHandle" monthStr;
       _ ← handle_for "getDirectoryHandle" accountName;
       let p := path [ROOT_FOLDER_NAME; monthStr; accountName; fileName] in
       _ ← handle_for "getFileHandle" fileName;
       _ ← modify_world (fun w =>
             match fs w !! p with
             | Some _ => w
             | None => set_fs (<[p := Bytes ""]> (fs w)) w
             end);
       _ ← io "createWritable";
       _ ← (if JS.atob_ok base64 then mret tt else throw "InvalidCharacterError");
       _ ← io "write";
       _ ← io "close";
       _ ← modify_world (fun w => set_fs (<[p := Bytes base64]> (fs w)) w);
       mret (Some ("fs://" +:+ monthStr +:+ "/" +:+ accountName +:+ "/" +:+ fileName)))
      (fun _ => mret None)
  else if bool_decide (m = drive) then
    try_catch
      (rootId ← ensureFolder ROOT_FOLDER_NAME None;
       let monthStr := JS.slice0 7 date in
       monthId ← ensureFolder monthStr (Some rootId);
       accountId ← ensureFolder accountName (Some monthId);
       id ← uploadBinaryFile base64 mimeType fileName accountId;
       mret (Some id))
      (fun _ => mret None)
  else
    let blobKey := "blob_" +:+ fileName in
    _ ← LocalDbService.save blobKey
          (VObj [("base64", VStr base64); ("mimeType", VStr mimeType); ("date", VStr date)]);
    mret (Some ("idb://" +:+ blobKey)).

(** What [writable.write(JSON.stringify(data))] puts in the file; a
    snapshot is an object, so [stringify] does return a text. *)
Definition document (data : UserData) : body :=
  match JSON.stringify (Encode.userData data) with
  | Some t => TextBody t
  | None => TextBody NotJson
  end.

Definition saveData (data : UserData) : IO unit :=
  m ← gets (fun e => mode (svc e));
  handle ← gets (fun e => directoryHandle (svc e));
  if bool_decide (m = local_fs) && handle then
    _ ← io "getFileHandle";
    _ ← modify_world (fun w =>
          match fs w !! FILE_NAME with
          | Some _ => w
          | None => set_fs (<[FILE_NAME := TextBody NotJson]> (fs w)) w
          end);
    _ ← io "createWritable";
    _ ← io "write";
    _ ← io "close";
    modify_world (fun w => set_fs (<[FILE_NAME := document data]> (fs w)) w)
  else if bool_decide (m = drive) then
    fileId ← findFile FILE_NAME None;
    _ ← io "gapi.client.request";
    _ ← match JS.truthy_opt fileId with
        | Some id => patch_remote id FILE_NAME "application/json" (document data)
        | None => create_remote FILE_NAME "application/json" [] (document data)
        end;
    mret tt
  else
    LocalDbService.save STORAGE_IDB_KEY (Encode.userData data).

(** The text of a file. *)
Definition text_of (b : body) : text :=
  match b with
  | TextBody t => t
  | Bytes _ | Csv _ => NotJson
  end.

(** The declared result type is [UserData]; what is returned is whatever
    the backend holds. *)
Definition downloadData (fileIdOrName : string) : IO jsval :=
  m ← gets (fun e => mode (svc e));
  handle ← gets (fun e => directoryHandle (svc e));
  if bool_decide (m = local_fs) && handle then
    _ ← io "getFileHandle";
    file ← gets (fun e => fs (world e) !! FILE_NAME);
    match file with
    | None => throw "NotFoundError"
    | Some b =>
        _ ← io "getFile";
        _ ← io "text";
        match JSON.parse (text_of b) with
        | Some v => mret v
        | None => throw "SyntaxError"
        end
    end
  else if bool_decide (m = drive) then
    _ ← io "drive.files.get";
    files ← gets (fun e => cloud (world e));
    match filter (fun f => DriveFile.id f = fileIdOrName) files with
    | f :: _ =>
        mret (match JSON.parse (text_of (DriveFile.content f)) with
              | Some v => v
              | None => VBool false
              end)
    | [] => throw "404"
    end
  else
    data ← LocalDbService.get STORAGE_IDB_KEY;
    if truthy_val data
    then mret (default VUndef data)
    else throw "Vault not found in Local Storage.".

Definition syncToSpreadsheet (entries : list FinanceEntry) : IO (option string) :=
  m ← gets (fun e => mode (svc e));
  if negb (bool_decide (m = drive)) then mret None
  else
    sheetId ← findFile SHEET_NAME None;
    _ ← io "gapi.client.request";
    id ← match JS.truthy_opt sheetId with
         | Some id => patch_remote id SHEET_NAME "application/vnd.google-apps.spreadsheet" (Csv entries)
         | None => create_remote SHEET_NAME "application/vnd.google-apps.spreadsheet" [] (Csv entries)
         end;
    mret (Some id).

End GoogleDriveService.

(* ================================================================= *)
(** ** services/geminiService.ts *)
(* ================================================================= *)

Module GeminiService.

(** The body of the [forEach] over [rawRates]: [None] when reading
    [item.code] throws (the item is [null]). *)
Definition add_rate (acc : result (gmap string JS.number)) (item : jsval)
    : result (gmap string JS.number) :=
  match acc with
  | Ok rates =>
      match item with
      | VNull | VUndef => Throw "TypeError"
      | VObj ps =>
          match Decode.get "code" ps, Decode.get "rate" ps with
          | Some code, Some (VNum rate) =>
              if truthy_val (Some code) then
                match code with
                | VStr c => Ok (JS.set c rate rates)
                | _ => IllTyped
                end
              else Ok rates
          | _, _ => Ok rates
          end
      | _ => Ok rates
      end
  | _ => acc
  end.

(** The [try] block that reads the response. *)
Definition read_rates (baseCurrency : string) (t : option text)
    : result (gmap string JS.number) :=
  match JSON.parse (default (Document (VObj [])) t) with
  | None => Throw "SyntaxError"
  | Some VNull | Some VUndef => Throw "TypeError"
  | Some data =>
      let rates0 : gmap string JS.number := {[ baseCurrency := 1%float ]} in
      let raw := match data with VObj ps => Decode.get "rates" ps | _ => None end in
      let rawRates := if truthy_val raw then default (VArr []) raw else VArr [] in
      match rawRates with
      | VArr items => fold_left add_rate items (Ok rates0)
      | _ => Ok rates0
      end
  end.

Definition fetchExchangeRates (baseCurrency : string) (targetCurrencies : list string)
    : IO (gmap string JS.number) :=
  match targetCurrencies with
  | [] => mret {[ baseCurrency := 1%float ]}
  | _ :: _ =>
      let targets := filter (fun c => c ≠ baseCurrency) (JS.dedupe targetCurrencies) in
      match targets with
      | [] => mret {[ baseCurrency := 1%float ]}
      | _ :: _ =>
          response ← gets (fun e => rate_service (world e));
          match response with
          | Rejected => throw "generateContent failed"
          | Responded t =>
              match read_rates baseCurrency t with
              | Ok rates => mret rates
              | Throw _ => mret {[ baseCurrency := 1%float ]}
              | IllTyped => illTyped
              end
          end
      end
  end.

Definition processDocument (base64Data mimeType : string) : IO (list PartialEntry) :=
  response ← gets (fun e => extract_service (world e));
  match response with
  | ExtractRejected => throw "generateContent failed"
  | ExtractUnparseable => mret []
  | Extracted transactions => mret transactions
  end.

End GeminiService.

(* ================================================================= *)
(** ** App.tsx *)
(* ================================================================= *)

Inductive Tab := command | matrix | budget | scan | shield | mind.
Inductive SyncStatus := idle | syncing | saved.

(** The React state of [App]. *)
Record AppState := mkApp {
  user : option UserData;
  isAuthenticated : bool;
  isLoading : bool;
  isVaultLocked : bool;
  activeTab : Tab;
  syncStatus : SyncStatus;
  authError : option string
}.

Record State := mkState { app : AppState; env : Env }.

Abbreviation Act := (ST State).

(** The entries the controller holds, newest first. *)
Definition entries_of (s : State) : list FinanceEntry :=
  match user (app s) with
  | Some d => UserData.entries d
  | None => []
  end.

Definition newest (s : State) : option FinanceEntry := head (entries_of s).

(** Running a service call from the component. *)
Definition lift {A} (m : IO A) : Act A := fun s =>
  let '(r, e) := m (env s) in (r, mkState (app s) e).

Definition modify_app (f : AppState -> AppState) : Act unit :=
  modify (fun s => mkState (f (app s)) (env s)).

Definition setUser (x : option UserData) : Act unit :=
  modify_app (fun a => mkApp x (isAuthenticated a) (isLoading a) (isVaultLocked a)
                         (activeTab a) (syncStatus a) (authError a)).
Definition setIsAuthenticated (x : bool) : Act unit :=
  modify_app (fun a => mkApp (user a) x (isLoading a) (isVaultLocked a)
                         (activeTab a) (syncStatus a) (authError a)).
Definition setIsLoading (x : bool) : Act unit :=
  modify_app (fun a => mkApp (user a) (isAuthenticated a) x (isVaultLocked a)
                         (activeTab a) (syncStatus a) (authError a)).
Definition setIsVaultLocked (x : bool) : Act unit :=
  modify_app (fun a => mkApp (user a) (isAuthenticated a) (isLoading a) x
                         (activeTab a) (syncStatus a) (authError a)).
Definition setActiveTab (x : Tab) : Act unit :=
  modify_app (fun a => mkApp (user a) (isAuthenticated a) (isLoading a) (isVaultLocked a)
                         x (syncStatus a) (authError a)).
Definition setSyncStatus (x : SyncStatus) : Act unit :=
  modify_app (fun a => mkApp (user a) (isAuthenticated a) (isLoading a) (isVaultLocked a)
                         (activeTab a) x (authError a)).
Definition setAuthError (x : option string) : Act unit :=
  modify_app (fun a => mkApp (user a) (isAuthenticated a) (isLoading a) (isVaultLocked a)
                         (activeTab a) (syncStatus a) x).

Module App.

(** [{ ...d, entries }], [{ ...d, lastSynced }] and the like. *)
Definition with_entries (x : list FinanceEntry) (d : UserData) : UserData :=
  UserData.mk x (UserData.goals d) (UserData.lastSynced d)
    (UserData.exchangeRates d) (UserData.legacy d) (UserData.settings d).
Definition with_lastSynced (x : string) (d : UserData) : UserData :=
  UserData.mk (UserData.entries d) (UserData.goals d) x
    (UserData.exchangeRates d) (UserData.legacy d) (UserData.settings d).
Definition with_exchangeRates (x : option (gmap string JS.number)) (d : UserData) : UserData :=
  UserData.mk (UserData.entries d) (UserData.goals d) (UserData.lastSynced d)
    x (UserData.legacy d) (UserData.settings d).
Definition with_legacy (x : option LegacyProfile) (d : UserData) : UserData :=
  UserData.mk (UserData.entries d) (UserData.goals d) (UserData.lastSynced d)
    (UserData.exchangeRates d) x (UserData.settings d).
Definition with_settings (x : Settings) (d : UserData) : UserData :=
  UserData.mk (UserData.entries d) (UserData.goals d) (UserData.lastSynced d)
    (UserData.exchangeRates d) (UserData.legacy d) x.
Definition with_termsAccepted (x : bool) (s : Settings) : Settings :=
  Settings.mk (Settings.currency s) (Settings.userName s) (Settings.biometricEnabled s)
    x (Settings.spreadsheetId s) (Settings.monthlyBudgetLimit s).
Definition with_spreadsheetId (x : option string) (s : Settings) : Settings :=
  Settings.mk (Settings.currency s) (Settings.userName s) (Settings.biometricEnabled s)
    (Settings.termsAccepted s) x (Settings.monthlyBudgetLimit s).

Definition createInitialData (now : string) : UserData :=
  UserData.mk [] [] now None None
    (Settings.mk "USD" "FinAA User" false false None (Some 5000%float)).

(** [entries.map(e => e.currency).filter(Boolean)], without duplicates. *)
Definition currenciesUsed (userData : UserData) : list string :=
  JS.dedupe (omap (fun e => JS.truthy_opt (FinanceEntry.currency e))
                  (UserData.entries userData)).

Definition updateExchangeRates (userData : UserData) : Act unit :=
  match currenciesUsed userData with
  | [] => mret tt
  | used =>
      try_catch
        (rates ← lift (GeminiService.fetchExchangeRates
                         (Settings.currency (UserData.settings userData)) used);
         let updatedUser := with_exchangeRates (Some rates) userData in
         _ ← setUser (Some updatedUser);
         lift (GoogleDriveService.saveData updatedUser))
        (fun _ => mret tt)
  end.

(** [data] after the two repairs [if (!data.goals) ...] and
    [if (!data.settings) ...]. *)
Definition repaired (now : string) (l : Decode.loaded) : UserData :=
  UserData.mk (Decode.l_entries l) (default [] (Decode.l_goals l))
    (Decode.l_lastSynced l) (Decode.l_exchangeRates l) (Decode.l_legacy l)
    (default (UserData.settings (createInitialData now)) (Decode.l_settings l)).

(** A value read at the type [UserData]. *)
Definition typed (now : string) (v : jsval) : Act UserData :=
  match Decode.userData v with
  | Some l => mret (repaired now l)
  | None => illTyped
  end.

Definition handleLogin (m : Mode) : Act unit :=
  _ ← setAuthError None;
  try_finally
    (try_catch
       (_ ← setIsLoading true;
        _ ← lift (GoogleDriveService.login m);
        fileId ← lift (GoogleDriveService.findFile "finaa_vault_v1.json" None);
        now ← gets (fun s => now (world (env s)));
        data ← match JS.truthy_opt fileId with
               | Some id =>
                   try_catch
                     (v ← lift (GoogleDriveService.downloadData id); typed now v)
                     (fun _ => mret (createInitialData now))
               | None =>
                   let data := createInitialData now in
                   _ ← lift (GoogleDriveService.saveData data);
                   mret data
               end;
        _ ← setUser (Some data);
        _ ← setIsAuthenticated true;
        _ ← (if Settings.biometricEnabled (UserData.settings data)
             then setIsVaultLocked true else mret tt);
        updateExchangeRates data)
       (fun message =>
          setAuthError
            (Some (JS.or_else_str message "Could not access storage. Check permissions."))))
    (setIsLoading false).

(** [newData.settings.spreadsheetId = sheetId] writes into the settings
    object, which the snapshot held in the React state shares with
    [newData]: the write is seen there too. *)
Definition assign_spreadsheetId (sheetId : string) (d : UserData) : UserData :=
  with_settings (with_spreadsheetId (Some sheetId) (UserData.settings d)) d.

(** The two-second timer that sets the status back to [idle] is not
    embedded.  The result is [newData] as the call leaves it: the
    assignment to [spreadsheetId] is seen by the caller, which holds the same
    object.  The [catch] is written at both places an exception can come
    from, before and after that assignment. *)
Definition syncToCloud (newData : UserData) : Act UserData :=
  _ ← setSyncStatus syncing;
  try_catch
    (_ ← lift (GoogleDriveService.saveData newData);
     m ← gets (fun s => mode (svc (env s)));
     if bool_decide (m = drive) then
       sheetId ← lift (GoogleDriveService.syncToSpreadsheet (UserData.entries newData));
       match JS.truthy_opt sheetId with
       | Some id =>
           if bool_decide (Settings.spreadsheetId (UserData.settings newData) ≠ Some id)
           then
             _ ← modify_app (fun a =>
                   mkApp (assign_spreadsheetId id <$> user a) (isAuthenticated a)
                     (isLoading a) (isVaultLocked a) (activeTab a) (syncStatus a)
                     (authError a));
             let newData' := assign_spreadsheetId id newData in
             try_catch
               (_ ← lift (GoogleDriveService.saveData newData');
                _ ← setSyncStatus saved;
                mret newData')
               (fun _ => _ ← setSyncStatus idle; mret newData')
           else _ ← setSyncStatus saved; mret newData
       | None => _ ← setSyncStatus saved; mret newData
       end
     else _ ← setSyncStatus saved; mret newData)
    (fun _ => _ ← setSyncStatus idle; mret newData).

(** The snapshot each intent computes ([const updatedUser = ...]). *)
Definition addEntry_snapshot (now : string) (user : UserData) (entry : FinanceEntry) : UserData :=
  with_lastSynced now (with_entries (entry :: UserData.entries user) user).

Definition updateEntry_snapshot (now : string) (user : UserData)
    (updatedEntry : FinanceEntry) : UserData :=
  with_lastSynced now
    (with_entries
       ((fun e => if bool_decide (FinanceEntry.id e = FinanceEntry.id updatedEntry)
                  then updatedEntry else e) <$> UserData.entries user)
       user).

Definition addEntries_snapshot (now : string) (user : UserData)
    (newEntries : list FinanceEntry) : UserData :=
  with_lastSynced now (with_entries (newEntries ++ UserData.entries user) user).

Definition updateLegacy_snapshot (now : string) (user : UserData)
    (legacy : LegacyProfile) : UserData :=
  with_lastSynced now (with_legacy (Some legacy) user).

Definition acceptTerms_snapshot (user : UserData) : UserData :=
  with_settings (with_termsAccepted true (UserData.settings user)) user.

(** The intents; each starts with [if (!user) return]. *)
Definition with_user (k : string -> UserData -> Act unit) : Act unit :=
  u ← gets (fun s => user (app s));
  now ← gets (fun s => now (world (env s)));
  match u with
  | None => mret tt
  | Some d => k now d
  end.

Definition addEntry (entry : FinanceEntry) : Act unit :=
  with_user (fun now user =>
    let updatedUser := addEntry_snapshot now user entry in
    _ ← setUser (Some updatedUser);
    updatedUser ← syncToCloud updatedUser;
    updateExchangeRates updatedUser).

Definition updateEntry (updatedEntry : FinanceEntry) : Act unit :=
  with_user (fun now user =>
    let updatedUser := updateEntry_snapshot now user updatedEntry in
    _ ← setUser (Some updatedUser);
    _ ← syncToCloud updatedUser;
    mret tt).

Definition addEntries (newEntries : list FinanceEntry) : Act unit :=
  with_user (fun now user =>
    let updatedUser := addEntries_snapshot now user newEntries in
    _ ← setUser (Some updatedUser);
    updatedUser ← syncToCloud updatedUser;
    _ ← updateExchangeRates updatedUser;
    setActiveTab command).

Definition updateLegacy (legacy : LegacyProfile) : Act unit :=
  with_user (fun now user =>
    let updatedUser := updateLegacy_snapshot now user legacy in
    _ ← setUser (Some updatedUser);
    _ ← syncToCloud updatedUser;
    mret tt).

Definition acceptTerms : Act unit :=
  with_user (fun _ user =>
    let updatedUser := acceptTerms_snapshot user in
    _ ← setUser (Some updatedUser);
    _ ← syncToCloud updatedUser;
    mret tt).

End App.

(* ================================================================= *)
(** ** components/CsvImporter.tsx *)
(* ================================================================= *)

Module CsvImporter.

Section WithDates.

(** [new Date(s).toISOString()]; [None] stands for the [RangeError] an
    invalid date raises. *)
Variable toISOString : string -> option string.

(** [a || b || ... || d] over properties of a parsed row. *)
Fixpoint first_truthy (candidates : list (option string)) (d : string) : string :=
  match candidates with
  | [] => d
  | c :: r =>
      match JS.truthy_opt c with
      | Some s => s
      | None => first_truthy r d
      end
  end.

Definition category_of (isCredit : bool) (lowName : string) : string :=
  if isCredit then "Income"
  else if JS.includes "rent" lowName || JS.includes "council" lowName
          || JS.includes "utility" lowName || JS.includes "ee" lowName
          || JS.includes "tesco" lowName || JS.includes "lidl" lowName
          || JS.includes "insurance" lowName then "Needs"
  else if JS.includes "savings" lowName || JS.includes "isa" lowName
          || JS.includes "vanguard" lowName then "Savings"
  else if JS.includes "loan" lowName || JS.includes "mortgage" lowName
          || JS.includes "credit card" lowName then "Debt"
  else "Wants".

(** [raw] is one parsed row: a value by lower-cased header. *)
Definition mapToEntry (baseCurrency : string) (raw : gmap string string)
    : IO FinanceEntry :=
  let name := first_truthy [raw !! "name"; raw !! "description"; raw !! "merchant"]
                "Unknown Merchant" in
  let amountStr := first_truthy [raw !! "amount"; raw !! "value"; raw !! "amount (gbp)"] "0" in
  let amount := JS.Math_abs (JS.parseFloat amountStr) in
  let isCredit := JS.gt (JS.parseFloat amountStr) 0 in
  today ← gets (fun e => JS.before "T" (now (world e)));
  date ← match JS.truthy_opt (raw !! "date") with
         | Some d =>
             match toISOString d with
             | Some iso => mret (JS.before "T" iso)
             | None => throw "RangeError: Invalid time value"
             end
         | None => mret today
         end;
  let category := category_of isCredit (JS.toLowerCase name) in
  id ← draw randomUUID;
  mret (FinanceEntry.mk id (if isCredit then ASSET else EXPENSE) category name amount
          (Some (first_truthy [raw !! "currency"] baseCurrency)) None date
          None None None None None None None None None None (Some high)
          None None None None None).

(** The [onload] callback of [handleFileChange], from the parsed rows on
    ([parseCSV] is not embedded); [onImport] is [App.addEntries]. *)
Definition handleFileChange (baseCurrency : string) (rawData : list (gmap string string))
    : Act unit :=
  entries ← lift (for_each (mapToEntry baseCurrency) rawData);
  App.addEntries entries.

End WithDates.

End CsvImporter.

(* ================================================================= *)
(** ** components/FinanceForms.tsx *)
(* ================================================================= *)

Module ValuationResult.
Record t := mk {
  estimatedValue : JS.number;
  currency : string;
  reasoning : string;
  sources : list GroundingSource
}.
End ValuationResult.
Abbreviation ValuationResult := ValuationResult.t.

Module FormData.
Record t := mk {
  name : string;
  amount : string;
  currency : string;
  type : EntryType;
  category : string;
  address : string;
  plotSize : string;
  propertyType : string;
  referenceNumber : string;
  date : string;
  isWorkProvided : bool;
  liquidity : Liquidity;
  coverageAmount : string;
  emi : string;
  monthsRemaining : string
}.
End FormData.
Abbreviation FormData := FormData.t.

Module FinanceForms.

Definition blank (baseCurrency today : string) : FormData :=
  FormData.mk "" "" baseCurrency EXPENSE "Wants" "" "" "Home" "" today false medium "" "" "".

(** [s ? parse(s) : undefined]. *)
Definition parsed_if_given (parse : string -> JS.number) (s : string) : option JS.number :=
  if JS.truthy_str s then Some (parse s) else None.

(** The object [handleSubmit] passes to [onAdd]. *)
Definition submitted (id now : string) (formData : FormData)
    (valuationResult : option ValuationResult) : FinanceEntry :=
  FinanceEntry.mk id (FormData.type formData) (FormData.category formData)
    (FormData.name formData) (JS.parseFloat (FormData.amount formData))
    (Some (FormData.currency formData)) None (FormData.date formData)
    (Some (FormData.address formData)) (Some (FormData.plotSize formData))
    (Some (FormData.propertyType formData))
    (ValuationResult.sources <$> valuationResult)
    (match valuationResult with Some _ => Some now | None => None end)
    (Some (FormData.referenceNumber formData)) None None None
    (Some (FormData.isWorkProvided formData)) (Some (FormData.liquidity formData))
    None
    (parsed_if_given JS.parseFloat (FormData.coverageAmount formData))
    None
    (parsed_if_given JS.parseFloat (FormData.emi formData))
    (parsed_if_given JS.parseInt (FormData.monthsRemaining formData)).

(** [handleSubmit]; [onAdd] is [App.addEntry].  The result is the form
    state it leaves: [formData] and [valuationResult]. *)
Definition handleSubmit (baseCurrency : string) (formData : FormData)
    (valuationResult : option ValuationResult)
    : Act (FormData * option ValuationResult) :=
  if negb (JS.truthy_str (FormData.name formData))
     || negb (JS.truthy_str (FormData.amount formData))
  then mret (formData, valuationResult)
  else
    id ← lift (draw randomUUID);
    now ← gets (fun s => now (world (env s)));
    _ ← App.addEntry (submitted id now formData valuationResult);
    mret (blank baseCurrency (JS.before "T" now), None).

(** What the user is told when a scan adds nothing. *)
Inductive alert := NoTransactionsFound | ScanFailed.

(** One turn of the loop over the extracted transactions. *)
Definition archived_entry (baseCurrency base64 mimeType : string) (res : PartialEntry)
    : IO FinanceEntry :=
  today ← gets (fun e => JS.before "T" (now (world e)));
  let or_str (o : option string) (d : string) := default d (JS.truthy_opt o) in
  driveId ← GoogleDriveService.archiveStatement base64 mimeType
               (or_str (PartialEntry.name res) "Unknown Merchant")
               (or_str (PartialEntry.date res) today);
  id ← draw randomUUID;
  mret (FinanceEntry.mk id
          (default EXPENSE (PartialEntry.type res))
          (or_str (PartialEntry.category res) "General")
          (or_str (PartialEntry.name res) "Unnamed Transaction")
          (JS.or_else (default 0%float (PartialEntry.amount res)) 0)
          (Some (or_str (PartialEntry.currency res) baseCurrency))
          None
          (or_str (PartialEntry.date res) today)
          None None None None None
          (Some (or_str (PartialEntry.referenceNumber res) ""))
          None
          (JS.truthy_opt driveId)
          None
          (Some (default false (PartialEntry.isWorkProvided res)))
          (Some medium)
          None
          (PartialEntry.coverageAmount res)
          None None None).

(** [handleFileUpload] from the chosen file on: its base64 content and its
    type; [onAddBulk] is [App.addEntries].  The result is the alert shown,
    if any. *)
Definition handleFileUpload (baseCurrency base64 mimeType : string) : Act (option alert) :=
  try_catch
    (results ← lift (GeminiService.processDocument base64 mimeType);
     match results with
     | [] => mret (Some NoTransactionsFound)
     | _ :: _ =>
         newEntries ← lift (for_each (archived_entry baseCurrency base64 mimeType) results);
         _ ← App.addEntries newEntries;
         mret None
     end)
    (fun _ => mret (Some ScanFailed)).

End FinanceForms.

(* ================================================================= *)
(** ** components/SafetyNet.tsx *)
(* ================================================================= *)

Module SafetyNet.

Definition charset : string := "ABCDEFGHJKLMNPQRSTUVWXYZ23456789".

(** The loop [for (let i = 0; i < 16; i++)], from [i] on, [n] turns left. *)
Fixpoint generate (n i : nat) (passkey : string) : IO string :=
  match n with
  | O => mret passkey
  | S n' =>
      let passkey := if (0 <? i)%nat && (i mod 4 =? 0)%nat then passkey +:+ "-" else passkey in
      r ← draw random;
      let passkey :=
        passkey +:+ JS.charAt_floor charset (r * inject_Z (Z.of_nat (String.length charset))) in
      generate n' (S i) passkey
  end.

Definition new_passkey : IO string := generate 16 0 "".

(** [handleGeneratePasskey]; [onUpdateLegacy] is [App.updateLegacy]. *)
Definition handleGeneratePasskey (successorName : string) : Act unit :=
  passkey ← lift new_passkey;
  now ← gets (fun s => now (world (env s)));
  App.updateLegacy
    (LegacyProfile.mk (JS.or_else_str successorName "Designated Successor")
       passkey true now).

End SafetyNet.

(* ================================================================= *)
(** ** components/SecurityVault.tsx *)
(* ================================================================= *)

Module SecurityVault.

(** The component's own state. *)
Record state := mk {
  isLocked : bool;
  error : option string;
  showPasskeyField : bool;
  passkeyInput : string
}.

(** [useState(enabled)] and the other initial values, at mount. *)
Definition mount (enabled : bool) : state := mk enabled None false "".

(** Each handler yields the new state and whether it called [onUnlock]. *)
Definition handleUnlock (st : state) : state * bool :=
  (mk false (error st) (showPasskeyField st) (passkeyInput st), true).

Definition normalizedInput (passkeyInput : string) : string :=
  JS.remove_chars JS.is_space (JS.toUpperCase (JS.trim passkeyInput)).

Definition normalizedPasskey (recoveryPasskey : string) : string :=
  JS.remove_chars (fun c => JS.is_hyphen c || JS.is_space c)
    (JS.toUpperCase (JS.trim recoveryPasskey)).

Definition handlePasskeyUnlock (legacy : option LegacyProfile) (st : state) : state * bool :=
  match JS.truthy_opt (LegacyProfile.recoveryPasskey <$> legacy) with
  | None =>
      (mk (isLocked st) (Some "No recovery passkey configured for this vault.")
          (showPasskeyField st) (passkeyInput st), false)
  | Some recoveryPasskey =>
      if bool_decide (normalizedInput (passkeyInput st) = normalizedPasskey recoveryPasskey)
      then (mk false (error st) (showPasskeyField st) (passkeyInput st), true)
      else (mk (isLocked st)
               (Some "Invalid passkey. Please check the emergency instructions.")
               (showPasskeyField st) (passkeyInput st), false)
  end.

Definition setShowPasskeyField (x : bool) (st : state) : state :=
  mk (isLocked st) (error st) x (passkeyInput st).

(** [onChange] of the passkey field, which takes at most 19 characters. *)
Definition setPasskeyInput (x : string) (st : state) : state :=
  mk (isLocked st) (error st) (showPasskeyField st) (JS.slice0 19 x).

End SecurityVault.

(* ================================================================= *)
(** ** The vault gate of a session *)
(* ================================================================= *)

(** [App] renders [<SecurityVault enabled={isVaultLocked}
    onUnlock={() => setIsVaultLocked(false)} legacy={user?.legacy} />] once
    the session is authenticated.  The gate is the pair of [App]'s
    [isVaultLocked] and the overlay's own [isLocked]. *)

Module Session.

(** What the user can do on the overlay. *)
Inductive event :=
| VerifyIdentity            (* the "Verify Identity" button: [handleUnlock] *)
| UseRecoveryPasskey        (* shows the passkey field *)
| BackToBiometrics          (* hides it *)
| TypePasskey (s : string)  (* types into the passkey field *)
| UnlockVault.              (* the "Unlock Vault" button: [handlePasskeyUnlock] *)

Definition onUnlock (a : AppState) : AppState :=
  mkApp (user a) (isAuthenticated a) (isLoading a) false
    (activeTab a) (syncStatus a) (authError a).

Definition legacy_of (a : AppState) : option LegacyProfile :=
  user a ≫= UserData.legacy.

(** The overlay as first rendered for the session. *)
Definition enter (a : AppState) : AppState * SecurityVault.state :=
  (a, SecurityVault.mount (isVaultLocked a)).

Definition after (a : AppState) (r : SecurityVault.state * bool)
    : AppState * SecurityVault.state :=
  (if r.2 then onUnlock a else a, r.1).

(** One user action.  The overlay renders nothing once [isLocked] is
    false, and shows either the two buttons or the passkey field. *)
Definition fire (ev : event) (g : AppState * SecurityVault.state)
    : AppState * SecurityVault.state :=
  let '(a, v) := g in
  if negb (SecurityVault.isLocked v) then g
  else
    match ev, SecurityVault.showPasskeyField v with
    | VerifyIdentity, false => after a (SecurityVault.handleUnlock v)
    | UseRecoveryPasskey, false => (a, SecurityVault.setShowPasskeyField true v)
    | BackToBiometrics, true => (a, SecurityVault.setShowPasskeyField false v)
    | TypePasskey s, true => (a, SecurityVault.setPasskeyInput s v)
    | UnlockVault, true => after a (SecurityVault.handlePasskeyUnlock (legacy_of a) v)
    | _, _ => g
    end.

(** The credential comparison the handler of [ev] evaluates, and its
    outcome; [None] when it evaluates none. *)
Definition credential_check (ev : event) (g : AppState * SecurityVault.state)
    : option bool :=
  match ev with
  | UnlockVault =>
      match JS.truthy_opt (LegacyProfile.recoveryPasskey <$> legacy_of g.1) with
      | Some recoveryPasskey =>
          Some (bool_decide
                  (SecurityVault.normalizedInput (SecurityVault.passkeyInput g.2)
                   = SecurityVault.normalizedPasskey recoveryPasskey))
      | None => None
      end
  | _ => None
  end.

Definition locked (g : AppState * SecurityVault.state) : bool := isVaultLocked g.1.

End Session.

(* ================================================================= *)
(** ** The specification's own formulas *)
(* ================================================================= *)

Module Spec.




(** The same with the two provisos of the amended claim: an amount that
    is [NaN] or a zero counts as [0], and an empty currency code is an
    absent one. *)
Definition counted (amount : JS.number) : JS.number :=
  if PrimFloat.is_nan amount || PrimFloat.is_zero amount then 0%float else amount.



(** The rate table cached on [d], empty when there is none. *)
Definition table (d : UserData) : gmap string JS.number :=
  default ∅ (UserData.exchangeRates d).


(** The entry's currency code has no rate in the cached table. *)
Definition rate_missing (rates : option (gmap string JS.number)) (e : FinanceEntry) : Prop :=
  forall c, FinanceEntry.currency e = Some c -> rates ≫= (.!! c) = None.

(** Some entry carries a currency code other than the base currency, so
    that a refresh does send a request. *)
Definition foreign_in_use (d : UserData) : Prop :=
  exists e c, e ∈ UserData.entries d
    /\ FinanceEntry.currency e = Some c
    /\ c <> "" /\ c <> Settings.currency (UserData.settings d).

(** The characters [cs], the one at position [i] first, with a hyphen
    before every fourth one but the very first. *)
Fixpoint blocks (i : nat) (cs : list ascii) : string :=
  match cs with
  | [] => ""
  | c :: r =>
      (if (0 <? i)%nat && (i mod 4 =? 0)%nat then "-" else "")
      +:+ String c (blocks (S i) r)
  end.

(** "Exactly 16 characters drawn from the fixed 32-symbol alphabet, grouped
    as four blocks of four separated by hyphens." *)
Definition well_shaped (passkey : string) : Prop :=
  exists cs : list ascii,
    length cs = 16%nat
    /\ Forall (fun c => c ∈ list_ascii_of_string SafetyNet.charset) cs
    /\ passkey = blocks 0 cs.

(** "It is cleared only by a successful credential check: no unlock
    happens without such a check." *)
Definition unlock_only_after_check : Prop :=
  forall ev g, Session.locked g = true -> Session.locked (Session.fire ev g) = false ->
    Session.credential_check ev g = Some true.

End Spec.

(** ** Saving and loading back *)

Module RoundTrip.

(** Saving a snapshot and loading it back at once, the way the program
    finds its document again. *)
Definition save_then_load (data : UserData) : IO jsval :=
  _ ← GoogleDriveService.saveData data;
  fileId ← GoogleDriveService.findFile GoogleDriveService.FILE_NAME None;
  GoogleDriveService.downloadData (default "" fileId).

(** A number JSON writes and reads back as it is: finite, and not the
    negative zero. *)
Definition json_number (x : JS.number) : Prop := JSON.number x = VNum x.

Definition opt_number (o : option JS.number) : list JS.number :=
  match o with Some x => [x] | None => [] end.

Definition entry_numbers (e : FinanceEntry) : list JS.number :=
  FinanceEntry.amount e
  :: opt_number (FinanceEntry.initialAmount e)
  ++ opt_number (FinanceEntry.coverageAmount e)
  ++ opt_number (FinanceEntry.emi e)
  ++ opt_number (FinanceEntry.monthsRemaining e).

Definition goal_numbers (g : Goal) : list JS.number :=
  [Goal.targetAmount g; Goal.currentAmount g].

(** Every number a snapshot holds. *)
Definition numbers (d : UserData) : list JS.number :=
  (UserData.entries d ≫= entry_numbers)
  ++ (UserData.goals d ≫= goal_numbers)
  ++ match UserData.exchangeRates d with
     | Some m => snd <$> map_to_list m
     | None => []
     end
  ++ opt_number (Settings.monthlyBudgetLimit (UserData.settings d)).

(** A snapshot JSON can hold. *)
Definition json_safe (d : UserData) : Prop := Forall json_number (numbers d).

(** A value JSON writes and reads back as it is: no [undefined] in it, and
    only such numbers. *)
Fixpoint clean (v : jsval) : Prop :=
  match v with
  | VUndef => False
  | VNull | VBool _ | VStr _ => True
  | VNum x => json_number x
  | VArr items =>
      (fix all (l : list jsval) : Prop :=
         match l with [] => True | x :: r => clean x /\ all r end) items
  | VObj props =>
      (fix all (l : list (string * jsval)) : Prop :=
         match l with [] => True | (_, x) :: r => clean x /\ all r end) props
  end.

End RoundTrip.

(** ** Sample data *)

Module Example.

Definition entry (id : string) (t : EntryType) (category name : string)
    (amount : JS.number) (currency : option string) (date : string) : FinanceEntry :=
  FinanceEntry.mk id t category name amount currency None date
    None None None None None None None None None None None None None None None None.

Definition settings : Settings :=
  Settings.mk "USD" "FinAA User" false false None (Some 5000%float).

Definition rates : gmap string JS.number :=
  {[ "USD" := 1%float; "GBP" := 1.27%float ]}.

(** A salary in sterling, savings in dollars, a loan with no currency. *)
Definition mixed : UserData :=
  UserData.mk
    [ entry "e1" ASSET "Income" "Salary" 100%float (Some "GBP") "2025-06-02";
      entry "e2" ASSET "Savings" "Deposit" 5000%float (Some "USD") "2025-06-03";
      entry "e3" LIABILITY "Debt" "Car loan" 1200%float None "2025-05-20" ]
    [] "2025-06-03T10:00:00.000Z" (Some rates) None settings.

(** An entry in a currency the table does not list. *)
Definition yen : FinanceEntry :=
  entry "e4" EXPENSE "Wants" "Ramen" 900%float (Some "JPY") "2025-06-04".

(** A snapshot whose only entry has an amount that is not a number, as a
    CSV row with a non-numeric amount column yields. *)
Definition not_a_number : UserData :=
  UserData.mk
    [ entry "e5" EXPENSE "Wants" "Unknown Merchant" nan (Some "USD") "2025-06-05" ]
    [] "2025-06-05T10:00:00.000Z" None None settings.

(** A quiet world: no fault scripted, empty stores, a consenting user, and
    a language-model service that answers [respond]. *)
Definition world (respond : ai_response) (extract : extraction) : World :=
  mkWorld "2025-06-15T12:00:00.000Z" [] 0
    (fun n => "uuid-" +:+ pretty n) (fun n => "r" +:+ pretty n) (fun _ => 0%Q)
    ∅ ∅ [] true true (Some "token") respond extract.

(** The services after a successful [login] in mode [m]. *)
Definition service (m : Mode) : Service :=
  mkService true (Some "token") (bool_decide (m = local_fs)) true m true.

Definition env (m : Mode) : Env := mkEnv (world Rejected ExtractRejected) (service m).

(** [App] before any login. *)
Definition app0 : AppState := mkApp None false true false command idle None.

(** [App] in a session over [d]. *)
Definition app_of (d : UserData) : AppState :=
  mkApp (Some d) true false false command idle None.

Definition state (m : Mode) (respond : ai_response) (extract : extraction)
    (a : AppState) : State :=
  mkState a (mkEnv (world respond extract) (service m)).

(** The same, the next storage operation failing. *)
Definition failing_state (m : Mode) (extract : extraction) (a : AppState) : State :=
  mkState a (mkEnv (set_faults [true] (world Rejected extract)) (service m)).

Definition legacy : LegacyProfile :=
  LegacyProfile.mk "Designated Successor" "ABCD-EFGH-JKLM-NPQR" true
    "2025-06-01T09:00:00.000Z".

(** A snapshot with a recovery passkey, and one with the vault lock on. *)
Definition with_passkey : UserData := App.with_legacy (Some legacy) mixed.

Definition vault_on : UserData :=
  App.with_settings (Settings.mk "USD" "FinAA User" true true None None) mixed.

(** A session over [d] with the vault gate up, as [Session.enter] has it. *)
Definition locked_session (d : UserData) : AppState * SecurityVault.state :=
  Session.enter (mkApp (Some d) true false true command idle None).

(** Choosing the passkey field, typing [input], pressing "Unlock Vault". *)
Definition try_passkey (input : string) (g : AppState * SecurityVault.state)
    : AppState * SecurityVault.state :=
  Session.fire Session.UnlockVault
    (Session.fire (Session.TypePasskey input)
       (Session.fire Session.UseRecoveryPasskey g)).

(** A returning user: the embedded database holds a document whose
    settings have the vault lock on. *)
Definition returning_state : State :=
  mkState app0
    (mkEnv (set_idb {[ GoogleDriveService.STORAGE_IDB_KEY := Encode.userData vault_on ]}
              (world Rejected ExtractRejected))
           (service local_db)).

(** A returning user over the stored snapshot [d]. *)
Definition returning (d : UserData) : State :=
  mkState app0
    (mkEnv (set_idb {[ GoogleDriveService.STORAGE_IDB_KEY := Encode.userData d ]}
              (world Rejected ExtractRejected))
           (service local_db)).

(** A snapshot with the vault lock on and a recovery passkey. *)
Definition vault_with_passkey : UserData := App.with_legacy (Some legacy) vault_on.


(** An entry whose currency column held the word [constructor]. *)
Definition odd_currency : FinanceEntry :=
  entry "e8" EXPENSE "Wants" "Souvenir" 5%float (Some "constructor") "2025-06-07".

(** One transaction read off a statement. *)
Definition coffee : PartialEntry :=
  PartialEntry.mk (Some "Coffee") (Some 4.5%float) (Some "USD") (Some EXPENSE)
    (Some "Wants") None (Some "2025-06-10") None None.

(** The manual form filled in with a negative value. *)
Definition refund_form : FormData :=
  FormData.mk "Refund" "-5" "USD" ASSET "Income" "" "" "Home" "" "2025-06-11"
    false medium "" "" "".

End Example.

(* ================================================================= *)
(** * Further components *)
(* ================================================================= *)

(** A computation that never ends in an exception. *)
Definition never_throws {S A} (m : ST S A) : Prop :=
  forall s message, fst (m s) <> Throw message.

(** A service call that leaves the fields of the service objects alone. *)
Definition keeps_services {A} (m : IO A) : Prop := forall e, svc (snd (m e)) = svc e.

(* ================================================================= *)
(** ** The service objects as constructed, and [App]'s mount effect *)
(* ================================================================= *)

Module Startup.

Definition CLIENT_ID : string := "YOUR_GOOGLE_CLIENT_ID_PLACEHOLDER".

(** The field initialisers of [new GoogleDriveService()] and of
    [new LocalDbService()]. *)
Definition driveService : Service :=
  mkService false None false (negb (JS.includes "PLACEHOLDER" CLIENT_ID)) local_db false.

(** The initial values of [App]'s [useState] calls. *)
Definition app : AppState := mkApp None false true false command idle None.

(** [initDrive], the body of the mount effect. *)
Definition initDrive : Act unit :=
  try_finally
    (try_catch (lift GoogleDriveService.init) (fun _ => mret tt))
    (setIsLoading false).

End Startup.

(* ================================================================= *)
(** ** components/BudgetView.tsx *)
(* ================================================================= *)

Module BudgetView.

(** The three running totals of the [forEach] in [budget]. *)
Record sums := mkSums {
  s_needs : JS.number;
  s_wants : JS.number;
  s_savings : JS.number
}.

Inductive bucket := Essentials | Lifestyle | Security.

#[global] Instance bucket_eq_dec : EqDecision bucket.
Proof. solve_decision. Defined.

(** The chain of [if (cat.includes(...))], on the lower-cased category. *)
Definition bucket_of (cat : string) : bucket :=
  if JS.includes "need" cat || JS.includes "rent" cat
     || JS.includes "bill" cat || JS.includes "food" cat then Essentials
  else if JS.includes "want" cat || JS.includes "play" cat
          || JS.includes "dine" cat then Lifestyle
  else if JS.includes "saving" cat || JS.includes "invest" cat
          || JS.includes "debt" cat then Security
  else Lifestyle.

(** Whether the [forEach] body gets past its two guards. *)
Definition counted (currentMonth : string) (e : FinanceEntry) : bool :=
  bool_decide (JS.slice0 7 (JS.or_else_str (FinanceEntry.date e) "") = currentMonth)
  && match FinanceEntry.type e with
     | EXPENSE | BILL => true
     | _ => false
     end.

(** One iteration of the [forEach] body. *)
Definition step (currentMonth : string) (t : sums) (e : FinanceEntry) : sums :=
  if negb (bool_decide (JS.slice0 7 (JS.or_else_str (FinanceEntry.date e) "") = currentMonth))
  then t
  else
    match FinanceEntry.type e with
    | EXPENSE | BILL =>
        let cat := JS.toLowerCase (JS.or_else_str (FinanceEntry.category e) "") in
        match bucket_of cat with
        | Essentials => mkSums (s_needs t + FinanceEntry.amount e)%float (s_wants t) (s_savings t)
        | Lifestyle => mkSums (s_needs t) (s_wants t + FinanceEntry.amount e)%float (s_savings t)
        | Security => mkSums (s_needs t) (s_wants t) (s_savings t + FinanceEntry.amount e)%float
        end
    | _ => t
    end.

Record budget_t := mkBudget {
  needs : JS.number;
  wants : JS.number;
  savings : JS.number;
  total : JS.number;
  limit : JS.number
}.

(** [budget]; [currentMonth] is [new Date().toISOString().slice(0, 7)]. *)
Definition budget (currentMonth : string) (data : UserData) : budget_t :=
  let limit :=
    match Settings.monthlyBudgetLimit (UserData.settings data) with
    | Some x => JS.or_else x 5000
    | None => 5000%float
    end in
  let t := fold_left (step currentMonth) (UserData.entries data) (mkSums 0 0 0) in
  mkBudget (s_needs t) (s_wants t) (s_savings t)
    (s_needs t + s_wants t + s_savings t)%float limit.

(** The bucket an entry's category puts it in. *)
Definition bucket_of_entry (e : FinanceEntry) : bucket :=
  bucket_of (JS.toLowerCase (JS.or_else_str (FinanceEntry.category e) "")).

(** The entries listed under "Burn Feed". *)
Definition feed (currentMonth : string) (data : UserData) : list FinanceEntry :=
  filter (fun e =>
            JS.slice0 7 (JS.or_else_str (FinanceEntry.date e) "") = currentMonth
            /\ (FinanceEntry.type e = EXPENSE \/ FinanceEntry.type e = BILL))
         (UserData.entries data).

End BudgetView.

(* ================================================================= *)
(** ** services/geminiService.ts: property valuation *)
(* ================================================================= *)

Module PropertyValuation.

(** A grounding chunk of the response, as far as it is read. *)
Record web := mkWeb { title : option string; uri : string }.
Record chunk := mkChunk { chunk_web : option web }.

(** The answer to the valuation request: [response.text] and
    [response.candidates?.[0]?.groundingMetadata?.groundingChunks]. *)
Inductive response :=
| RequestRejected
| Answer (text : option string) (groundingChunks : option (list chunk)).

Definition is_digit (c : ascii) : bool :=
  let n := nat_of_ascii c in (48 <=? n)%nat && (n <=? 57)%nat.

Definition is_comma (c : ascii) : bool := (nat_of_ascii c =? 44)%nat.

(** [\d{1,n}] at the head of [s], greedy: what it takes, and the rest. *)
Fixpoint upto_digits (n : nat) (s : string) : string * string :=
  match n, s with
  | S n', String c r =>
      if is_digit c then let '(d, rest) := upto_digits n' r in (String c d, rest)
      else (EmptyString, s)
  | _, _ => (EmptyString, s)
  end.

(** [\d*] at the head of [s], greedy. *)
Fixpoint digit_run (s : string) : string * string :=
  match s with
  | String c r =>
      if is_digit c then let '(d, rest) := digit_run r in (String c d, rest)
      else (EmptyString, s)
  | EmptyString => (EmptyString, s)
  end.

(** [(,\d{3})*] at the head of [s], greedy. *)
Fixpoint thousands (s : string) : string * string :=
  match s with
  | String c0 (String c1 (String c2 (String c3 r))) =>
      if is_comma c0 && is_digit c1 && is_digit c2 && is_digit c3
      then let '(g, rest) := thousands r in
           (String c0 (String c1 (String c2 (String c3 g))), rest)
      else (EmptyString, s)
  | _ => (EmptyString, s)
  end.

(** [(\.\d+)?] at the head of [s], greedy. *)
Definition fraction (s : string) : string * string :=
  match s with
  | String "." r =>
      match digit_run r with
      | (EmptyString, _) => (EmptyString, s)
      | (d, rest) => (String "." d, rest)
      end
  | _ => (EmptyString, s)
  end.

(** The first capture group of
    [reasoning.match(/\$?(\d{1,3}(,\d{3})*(\.\d+)?)/)]: the match starts at
    the first digit of the text (after a dollar sign or not); everything
    after the first digit is optional, so each greedy choice stands.
    [None] when there is no match. *)
Fixpoint priceMatch (reasoning : string) : option string :=
  match reasoning with
  | EmptyString => None
  | String c r =>
      if is_digit c then
        let '(head, s1) := upto_digits 3 reasoning in
        let '(groups, s2) := thousands s1 in
        let '(frac, _) := fraction s2 in
        Some (head +:+ groups +:+ frac)
      else priceMatch r
  end.

Definition sources_of (groundingChunks : option (list chunk)) : list GroundingSource :=
  omap (fun ch =>
          match chunk_web ch with
          | Some w => Some (GroundingSource.mk
                              (default "Source" (JS.truthy_opt (title w))) (uri w))
          | None => None
          end)
       (default [] groundingChunks).

(** What [estimatePropertyValuation] makes of the answer. *)
Definition read (text : option string) (groundingChunks : option (list chunk))
    : ValuationResult :=
  let reasoning := default "" (JS.truthy_opt text) in
  let estimatedValue :=
    match priceMatch reasoning with
    | Some group => JS.parseFloat (JS.remove_chars is_comma group)
    | None => 0%float
    end in
  ValuationResult.mk estimatedValue "USD" reasoning (sources_of groundingChunks).

(** [estimatePropertyValuation]; its three arguments only go into the
    prompt, [answer] is what the service makes of it. *)
Definition estimatePropertyValuation (answer : response)
    (address : string) (plotSize propertyType : option string) : IO ValuationResult :=
  match answer with
  | RequestRejected => throw "generateContent failed"
  | Answer text groundingChunks => mret (read text groundingChunks)
  end.

End PropertyValuation.

(* ================================================================= *)
(** ** components/ArchiveLedger.tsx *)
(* ================================================================= *)

Module ArchiveLedger.

(** The predicate of [data.entries.filter(...)] in [groupedEntries]. *)
Definition matches (search : string) (e : FinanceEntry) : bool :=
  let q := JS.toLowerCase search in
  JS.includes q (JS.toLowerCase (FinanceEntry.name e))
  || JS.includes q (JS.toLowerCase (FinanceEntry.category e))
  || match JS.truthy_opt (FinanceEntry.address e) with
     | Some a => JS.includes q (JS.toLowerCase a)
     | None => false
     end.

Definition filtered (search : string) (data : UserData) : list FinanceEntry :=
  filter (fun e => matches search e = true) (UserData.entries data).

Definition month_of (entry : FinanceEntry) : string :=
  JS.slice0 7 (JS.or_else_str (FinanceEntry.date entry) "Unknown").

(** One turn of [filtered.forEach]: [groups] is a plain object, so the one
    seven-letter name it inherits, [valueOf], reads as a function and
    [push] on it is a [TypeError] ([None]). *)
Definition push (groups : option (gmap string (list FinanceEntry))) (entry : FinanceEntry)
    : option (gmap string (list FinanceEntry)) :=
  g ← groups;
  let month := month_of entry in
  if bool_decide (month = "valueOf") then None
  else Some (<[month := default [] (g !! month) ++ [entry]]> g).

(** The object [groups] at the end of the loop.  The array returned,
    its entries sorted by [localeCompare], is not embedded. *)
Definition groups (search : string) (data : UserData)
    : option (gmap string (list FinanceEntry)) :=
  fold_left push (filtered search data) (Some ∅).

(** The entry [handleRevaluate] hands to [onUpdateEntry]; [today] is
    [new Date().toLocaleDateString()]. *)
Definition revalued (entry : FinanceEntry) (result : ValuationResult)
    (now today : string) : FinanceEntry :=
  let LF := String (ascii_of_nat 10) EmptyString in
  FinanceEntry.mk (FinanceEntry.id entry) (FinanceEntry.type entry)
    (FinanceEntry.category entry) (FinanceEntry.name entry)
    (JS.or_else (ValuationResult.estimatedValue result) (FinanceEntry.amount entry))
    (FinanceEntry.currency entry) (FinanceEntry.initialAmount entry)
    (FinanceEntry.date entry) (FinanceEntry.address entry) (FinanceEntry.plotSize entry)
    (FinanceEntry.propertyType entry)
    (Some (ValuationResult.sources result))
    (Some now)
    (FinanceEntry.referenceNumber entry) (FinanceEntry.linkedAssetId entry)
    (FinanceEntry.statementDriveId entry) (FinanceEntry.isRecurring entry)
    (FinanceEntry.isWorkProvided entry) (FinanceEntry.liquidity entry)
    (Some ((match JS.truthy_opt (FinanceEntry.notes entry) with
            | Some notes => notes +:+ LF +:+ LF
            | None => ""
            end)
           +:+ "AI Audit (" +:+ today +:+ "): " +:+ ValuationResult.reasoning result))
    (FinanceEntry.coverageAmount entry) (FinanceEntry.expiryDate entry)
    (FinanceEntry.emi entry) (FinanceEntry.monthsRemaining entry).

Inductive alert := ConnectKey | Unreachable.

(** [handleRevaluate]; [onUpdateEntry] is [App.updateEntry], [hasKey] what
    [window.aistudio.hasSelectedApiKey()] answers.  The result is the alert
    shown, if any; the component's own [valuatingId] is not embedded. *)
Definition handleRevaluate (hasKey : bool) (answer : PropertyValuation.response)
    (today : string) (entry : FinanceEntry) : Act (option alert) :=
  match JS.truthy_opt (FinanceEntry.address entry) with
  | None => mret None
  | Some address =>
      if negb hasKey then mret (Some ConnectKey)
      else
        try_catch
          (result ← lift (PropertyValuation.estimatePropertyValuation answer address
                            (FinanceEntry.plotSize entry) (FinanceEntry.propertyType entry));
           now ← gets (fun s => now (world (env s)));
           _ ← App.updateEntry (revalued entry result now today);
           mret None)
          (fun _ => mret (Some Unreachable))
  end.

End ArchiveLedger.

(* ================================================================= *)
(** ** components/CsvImporter.tsx: reading the text *)
(* ================================================================= *)

Module CsvText.

Definition is_LF (c : ascii) : bool := (nat_of_ascii c =? 10)%nat.
Definition is_CR (c : ascii) : bool := (nat_of_ascii c =? 13)%nat.

(** [text.split(/\r?\n/)]. *)
Fixpoint lines (text : string) : list string :=
  match text with
  | EmptyString => [EmptyString]
  | String c r =>
      if is_LF c then EmptyString :: lines r
      else
        match r with
        | String c' r' =>
            if is_CR c && is_LF c' then EmptyString :: lines r'
            else match lines r with
                 | l :: ls => String c l :: ls
                 | [] => [String c EmptyString]
                 end
        | EmptyString => [String c EmptyString]
        end
  end.

(** [line.split(',')]. *)
Fixpoint cells (line : string) : list string :=
  match line with
  | EmptyString => [EmptyString]
  | String c r =>
      if PropertyValuation.is_comma c then EmptyString :: cells r
      else match cells r with
           | l :: ls => String c l :: ls
           | [] => [String c EmptyString]
           end
  end.

(** [lines[0].split(',').map(h => h.trim().toLowerCase())]. *)
Definition headers (text : string) : list string :=
  (fun h => JS.toLowerCase (JS.trim h)) <$> cells (default "" (head (lines text))).

(** One turn of [headers.forEach((header, i) => obj[header] =
    values[i]?.trim())].  A row is modelled by what its own properties read
    as: one set to [undefined] reads like one that is absent, and the
    assignment to [__proto__] of anything but an object sets nothing. *)
Definition set_cell (values : list string) (obj : gmap string string)
    (hi : nat * string) : gmap string string :=
  let '(i, header) := hi in
  if bool_decide (header = "__proto__") then obj
  else match values !! i with
       | Some v => <[header := JS.trim v]> obj
       | None => delete header obj
       end.

Definition row (hs : list string) (line : string) : gmap string string :=
  fold_left (set_cell (cells line)) (imap (fun i h => (i, h)) hs) ∅.

(** [parseCSV]. *)
Definition parseCSV (text : string) : list (gmap string string) :=
  row (headers text)
    <$> filter (fun line => JS.truthy_str (JS.trim line) = true) (tail (lines text)).

End CsvText.

(** ** Shapes of inputs the statements speak of *)

Module Shape.

(** The files a query by [name] alone selects. *)
Definition named (name : string) (files : list DriveFile) : list DriveFile :=
  filter (fun g => GoogleDriveService.matches name None g = true) files.

(** The remote drive has a file under [id], and whatever it has under
    [id] is the sheet and holds the rows of [entries]. *)
Definition mirrors (id : string) (entries : list FinanceEntry) (files : list DriveFile)
    : Prop :=
  (exists f, f ∈ files /\ DriveFile.id f = id)
  /\ forall f, f ∈ files -> DriveFile.id f = id ->
       DriveFile.name f = GoogleDriveService.SHEET_NAME
       /\ DriveFile.content f = Csv entries.

(** A text without a decimal digit. *)
Definition no_digit (s : string) : bool :=
  JS.all_chars (fun c => negb (PropertyValuation.is_digit c)) s.

(** A text without a carriage return. *)
Definition no_CR (s : string) : bool := JS.all_chars (fun c => negb (CsvText.is_CR c)) s.

(** The same text with Windows line endings: a carriage return before
    every line feed. *)
Fixpoint crlf (text : string) : string :=
  match text with
  | EmptyString => EmptyString
  | String c r =>
      if CsvText.is_LF c then String (ascii_of_nat 13) (String c (crlf r))
      else String c (crlf r)
  end.

(** [d'] is [d] but for the spreadsheet identifier, which the mirror may
    have assigned, and the rate table, which a refresh may have replaced. *)
Definition bookkeeping_apart (d d' : UserData) : Prop :=
  UserData.entries d' = UserData.entries d
  /\ UserData.goals d' = UserData.goals d
  /\ UserData.lastSynced d' = UserData.lastSynced d
  /\ UserData.legacy d' = UserData.legacy d
  /\ App.with_spreadsheetId (Settings.spreadsheetId (UserData.settings d))
       (UserData.settings d')
     = UserData.settings d.

(** The modes in which [archiveStatement] guards itself: the granted
    directory, and the remote drive. *)
Definition guarded (e : Env) : Prop :=
  (mode (svc e) = local_fs /\ directoryHandle (svc e) = true) \/ mode (svc e) = drive.

(** What an extracted transaction is recorded as. *)
Definition recorded (res : PartialEntry) (entry : FinanceEntry) : Prop :=
  FinanceEntry.name entry
  = default "Unnamed Transaction" (JS.truthy_opt (PartialEntry.name res))
  /\ FinanceEntry.amount entry = JS.or_else (default 0%float (PartialEntry.amount res)) 0
  /\ FinanceEntry.type entry = default EXPENSE (PartialEntry.type res).

End Shape.

(** ** More sample data *)

Module Sample.

Definition LF : string := String (ascii_of_nat 10) EmptyString.

(** A bank export: a header line and two transactions. *)
Definition csv : string :=
  "Date, Name ,Amount" +:+ LF +:+ "2025-06-01,Tesco,-12.50" +:+ LF
  +:+ "2025-06-02,Salary,2100" +:+ LF.

(** A house, with its address. *)
Definition house : FinanceEntry :=
  FinanceEntry.mk "h1" ASSET "House" "Family home" 250000%float (Some "USD") None
    "2024-01-15" (Some "1 High Street, Leeds") None (Some "Home")
    None None None None None None None (Some low) None None None None None.

Definition with_house : UserData :=
  App.with_entries (house :: UserData.entries Example.mixed) Example.mixed.

(** An answer to the rate request: one rate, for sterling. *)
Definition sterling : ai_response :=
  Responded (Some (Document (VObj [("rates",
    VArr [VObj [("code", VStr "GBP"); ("rate", VNum 0.79%float)]])]))).

End Sample.

(* ================================================================= *)
(** * Properties *)
(* ================================================================= *)

(** ** Running the monad *)

Section Running.

Context {S : Type}.

Lemma run_bind {A B} (m : ST S A) (f : A -> ST S B) s :
  (m ≫= f) s = match m s with
               | (Ok a, s') => f a s'
               | (Throw e, s') => (Throw e, s')
               | (IllTyped, s') => (IllTyped, s')
               end.
Proof. reflexivity. Qed.

Lemma run_ret {A} (a : A) (s : S) : (mret a : ST S A) s = (Ok a, s).
Proof. reflexivity. Qed.

Lemma run_gets {A} (f : S -> A) s : gets f s = (Ok (f s), s).
Proof. reflexivity. Qed.

Lemma run_modify (f : S -> S) s : modify f s = (Ok tt, f s).
Proof. reflexivity. Qed.

Lemma run_throw {A} msg (s : S) : @throw S A msg s = (Throw msg, s).
Proof. reflexivity. Qed.

End Running.

Lemma run_modify_world f e : modify_world f e = (Ok tt, mkEnv (f (world e)) (svc e)).
Proof. reflexivity. Qed.

Lemma run_modify_svc f e : modify_svc f e = (Ok tt, mkEnv (world e) (f (svc e))).
Proof. reflexivity. Qed.

Lemma run_io what e : faults (world e) = [] -> io what e = (Ok tt, e).
Proof. intros H. unfold io. rewrite run_bind, run_gets, H. reflexivity. Qed.

Lemma run_attempt what e : faults (world e) = [] -> attempt what e = (Ok true, e).
Proof. intros H. unfold attempt, try_catch. rewrite run_bind, run_io by exact H. reflexivity. Qed.

(** The constant names are pasted into a query as they are. *)
Ltac quote_constant :=
  match goal with
  | |- context [GoogleDriveService.well_quoted ?n ?p] =>
      let b := eval vm_compute in (GoogleDriveService.well_quoted n p) in
      match b with
      | true => change (GoogleDriveService.well_quoted n p) with true
      end
  end.

Ltac run_step :=
  first
    [ progress cbn [world svc faults mode directoryHandle db idb fs cloud app env
                    now ticks random randomUUID random36 rate_service extract_service
                    user isAuthenticated isLoading isVaultLocked activeTab syncStatus
                    authError
                    tokenClient accessToken isConfigured gapi_loaded picker_grants consent
                    set_fs set_idb set_cloud set_db set_faults set_ticks
                    set_mode set_tokenClient set_accessToken set_directoryHandle
                    andb negb orb
                    fst snd app default from_option id JS.truthy_opt JS.truthy_str
                    DriveFile.id DriveFile.content DriveFile.name DriveFile.trashed]
    | rewrite run_bind
    | rewrite run_ret
    | rewrite run_gets
    | rewrite run_modify_world
    | rewrite run_modify_svc
    | rewrite run_modify
    | rewrite run_throw
    | rewrite run_io by reflexivity
    | rewrite run_attempt by reflexivity
    | quote_constant
    | rewrite bool_decide_eq_true_2 by reflexivity
    | rewrite bool_decide_eq_false_2 by discriminate
    | rewrite app_nil_l ].

Ltac run := repeat run_step.

(** ** Currency normalisation and net worth *)

Lemma truthy_str_empty c : JS.truthy_str c = false -> c = "".
Proof. destruct c; [reflexivity | discriminate]. Qed.


(** A number divided by something that is not a number. *)
Lemma div_nan (x : JS.number) : (x / nan)%float = nan.
Proof.
  apply Prim2SF_inj. rewrite div_spec.
  change (Prim2SF nan) with S754_nan.
  destruct (Prim2SF x) as [sx|sx| |sx mx ex]; reflexivity.
Qed.


Lemma get_missing {A} (table : gmap string A) (c : string) :
  table !! c = None ->
  JS.get table c = if bool_decide (c ∈ JS.inherited) then JS.prototype else JS.undefined.
Proof. intros H. unfold JS.get. rewrite H. reflexivity. Qed.

(** Reads and writes on the empty object, and on a table with an own
    property under an inherited name. *)
Example plain_object_reads :
  let empty : gmap string JS.number := ∅ in
  Forall (fun key => JS.get empty key = JS.prototype)
    [ "constructor"; "hasOwnProperty"; "isPrototypeOf"; "propertyIsEnumerable";
      "toLocaleString"; "toString"; "valueOf"; "__defineGetter__"; "__defineSetter__";
      "__lookupGetter__"; "__lookupSetter__"; "__proto__" ]
  /\ JS.get empty "JPY" = JS.undefined
  /\ JS.get (JS.set "constructor" 2%float empty) "constructor" = JS.own 2%float
  /\ JS.set "__proto__" 2%float empty = empty
  /\ JS.get (JS.set "__proto__" 2%float {[ "__proto__" := 1%float ]}) "__proto__"
     = JS.own 2%float.
Proof. vm_compute. repeat split; repeat constructor. Qed.

Section NetWorth.

Variable data : UserData.
Variable currentMonth : string.

Let base := Settings.currency (UserData.settings data).
Let rates := Spec.table data.



End NetWorth.




(** The sample's net worth: 100 / 1.27 + 5000 - 1200. *)
Example net_worth_of_sample :
  Dashboard.netWorth (Dashboard.stats "2025-06" Example.mixed)
  = (0 + 100 / 1.27 + 5000 - (0 + 1200))%float.
Proof. vm_compute. reflexivity. Qed.

(** For a code that is missing from the cached table and is not a name
    plain objects inherit, both conversions return the amount they are
    given. *)
Lemma missing_rate_keeps_raw_amount (data : UserData) (e : FinanceEntry)
    (amount : JS.number) :
  Spec.rate_missing (UserData.exchangeRates data) e ->
  (forall c, FinanceEntry.currency e = Some c -> c ∉ JS.inherited) ->
  Dashboard.getConvertedAmount data amount (FinanceEntry.currency e) = amount
  /\ MatrixView.getConverted e (Settings.currency (UserData.settings data))
       (UserData.exchangeRates data) amount = amount.
Proof.
  intros Hmiss Hplain. unfold Spec.rate_missing in Hmiss.
  unfold Dashboard.getConvertedAmount, MatrixView.getConverted.
  destruct (FinanceEntry.currency e) as [c|]; [|split; reflexivity].
  specialize (Hmiss c eq_refl). specialize (Hplain c eq_refl).
  destruct (negb _ || _); [split; reflexivity|].
  destruct (UserData.exchangeRates data) as [m|]; cbn [default from_option id mbind option_bind] in *.
  - rewrite (get_missing _ _ Hmiss), bool_decide_eq_false_2 by exact Hplain.
    split; reflexivity.
  - rewrite (get_missing _ _ (lookup_empty c)), bool_decide_eq_false_2 by exact Hplain.
    split; reflexivity.
Qed.

(** C4, at the failing inputs: a currency code that is missing from the
    cached table but is a name every plain object inherits ([constructor],
    [toString], ...).  [rates[code]] then reads a function, which is
    truthy, and the conversion divides by it: the dashboard returns [NaN]
    for every amount, and so does the matrix when a table is cached, where
    the claim has the raw amount.  (With no table cached the matrix reads
    [undefined] and returns the amount.) *)
Theorem inherited_name_is_read_as_a_rate (data : UserData) (e : FinanceEntry)
    (c : string) (amount : JS.number) :
  FinanceEntry.currency e = Some c ->
  c ∈ JS.inherited ->
  c <> Settings.currency (UserData.settings data) ->
  Spec.rate_missing (UserData.exchangeRates data) e ->
  Dashboard.getConvertedAmount data amount (FinanceEntry.currency e) = nan
  /\ MatrixView.getConverted e (Settings.currency (UserData.settings data))
       (UserData.exchangeRates data) amount
     = match UserData.exchangeRates data with Some _ => nan | None => amount end
  /\ (PrimFloat.is_nan amount = false ->
      Dashboard.getConvertedAmount data amount (FinanceEntry.currency e) <> amount).
Proof.
  intros Hc Hin Hbase Hmiss. specialize (Hmiss c Hc).
  assert (Ht : JS.truthy_str c = true).
  { destruct c; [|reflexivity]. exfalso. revert Hin. vm_compute.
    intros H. repeat (apply elem_of_cons in H as [H|H]; [discriminate H|]).
    by apply elem_of_nil in H. }
  assert (H1 : Dashboard.getConvertedAmount data amount (FinanceEntry.currency e) = nan).
  { unfold Dashboard.getConvertedAmount. rewrite Hc, Ht.
    rewrite bool_decide_eq_false_2 by exact Hbase. cbn [negb orb].
    destruct (UserData.exchangeRates data) as [m|]; cbn [default from_option id mbind option_bind] in *.
    - rewrite (get_missing _ _ Hmiss), bool_decide_eq_true_2 by exact Hin. apply div_nan.
    - rewrite (get_missing _ _ (lookup_empty c)), bool_decide_eq_true_2 by exact Hin.
      apply div_nan. }
  split; [exact H1 | split].
  - unfold MatrixView.getConverted. rewrite Hc, Ht.
    rewrite bool_decide_eq_false_2 by exact Hbase. cbn [negb orb].
    destruct (UserData.exchangeRates data) as [m|]; cbn [mbind option_bind] in *;
      [|reflexivity].
    rewrite (get_missing _ _ Hmiss), bool_decide_eq_true_2 by exact Hin. apply div_nan.
  - intros Hnum. rewrite H1. intros Heq. rewrite <- Heq in Hnum. discriminate Hnum.
Qed.

Lemma inherited_name_is_read_as_a_rate_witness :
  FinanceEntry.currency Example.odd_currency = Some "constructor"
  /\ Spec.rate_missing (UserData.exchangeRates Example.mixed) Example.odd_currency
  /\ Dashboard.getConvertedAmount Example.mixed 5%float (Some "constructor") = nan.
Proof.
  assert (H : Spec.rate_missing (UserData.exchangeRates Example.mixed) Example.odd_currency).
  { intros c Hc. inversion Hc; subst. vm_compute. reflexivity. }
  split; [reflexivity | split; [exact H|]].
  refine (proj1 (inherited_name_is_read_as_a_rate Example.mixed Example.odd_currency
                   "constructor" 5%float eq_refl _ _ H)).
  - unfold JS.inherited. apply list_elem_of_here.
  - discriminate.
Defined.

(** The same on the sample: the yen, which the table does not list, stay
    as they are; the souvenir does not. *)
Example missing_rate_on_sample :
  Dashboard.getConvertedAmount Example.mixed 900%float (Some "JPY") = 900%float
  /\ Dashboard.getConvertedAmount Example.mixed 5%float (Some "constructor") = nan.
Proof. vm_compute. split; reflexivity. Qed.


Section RoundTripFacts.

Import RoundTrip.

Lemma clean_arr items : clean (VArr items) <-> Forall clean items.
Proof.
  induction items as [|x r IH]; simpl.
  - split; [intros _; constructor | trivial].
  - rewrite Forall_cons. simpl in IH. rewrite IH. reflexivity.
Qed.

Lemma clean_obj props : clean (VObj props) <-> Forall (fun kv => clean kv.2) props.
Proof.
  induction props as [|[k x] r IH]; simpl.
  - split; [intros _; constructor | trivial].
  - rewrite Forall_cons. simpl in IH. rewrite IH. reflexivity.
Qed.

(** Structural induction on values, through arrays and objects. *)
Lemma jsval_rect' (P : jsval -> Prop) :
  P VUndef -> P VNull -> (forall b, P (VBool b)) -> (forall x, P (VNum x)) ->
  (forall s, P (VStr s)) ->
  (forall items, Forall P items -> P (VArr items)) ->
  (forall props, Forall (fun kv => P kv.2) props -> P (VObj props)) ->
  forall v, P v.
Proof.
  intros Hu Hn Hb Hx Hs Ha Ho.
  fix IH 1.
  intros [| |b|x|s|items|props];
    [exact Hu | exact Hn | apply Hb | apply Hx | apply Hs | |].
  - apply Ha. induction items as [|y r IHr]; constructor; [apply IH | exact IHr].
  - apply Ho. induction props as [|[k y] r IHr]; constructor; [apply IH | exact IHr].
Qed.

(** What [JSON.stringify] writes for a clean value reads back as the value. *)
Lemma serialise_clean v : clean v -> JSON.serialise v = v.
Proof.
  induction v as [| |b|x|s|items IH|props IH] using jsval_rect'; intros Hc;
    try reflexivity; try contradiction.
  - exact Hc.
  - apply clean_arr in Hc. simpl. f_equal.
    induction items as [|y r IHr]; [reflexivity|].
    inversion IH; subst. inversion Hc; subst. simpl. f_equal; auto.
  - apply clean_obj in Hc. simpl. f_equal.
    induction props as [|[k y] r IHr]; [reflexivity|].
    inversion IH; subst. inversion Hc; subst. simpl in *.
    rewrite IHr by assumption.
    destruct y; try contradiction; f_equal; f_equal; auto.
Qed.

Lemma clean_opt {A} k (f : A -> jsval) o :
  (forall a, o = Some a -> clean (f a)) ->
  Forall (fun kv : string * jsval => clean kv.2) (Encode.opt k f o).
Proof. destruct o; simpl; intros H; repeat constructor. simpl. auto. Qed.

Lemma clean_opt_number k o :
  Forall json_number (opt_number o) ->
  Forall (fun kv : string * jsval => clean kv.2) (Encode.opt k VNum o).
Proof.
  intros H. apply clean_opt. intros a ->. simpl in *. by inversion H.
Qed.

Lemma clean_opt_plain {A} k (f : A -> jsval) o :
  (forall a, clean (f a)) ->
  Forall (fun kv : string * jsval => clean kv.2) (Encode.opt k f o).
Proof. intros H. apply clean_opt. auto. Qed.

Lemma clean_source s : clean (Encode.source s).
Proof. simpl. tauto. Qed.

Lemma clean_entry e : Forall json_number (entry_numbers e) -> clean (Encode.entry e).
Proof.
  unfold entry_numbers. rewrite Forall_cons, !Forall_app.
  intros (Ha & Hi & Hc & He & Hm).
  unfold Encode.entry. apply clean_obj.
  repeat first
    [ apply Forall_app; split
    | apply Forall_cons; split
    | apply Forall_nil ];
    simpl;
    try exact I; try exact Ha;
    try (apply clean_opt_number; assumption);
    try (apply clean_opt_plain; intros; exact I).
  apply clean_opt_plain. intros l. apply clean_arr.
  apply Forall_fmap, Forall_forall. intros s _. apply clean_source.
Qed.

Lemma clean_goal g : Forall json_number (goal_numbers g) -> clean (Encode.goal g).
Proof.
  unfold goal_numbers. rewrite !Forall_cons. intros (Ht & Hc & _).
  unfold Encode.goal. apply clean_obj.
  repeat first
    [ apply Forall_app; split
    | apply Forall_cons; split
    | apply Forall_nil ];
    simpl; try exact I; try assumption;
    try (apply clean_opt_plain; intros; exact I).
Qed.

Lemma clean_settings s :
  Forall json_number (opt_number (Settings.monthlyBudgetLimit s)) ->
  clean (Encode.settings s).
Proof.
  intros H. unfold Encode.settings. apply clean_obj.
  repeat first
    [ apply Forall_app; split
    | apply Forall_cons; split
    | apply Forall_nil ];
    simpl; try exact I;
    try (apply clean_opt_number; assumption);
    try (apply clean_opt_plain; intros; exact I).
Qed.

Lemma clean_rates m : Forall json_number (snd <$> map_to_list m) -> clean (Encode.rates m).
Proof.
  intros H. unfold Encode.rates. apply clean_obj.
  rewrite Forall_fmap in H. rewrite Forall_map.
  eapply Forall_impl; [exact H|]. intros [k x]; simpl; auto.
Qed.

(** A snapshot JSON can hold is a clean value. *)
Lemma clean_userData d : json_safe d -> clean (Encode.userData d).
Proof.
  unfold json_safe, numbers. rewrite !Forall_app.
  intros (He & Hg & Hr & Hs).
  unfold Encode.userData. apply clean_obj.
  repeat first
    [ apply Forall_app; split
    | apply Forall_cons; split
    | apply Forall_nil ];
    simpl; try exact I.
  - apply clean_arr, Forall_fmap, Forall_forall. intros e Hin. apply clean_entry.
    rewrite Forall_bind in He. rewrite Forall_forall in He. apply He, Hin.
  - apply clean_arr, Forall_fmap, Forall_forall. intros g Hin. apply clean_goal.
    rewrite Forall_bind in Hg. rewrite Forall_forall in Hg. apply Hg, Hin.
  - apply clean_opt. intros m Hm. rewrite Hm in Hr. apply clean_rates, Hr.
  - apply clean_opt_plain. intros l. simpl. tauto.
  - apply clean_settings, Hs.
Qed.

End RoundTripFacts.

(** ** Persistence round trip *)

Import RoundTrip.

Lemma document_safe d :
  json_safe d ->
  JSON.parse (GoogleDriveService.text_of (GoogleDriveService.document d))
  = Some (Encode.userData d).
Proof.
  intros H. unfold GoogleDriveService.document.
  change (JSON.stringify (Encode.userData d))
    with (Some (Document (JSON.serialise (Encode.userData d)))).
  cbn [GoogleDriveService.text_of JSON.parse].
  rewrite serialise_clean by (apply clean_userData, H). reflexivity.
Qed.

Section Remote.

Import GoogleDriveService.

Variable name mime : string.
Variable content : body.
Variable target : string.

Let upd (f : DriveFile) : DriveFile :=
  if bool_decide (DriveFile.id f = target)
  then DriveFile.mk target name mime (DriveFile.parents f) (DriveFile.trashed f) content
  else f.

Lemma first_match_after_patch files f rest :
  filter (fun g => matches name None g = true) files = f :: rest ->
  DriveFile.id f = target ->
  exists f' rest',
    filter (fun g => matches name None g = true) (upd <$> files) = f' :: rest'
    /\ DriveFile.id f' = target.
Proof.
  intros Hfilter Hid.
  induction files as [|g files IH]; [discriminate|].
  rewrite filter_cons in Hfilter. rewrite fmap_cons, filter_cons.
  destruct (decide (matches name None g = true)) as [Hg|Hg].
  - inversion Hfilter; subst g rest. clear Hfilter.
    assert (Hu : matches name None (upd f) = true).
    { unfold upd. rewrite bool_decide_eq_true_2 by exact Hid.
      unfold matches in *. simpl.
      rewrite bool_decide_eq_true_2 by reflexivity.
      destruct (DriveFile.trashed f); [|reflexivity].
      rewrite andb_false_r in Hg. discriminate. }
    rewrite decide_True by exact Hu.
    eexists _, _. split; [reflexivity|].
    unfold upd. rewrite bool_decide_eq_true_2 by exact Hid. reflexivity.
  - destruct (decide (matches name None (upd g) = true)) as [Hu|Hu].
    + eexists _, _. split; [reflexivity|].
      unfold upd in *. case_bool_decide as Hgi; [reflexivity|]. contradiction.
    + apply IH, Hfilter.
Qed.

Lemma first_by_id_after_patch files :
  target ∈ DriveFile.id <$> files ->
  exists f' rest',
    filter (fun g => DriveFile.id g = target) (upd <$> files) = f' :: rest'
    /\ DriveFile.content f' = content.
Proof.
  induction files as [|g files IH]; intros Hin.
  - by apply elem_of_nil in Hin.
  - rewrite fmap_cons, filter_cons.
    destruct (decide (DriveFile.id g = target)) as [Hg|Hg].
    + rewrite decide_True.
      * eexists _, _. split; [reflexivity|].
        unfold upd. rewrite bool_decide_eq_true_2 by exact Hg. reflexivity.
      * unfold upd. rewrite bool_decide_eq_true_2 by exact Hg. reflexivity.
    + rewrite decide_False.
      * apply IH. rewrite fmap_cons in Hin.
        apply elem_of_cons in Hin as [Hin|Hin]; [congruence | exact Hin].
      * unfold upd. rewrite bool_decide_eq_false_2 by exact Hg. exact Hg.
Qed.

End Remote.

Lemma filter_fresh_id (files : list DriveFile) :
  filter (fun g => DriveFile.id g = fresh (DriveFile.id <$> files)) files = [].
Proof.
  assert (H := infinite_is_fresh (DriveFile.id <$> files)).
  revert H. generalize (fresh (DriveFile.id <$> files)). intros x Hx.
  induction files as [|g files IH]; [reflexivity|].
  rewrite filter_cons. rewrite fmap_cons in Hx.
  apply not_elem_of_cons in Hx as [Hne Hx].
  rewrite decide_False by congruence. apply IH, Hx.
Qed.

Lemma first_match_after_create name (files : list DriveFile) new :
  filter (fun g => GoogleDriveService.matches name None g = true) files = [] ->
  GoogleDriveService.matches name None new = true ->
  filter (fun g => GoogleDriveService.matches name None g = true) (files ++ [new]) = [new].
Proof.
  intros H Hnew. rewrite filter_app, H. simpl.
  rewrite filter_cons, decide_True by exact Hnew. reflexivity.
Qed.

Lemma matched_in_files name (files : list DriveFile) f rest :
  filter (fun g => GoogleDriveService.matches name None g = true) files = f :: rest ->
  DriveFile.id f ∈ DriveFile.id <$> files.
Proof.
  intros H. apply list_elem_of_fmap. exists f. split; [reflexivity|].
  assert (Hin : f ∈ filter (fun g => GoogleDriveService.matches name None g = true) files)
    by (rewrite H; apply list_elem_of_here).
  apply list_elem_of_filter in Hin. tauto.
Qed.



(** The same snapshot comes back from the remote drive and from the
    embedded database. *)
Example roundtrip_on_drive :
  fst (save_then_load Example.mixed (Example.env drive))
  = Ok (Encode.userData Example.mixed).
Proof. vm_compute. reflexivity. Qed.

Example roundtrip_on_idb :
  fst (save_then_load Example.not_a_number (Example.env local_db))
  = Ok (Encode.userData Example.not_a_number).
Proof. vm_compute. reflexivity. Qed.


Example roundtrip_loses_nan_on_drive :
  fst (save_then_load Example.not_a_number (Example.env drive))
  <> Ok (Encode.userData Example.not_a_number).
Proof. vm_compute. intros H. discriminate H. Qed.

(** What is read back in place of the amount. *)
Example nan_read_back_as_null :
  exists ps rest e',
    save_then_load Example.not_a_number (Example.env local_fs)
    = (Ok (VObj (("entries", VArr [VObj ps]) :: rest)), e')
    /\ Decode.get "amount" ps = Some VNull.
Proof. vm_compute. eexists _, _, _. split; reflexivity. Qed.

(** ** Exchange-rate refresh *)

Lemma elem_of_dedupe_from x seen xs :
  x ∈ JS.dedupe_from seen xs <-> x ∈ xs /\ x ∉ seen.
Proof.
  revert seen. induction xs as [|y xs IH]; intros seen; simpl.
  - split; [intros H; by apply elem_of_nil in H | intros [H _]; by apply elem_of_nil in H].
  - case_bool_decide as Hy.
    + rewrite IH, elem_of_cons. split; [tauto|].
      intros [[-> | H] Hs]; [contradiction | tauto].
    + rewrite !elem_of_cons, IH, not_elem_of_cons. split.
      * intros [-> | (H & Hne & Hs)]; tauto.
      * intros [[-> | H] Hs]; [tauto|].
        destruct (decide (x = y)) as [->|Hne]; tauto.
Qed.

Lemma elem_of_dedupe x xs : x ∈ JS.dedupe xs <-> x ∈ xs.
Proof.
  unfold JS.dedupe. rewrite elem_of_dedupe_from. split; [tauto|].
  intros H. split; [exact H|]. apply not_elem_of_nil.
Qed.

(** A foreign code in use is among the codes a refresh asks about. *)
Lemma foreign_is_requested d :
  Spec.foreign_in_use d ->
  exists c, c ∈ App.currenciesUsed d
    /\ c ∈ filter (fun c => c ≠ Settings.currency (UserData.settings d))
             (JS.dedupe (App.currenciesUsed d)).
Proof.
  intros (e & c & He & Hc & Hne & Hb). exists c.
  assert (Hin : c ∈ App.currenciesUsed d).
  { unfold App.currenciesUsed. apply elem_of_dedupe, list_elem_of_omap.
    exists e. split; [exact He|]. rewrite Hc. simpl.
    destruct c; [congruence | reflexivity]. }
  split; [exact Hin|].
  apply list_elem_of_filter. split; [exact Hb|]. apply elem_of_dedupe, Hin.
Qed.

Lemma run_lift {A} (m : IO A) s :
  lift m s = (fst (m (env s)), mkState (app s) (snd (m (env s)))).
Proof. unfold lift. destruct (m (env s)). reflexivity. Qed.

(** A rejected request leaves [fetchExchangeRates] with nothing but the
    exception. *)
Lemma fetch_rejected base used e :
  rate_service (world e) = Rejected ->
  (exists c, c ∈ used /\ c ∈ filter (fun c => c ≠ base) (JS.dedupe used)) ->
  GeminiService.fetchExchangeRates base used e = (Throw "generateContent failed", e).
Proof.
  intros Hr (c & Hu & Hf). unfold GeminiService.fetchExchangeRates.
  destruct used as [|u used]; [by apply elem_of_nil in Hu|].
  destruct (filter _ _) as [|t ts]; [by apply elem_of_nil in Hf|].
  run. rewrite Hr. reflexivity.
Qed.

(** An answer that cannot be read makes [fetchExchangeRates] return the
    identity table. *)
Lemma fetch_unreadable base used e t msg :
  rate_service (world e) = Responded t ->
  GeminiService.read_rates base t = Throw msg ->
  GeminiService.fetchExchangeRates base used e = (Ok {[ base := 1%float ]}, e).
Proof.
  intros Hr Hread. unfold GeminiService.fetchExchangeRates.
  destruct used as [|u used]; [reflexivity|].
  destruct (filter _ _) as [|x xs]; [reflexivity|].
  run. rewrite Hr, Hread. reflexivity.
Qed.

(** C5 (amended). If the exchange-rate request itself fails (the call to
    the service rejects), the refresh changes nothing: the cached rate table
    on the snapshot held by the controller is retained, and nothing is
    written to storage.  A response that arrives but cannot be read is not
    a failure of the request: [fetchExchangeRates] then answers with the
    identity table for the base currency, which replaces the cached table. *)
Theorem rejected_refresh_keeps_cache (d : UserData) (s : State) :
  Spec.foreign_in_use d ->
  (rate_service (world (env s)) = Rejected ->
   App.updateExchangeRates d s = (Ok tt, s))
  /\ (forall t msg,
        rate_service (world (env s)) = Responded t ->
        GeminiService.read_rates (Settings.currency (UserData.settings d)) t = Throw msg ->
        user (app (snd (App.updateExchangeRates d s)))
        = Some (App.with_exchangeRates
                  (Some {[ Settings.currency (UserData.settings d) := 1%float ]}) d)).
Proof.
  intros Hforeign.
  destruct (foreign_is_requested d Hforeign) as (c & Hused & Hreq).
  unfold App.updateExchangeRates.
  destruct (App.currenciesUsed d) as [|u used] eqn:Eused; [by apply elem_of_nil in Hused|].
  split.
  - intros Hr. unfold try_catch. run.
    rewrite run_lift, fetch_rejected; [| exact Hr | eauto].
    destruct s; reflexivity.
  - intros t msg Hr Hread. unfold try_catch. run.
    rewrite run_lift, (fetch_unreadable _ _ _ t msg Hr Hread). run.
    unfold setUser, modify_app. run.
    rewrite run_lift. simpl.
    destruct (fst (GoogleDriveService.saveData _ _)); reflexivity.
Qed.

Lemma rejected_refresh_keeps_cache_witness :
  Spec.foreign_in_use Example.mixed
  /\ App.updateExchangeRates Example.mixed
       (Example.state local_db Rejected ExtractRejected (Example.app_of Example.mixed))
     = (Ok tt, Example.state local_db Rejected ExtractRejected (Example.app_of Example.mixed)).
Proof.
  assert (H : Spec.foreign_in_use Example.mixed).
  { exists (Example.entry "e1" ASSET "Income" "Salary" 100%float (Some "GBP") "2025-06-02"),
      "GBP".
    repeat split; try discriminate. apply list_elem_of_here. }
  split; [exact H|].
  apply (proj1 (rejected_refresh_keeps_cache Example.mixed
                  (Example.state local_db Rejected ExtractRejected
                     (Example.app_of Example.mixed)) H)).
  reflexivity.
Defined.

(** C5 as stated fails: with a cached table listing sterling, a response
    that is not JSON leaves the controller with the table [{USD: 1}]. *)
Lemma unparseable_response_replaces_cache :
  UserData.exchangeRates <$>
    user (app (snd (App.updateExchangeRates Example.mixed
                      (Example.state local_db (Responded (Some NotJson)) ExtractRejected
                         (Example.app_of Example.mixed)))))
  <> Some (UserData.exchangeRates Example.mixed).
Proof.
  intros H.
  apply (f_equal (fun o : option (option (gmap string JS.number)) =>
                    match o with
                    | Some (Some m) => m !! "GBP"
                    | _ => None
                    end)) in H.
  vm_compute in H. discriminate H.
Qed.

(** The table left behind, and the copy written to storage. *)
Example unparseable_response_shrinks_cache :
  let s' := snd (App.updateExchangeRates Example.mixed
                   (Example.state local_db (Responded (Some NotJson)) ExtractRejected
                      (Example.app_of Example.mixed))) in
  (user (app s') ≫= UserData.exchangeRates) = Some {[ "USD" := 1%float ]}
  /\ idb (world (env s')) !! GoogleDriveService.STORAGE_IDB_KEY
     = Some (Encode.userData
               (App.with_exchangeRates (Some {[ "USD" := 1%float ]}) Example.mixed)).
Proof. vm_compute. split; reflexivity. Qed.

(** ** What saving and refreshing leave alone *)

(** A rate refresh leaves the gate and the settings alone. *)
Lemma refresh_keeps_gate d s :
  let s' := snd (App.updateExchangeRates d s) in
  isVaultLocked (app s') = isVaultLocked (app s)
  /\ isAuthenticated (app s') = isAuthenticated (app s)
  /\ (user (app s') = user (app s)
      \/ exists rates, user (app s') = Some (App.with_exchangeRates (Some rates) d)).
Proof.
  unfold App.updateExchangeRates.
  destruct (App.currenciesUsed d) as [|c used]; [simpl; auto|].
  unfold try_catch. run. rewrite run_lift.
  destruct (GeminiService.fetchExchangeRates _ _ (env s)) as [[rates|msg|] e1]; run;
    [|simpl; auto|simpl; auto].
  unfold setUser, modify_app. run. rewrite run_lift. cbn [app env].
  destruct (GoogleDriveService.saveData _ _) as [[[]|msg|] e2]; simpl; eauto.
Qed.

(** Saving touches the entry list neither in the state nor in the snapshot
    it hands back. *)
Lemma sync_keeps_entries d s :
  entries_of (snd (App.syncToCloud d s)) = entries_of s
  /\ (forall d', fst (App.syncToCloud d s) = Ok d' ->
        UserData.entries d' = UserData.entries d).
Proof.
  unfold App.syncToCloud, try_catch, setSyncStatus, modify_app. run.
  rewrite run_lift. cbn [app env].
  destruct (GoogleDriveService.saveData d (env s)) as [[[]|msg|] e1]; run;
    try (split; [reflexivity | intros d' H; inversion H; reflexivity]);
    try (split; [reflexivity | intros d' H; discriminate H]).
  destruct (bool_decide (mode (svc e1) = drive)); run;
    try (split; [reflexivity | intros d' H; inversion H; reflexivity]).
  rewrite run_lift. cbn [app env].
  destruct (GoogleDriveService.syncToSpreadsheet _ e1) as [[sheetId|msg|] e2]; run;
    try (split; [reflexivity | intros d' H; inversion H; reflexivity]);
    try (split; [reflexivity | intros d' H; discriminate H]).
  destruct (JS.truthy_opt sheetId) as [id|]; run;
    try (split; [reflexivity | intros d' H; inversion H; reflexivity]).
  destruct (bool_decide _); run;
    try (split; [reflexivity | intros d' H; inversion H; reflexivity]).
  rewrite run_lift. cbn [app env].
  destruct (GoogleDriveService.saveData _ e2) as [[[]|msg|] e3]; run;
    unfold entries_of; cbn [app user];
    (split; [destruct (user (app s)); reflexivity
            | intros d' H; first [inversion H; reflexivity | discriminate H]]).
Qed.

Lemma refresh_keeps_entries d s :
  entries_of s = UserData.entries d ->
  entries_of (snd (App.updateExchangeRates d s)) = UserData.entries d.
Proof.
  intros H. destruct (refresh_keeps_gate d s) as (_ & _ & [Hu | [rates Hu]]);
    unfold entries_of in *; rewrite Hu; [exact H | reflexivity].
Qed.

(** After [addEntry], the entry heads the list the controller holds. *)
Lemma addEntry_adds entry s current :
  user (app s) = Some current ->
  entries_of (snd (App.addEntry entry s)) = entry :: UserData.entries current.
Proof.
  intros Hu. unfold App.addEntry, App.with_user. run. rewrite Hu.
  unfold setUser, modify_app. run.
  match goal with
  | |- context [App.syncToCloud ?d ?st] =>
      destruct (sync_keeps_entries d st) as [Hs Hd];
      destruct (App.syncToCloud d st) as [[d'|msg|] st']
  end; cbn [fst snd] in *; run; try exact Hs.
  specialize (Hd d' eq_refl).
  rewrite (refresh_keeps_entries d' st'); [exact Hd | rewrite Hs, Hd; reflexivity].
Qed.

(** ** Mutating intents *)

(** The snapshot each intent computes, field by field. *)
Lemma intents_copy_the_snapshot (now : string) (current : UserData) :
  (forall entry,
     App.addEntry_snapshot now current entry
     = UserData.mk (entry :: UserData.entries current) (UserData.goals current) now
         (UserData.exchangeRates current) (UserData.legacy current)
         (UserData.settings current))
  /\ (forall newEntries,
        App.addEntries_snapshot now current newEntries
        = UserData.mk (newEntries ++ UserData.entries current) (UserData.goals current) now
            (UserData.exchangeRates current) (UserData.legacy current)
            (UserData.settings current))
  /\ (forall updatedEntry,
        let d := App.updateEntry_snapshot now current updatedEntry in
        length (UserData.entries d) = length (UserData.entries current)
        /\ (forall i e, UserData.entries current !! i = Some e ->
              UserData.entries d !! i
              = Some (if bool_decide (FinanceEntry.id e = FinanceEntry.id updatedEntry)
                      then updatedEntry else e))
        /\ UserData.goals d = UserData.goals current
        /\ UserData.lastSynced d = now
        /\ UserData.exchangeRates d = UserData.exchangeRates current
        /\ UserData.legacy d = UserData.legacy current
        /\ UserData.settings d = UserData.settings current)
  /\ (forall legacy,
        App.updateLegacy_snapshot now current legacy
        = UserData.mk (UserData.entries current) (UserData.goals current) now
            (UserData.exchangeRates current) (Some legacy) (UserData.settings current))
  /\ (let d := App.acceptTerms_snapshot current in
      let s := UserData.settings current in
      UserData.entries d = UserData.entries current
      /\ UserData.goals d = UserData.goals current
      /\ UserData.exchangeRates d = UserData.exchangeRates current
      /\ UserData.legacy d = UserData.legacy current
      /\ UserData.settings d
         = Settings.mk (Settings.currency s) (Settings.userName s)
             (Settings.biometricEnabled s) true (Settings.spreadsheetId s)
             (Settings.monthlyBudgetLimit s)).
Proof.
  repeat split; try reflexivity.
  - simpl. apply length_fmap.
  - intros i e He. simpl. rewrite list_lookup_fmap, He. reflexivity.
Qed.

(** Each intent installs its snapshot before anything else, and does
    nothing when no user data is loaded. *)
Lemma intents_install_the_snapshot (s : State) (current : UserData) entry legacy :
  user (app s) = Some current ->
  let now := now (world (env s)) in
  let install d :=
    mkState (mkApp (Some d) (isAuthenticated (app s)) (isLoading (app s))
               (isVaultLocked (app s)) (activeTab (app s)) (syncStatus (app s))
               (authError (app s)))
            (env s) in
  App.addEntry entry s
  = (updatedUser ← App.syncToCloud (App.addEntry_snapshot now current entry);
     App.updateExchangeRates updatedUser)
      (install (App.addEntry_snapshot now current entry))
  /\ App.updateLegacy legacy s
     = (_ ← App.syncToCloud (App.updateLegacy_snapshot now current legacy); mret tt)
         (install (App.updateLegacy_snapshot now current legacy))
  /\ App.acceptTerms s
     = (_ ← App.syncToCloud (App.acceptTerms_snapshot current); mret tt)
         (install (App.acceptTerms_snapshot current)).
Proof.
  intros Hu. unfold App.addEntry, App.updateLegacy, App.acceptTerms, App.with_user.
  repeat split; run; rewrite Hu; unfold setUser, modify_app; run; reflexivity.
Qed.

Lemma intents_need_a_user (s : State) entry entries legacy :
  user (app s) = None ->
  App.addEntry entry s = (Ok tt, s)
  /\ App.updateEntry entry s = (Ok tt, s)
  /\ App.addEntries entries s = (Ok tt, s)
  /\ App.updateLegacy legacy s = (Ok tt, s)
  /\ App.acceptTerms s = (Ok tt, s).
Proof.
  intros Hu.
  unfold App.addEntry, App.updateEntry, App.addEntries, App.updateLegacy,
    App.acceptTerms, App.with_user.
  repeat split; run; rewrite Hu; reflexivity.
Qed.

(** Accept terms on the sample: the snapshot keeps the old [lastSynced]
    instead of the current timestamp. *)
Lemma acceptTerms_keeps_lastSynced :
  let s := Example.state local_db Rejected ExtractRejected (Example.app_of Example.mixed) in
  UserData.lastSynced <$> user (app (snd (App.acceptTerms s)))
  <> Some (now (world (env s))).
Proof. vm_compute. intros H. discriminate H. Qed.

Example acceptTerms_on_sample :
  let s := Example.state local_db Rejected ExtractRejected (Example.app_of Example.mixed) in
  (UserData.lastSynced <$> user (app (snd (App.acceptTerms s)))
   = Some "2025-06-03T10:00:00.000Z")
  /\ ((fun d => Settings.termsAccepted (UserData.settings d))
        <$> user (app (snd (App.acceptTerms s)))
      = Some true)
  /\ now (world (env s)) = "2025-06-15T12:00:00.000Z".
Proof. vm_compute. repeat split; reflexivity. Qed.

(** ** First login *)

(** C8, at the failing inputs: a first login in the embedded-database
    mode, nothing stored yet and nothing failing.  [findFile] answers with
    its fixed name, the download throws, the [catch] substitutes fresh data
    and the session starts on it; but nothing is written to the store. *)
Theorem first_login_persists_nothing (s : State) :
  faults (world (env s)) = [] ->
  idb (world (env s)) !! GoogleDriveService.STORAGE_IDB_KEY = None ->
  let s' := snd (App.handleLogin local_db s) in
  user (app s') = Some (App.createInitialData (now (world (env s))))
  /\ isAuthenticated (app s') = true
  /\ idb (world (env s')) = idb (world (env s)).
Proof.
  destruct s as [a [w sv]].
  destruct w as [nw fl tk ru r36 rq db0 fs0 cl gl pg cs rs es],
           sv as [tc tok dh ic md dbo].
  cbn [env world faults idb now]. intros -> Hnone. cbv zeta.
  unfold App.handleLogin, try_finally, try_catch, setAuthError, setIsLoading, setUser,
    setIsAuthenticated, setIsVaultLocked, modify_app,
    GoogleDriveService.login, GoogleDriveService.findFile,
    GoogleDriveService.downloadData, LocalDbService.get, LocalDbService.ensure_open,
    LocalDbService.init.
  repeat (run; rewrite ?run_lift).
  destruct dbo; repeat (run; rewrite ?run_lift); rewrite Hnone;
    repeat (run; rewrite ?run_lift); cbn [truthy_val];
    repeat (run; rewrite ?run_lift);
    change (Settings.biometricEnabled (UserData.settings (App.createInitialData nw)))
      with false;
    change (App.updateExchangeRates (App.createInitialData nw)) with (mret tt : Act unit);
    run; repeat split; reflexivity.
Qed.

Lemma first_login_persists_nothing_witness :
  let s := Example.state local_db Rejected ExtractRejected Example.app0 in
  let s' := snd (App.handleLogin local_db s) in
  user (app s') = Some (App.createInitialData "2025-06-15T12:00:00.000Z")
  /\ idb (world (env s')) = ∅.
Proof.
  destruct (first_login_persists_nothing
              (Example.state local_db Rejected ExtractRejected Example.app0))
    as (Hu & _ & Hidb); [reflexivity | reflexivity |].
  split; [exact Hu | exact Hidb].
Defined.

(** The login itself ends well: no error is shown. *)
Example first_login_shows_no_error :
  let s := Example.state local_db Rejected ExtractRejected Example.app0 in
  fst (App.handleLogin local_db s) = Ok tt
  /\ authError (app (snd (App.handleLogin local_db s))) = None.
Proof. vm_compute. split; reflexivity. Qed.

(** The same in the local-directory mode. *)
Example first_login_persists_nothing_fs :
  let s := Example.state local_fs Rejected ExtractRejected Example.app0 in
  let s' := snd (App.handleLogin local_fs s) in
  user (app s') = Some (App.createInitialData (now (world (env s))))
  /\ fs (world (env s')) = ∅.
Proof. vm_compute. repeat split; reflexivity. Qed.

(** The sibling path: on the remote drive, where [findFile] reports that
    there is no document, the fresh data is written at once. *)
Example first_login_persists_on_drive :
  let s := Example.state drive Rejected ExtractRejected Example.app0 in
  let s' := snd (App.handleLogin drive s) in
  user (app s') = Some (App.createInitialData (now (world (env s))))
  /\ (DriveFile.content <$> cloud (world (env s')))
     = [GoogleDriveService.document (App.createInitialData (now (world (env s))))].
Proof. vm_compute. repeat split; reflexivity. Qed.

(** The fresh data has the default settings and no entries or goals. *)
Example fresh_data_defaults now :
  let d := App.createInitialData now in
  UserData.entries d = [] /\ UserData.goals d = []
  /\ Settings.currency (UserData.settings d) = "USD".
Proof. repeat split; reflexivity. Qed.

(** ** Attachment archival *)

(** C9, at the failing inputs: in the embedded-database mode, when the
    store rejects the request, [archiveStatement] throws instead of
    returning [null]. *)
Theorem archive_throws_on_idb base64 mimeType accountName date (e : Env) rest :
  mode (svc e) = local_db ->
  faults (world e) = true :: rest ->
  exists message e',
    GoogleDriveService.archiveStatement base64 mimeType accountName date e
    = (Throw message, e').
Proof.
  destruct e as [w sv].
  destruct w as [nw fl tk ru r36 rq db0 fs0 cl gl pg cs rs es],
           sv as [tc tok dh ic md dbo].
  cbn [svc world mode faults]. intros -> ->.
  unfold GoogleDriveService.archiveStatement, draw, LocalDbService.save,
    LocalDbService.ensure_open, LocalDbService.init, io.
  run. destruct dbo; run; eauto.
Qed.

Lemma archive_throws_on_idb_witness :
  exists message e',
    GoogleDriveService.archiveStatement "aGVsbG8=" "image/png" "Coffee" "2025-06-10"
      (env (Example.failing_state local_db ExtractRejected Example.app0))
    = (Throw message, e').
Proof.
  apply (archive_throws_on_idb "aGVsbG8=" "image/png" "Coffee" "2025-06-10"
           (env (Example.failing_state local_db ExtractRejected Example.app0)) []);
    reflexivity.
Defined.

Example archive_throws_on_sample :
  fst (GoogleDriveService.archiveStatement "aGVsbG8=" "image/png" "Coffee" "2025-06-10"
         (env (Example.failing_state local_db ExtractRejected Example.app0)))
  = Throw "IDBObjectStore.put".
Proof. vm_compute. reflexivity. Qed.

(** The scan this is part of then adds no entry: the user is told the scan
    failed, and the entry list is as before. *)
Example scan_dropped_on_idb :
  let s := Example.failing_state local_db (Extracted [Example.coffee])
             (Example.app_of Example.mixed) in
  let r := FinanceForms.handleFileUpload "USD" "aGVsbG8=" "image/png" s in
  fst r = Ok (Some FinanceForms.ScanFailed)
  /\ user (app (snd r)) = Some Example.mixed.
Proof. vm_compute. split; reflexivity. Qed.

(** The sibling paths: the same fault in the local-directory mode and on
    the remote drive yields no reference, and the entry is added without it. *)
Example archive_null_on_fs :
  fst (GoogleDriveService.archiveStatement "aGVsbG8=" "image/png" "Coffee" "2025-06-10"
         (env (Example.failing_state local_fs ExtractRejected Example.app0)))
  = Ok None.
Proof. vm_compute. reflexivity. Qed.

Example archive_null_on_drive :
  fst (GoogleDriveService.archiveStatement "aGVsbG8=" "image/png" "Coffee" "2025-06-10"
         (env (Example.failing_state drive ExtractRejected Example.app0)))
  = Ok None.
Proof. vm_compute. reflexivity. Qed.

Example scan_kept_on_fs :
  let s := Example.failing_state local_fs (Extracted [Example.coffee])
             (Example.app_of Example.mixed) in
  let r := FinanceForms.handleFileUpload "USD" "aGVsbG8=" "image/png" s in
  fst r = Ok None
  /\ length (entries_of (snd r)) = 4%nat
  /\ (FinanceEntry.name <$> newest (snd r)) = Some "Coffee"
  /\ (newest (snd r) ≫= FinanceEntry.statementDriveId) = None.
Proof. vm_compute. repeat split; reflexivity. Qed.

(** The two paths of [archiveStatement] that guard themselves never
    throw, whatever fails and whenever. *)

Section WellTyped.

Context {S : Type}.

Lemma well_typed_ret {A} (a : A) : well_typed (mret a : ST S A).
Proof. intros s. discriminate. Qed.

Lemma well_typed_throw {A} msg : well_typed (throw msg : ST S A).
Proof. intros s. discriminate. Qed.

Lemma well_typed_gets {A} (f : S -> A) : well_typed (gets f).
Proof. intros s. discriminate. Qed.

Lemma well_typed_modify (f : S -> S) : well_typed (modify f).
Proof. intros s. discriminate. Qed.

Lemma well_typed_bind {A B} (m : ST S A) (f : A -> ST S B) :
  well_typed m -> (forall a, well_typed (f a)) -> well_typed (m ≫= f).
Proof.
  intros Hm Hf s. rewrite run_bind. specialize (Hm s).
  destruct (m s) as [[a|msg|] s']; simpl in *; [apply Hf | discriminate | congruence].
Qed.

Lemma well_typed_try_catch {A} (m : ST S A) h :
  well_typed m -> (forall msg, well_typed (h msg)) -> well_typed (try_catch m h).
Proof.
  intros Hm Hh s. unfold try_catch. specialize (Hm s).
  destruct (m s) as [[a|msg|] s']; simpl in *; [discriminate | apply Hh | congruence].
Qed.

(** A guarded block whose handler returns a value always returns one. *)
Lemma guarded_returns {A} (m : ST S A) (x : A) s :
  well_typed m -> exists r s', try_catch m (fun _ => mret x) s = (Ok r, s').
Proof.
  intros Hm. unfold try_catch. specialize (Hm s).
  destruct (m s) as [[a|msg|] s']; simpl in *; [eauto | eauto | congruence].
Qed.

End WellTyped.

Lemma well_typed_io what : well_typed (io what).
Proof.
  unfold io. apply well_typed_bind; [apply well_typed_gets|].
  intros [|[] rest]; [apply well_typed_ret | |];
    (apply well_typed_bind; [apply well_typed_modify|]; intros _);
    [apply well_typed_throw | apply well_typed_ret].
Qed.

Create HintDb typed.
#[local] Hint Resolve well_typed_ret well_typed_throw well_typed_gets well_typed_modify
  well_typed_io : typed.
#[local] Hint Extern 1 (well_typed (modify_world _)) => apply well_typed_modify : typed.
#[local] Hint Extern 1 (well_typed (modify_svc _)) => apply well_typed_modify : typed.
#[local] Hint Extern 2 (well_typed (_ ≫= _)) => apply well_typed_bind; [|intros] : typed.
#[local] Hint Extern 2 (well_typed (try_catch _ _)) =>
  apply well_typed_try_catch; [|intros] : typed.
#[local] Hint Extern 3 (well_typed (match ?x with _ => _ end)) => destruct x : typed.

Lemma well_typed_findFile name parentId : well_typed (GoogleDriveService.findFile name parentId).
Proof. unfold GoogleDriveService.findFile. auto 10 with typed. Qed.

Lemma well_typed_create name mime parents content :
  well_typed (GoogleDriveService.create_remote name mime parents content).
Proof. unfold GoogleDriveService.create_remote. auto 10 with typed. Qed.

Lemma well_typed_ensureFolder name parentId :
  well_typed (GoogleDriveService.ensureFolder name parentId).
Proof.
  unfold GoogleDriveService.ensureFolder.
  apply well_typed_bind; [apply well_typed_findFile|]. intros existing.
  destruct (JS.truthy_opt existing); [apply well_typed_ret|].
  apply well_typed_bind; [apply well_typed_io|]. intros _. apply well_typed_create.
Qed.

Lemma well_typed_upload base64 mime fileName parentId :
  well_typed (GoogleDriveService.uploadBinaryFile base64 mime fileName parentId).
Proof.
  unfold GoogleDriveService.uploadBinaryFile.
  apply well_typed_bind; [apply well_typed_io|]. intros _. apply well_typed_create.
Qed.

Lemma well_typed_handle_for what name :
  well_typed (GoogleDriveService.handle_for what name).
Proof.
  unfold GoogleDriveService.handle_for.
  destruct (GoogleDriveService.valid_name name); auto with typed.
Qed.

Lemma well_typed_attempt what : well_typed (attempt what).
Proof. unfold attempt. auto 10 with typed. Qed.

#[local] Hint Resolve well_typed_ensureFolder well_typed_upload well_typed_handle_for
  well_typed_attempt : typed.

(** In the local-directory mode (with its directory) and on the remote
    drive, [archiveStatement] returns, with a reference or with [null],
    under every fault script. *)
Lemma archive_never_throws_when_guarded base64 mimeType accountName date (e : Env) :
  (mode (svc e) = local_fs /\ directoryHandle (svc e) = true) \/ mode (svc e) = drive ->
  exists r e', GoogleDriveService.archiveStatement base64 mimeType accountName date e
               = (Ok r, e').
Proof.
  intros Hmode. unfold GoogleDriveService.archiveStatement, draw. run.
  destruct Hmode as [[-> ->] | ->]; run.
  - apply guarded_returns. auto 20 with typed.
  - apply guarded_returns. auto 20 with typed.
Qed.

(** ** Sign of amounts *)

Lemma abs_not_negative x : PrimFloat.ltb (JS.Math_abs x) 0 = false.
Proof.
  unfold JS.Math_abs. rewrite ltb_spec, abs_spec.
  change (Prim2SF 0) with (S754_zero false).
  destruct (Prim2SF x) as [s|s| |s m e]; reflexivity.
Qed.

(** The sibling path: an entry read from a CSV row never has a negative
    amount, whatever the row holds. *)
Lemma csv_amount_not_negative toISOString baseCurrency raw e entry e' :
  CsvImporter.mapToEntry toISOString baseCurrency raw e = (Ok entry, e') ->
  PrimFloat.ltb (FinanceEntry.amount entry) 0 = false.
Proof.
  unfold CsvImporter.mapToEntry, draw. run.
  destruct (JS.truthy_opt (raw !! "date")) as [d|].
  - destruct (toISOString d); run; intros H; inversion H; subst.
    apply abs_not_negative.
  - run. intros H; inversion H; subst. apply abs_not_negative.
Qed.

(** C10, at the failing inputs: whatever the manual form holds as its
    value, [handleSubmit] records [parseFloat] of it as the amount, sign
    included; a value such as [-5] is recorded as the amount [-5]. *)
Theorem manual_entry_keeps_its_sign baseCurrency formData valuationResult s current :
  user (app s) = Some current ->
  FormData.name formData <> "" ->
  FormData.amount formData <> "" ->
  FinanceEntry.amount <$>
    newest (snd (FinanceForms.handleSubmit baseCurrency formData valuationResult s))
  = Some (JS.parseFloat (FormData.amount formData)).
Proof.
  intros Hu Hname Hamount. unfold FinanceForms.handleSubmit.
  destruct (FormData.name formData) as [|c1 n] eqn:En; [congruence|].
  destruct (FormData.amount formData) as [|c2 a] eqn:Ea; [congruence|].
  run. rewrite run_lift. unfold draw. run.
  match goal with
  | |- context [App.addEntry ?e ?st] =>
      pose proof (addEntry_adds e st current Hu) as Hadd;
      destruct (App.addEntry e st) as [[[]|msg|] st']
  end; cbn [snd] in Hadd; run; unfold newest; rewrite Hadd; cbn;
    rewrite Ea; reflexivity.
Qed.

Lemma manual_entry_keeps_its_sign_witness :
  let s := Example.state local_db Rejected ExtractRejected (Example.app_of Example.mixed) in
  FinanceEntry.amount <$>
    newest (snd (FinanceForms.handleSubmit "USD" Example.refund_form None s))
  = Some (-5)%float.
Proof.
  cbv zeta.
  rewrite (manual_entry_keeps_its_sign "USD" Example.refund_form None
             (Example.state local_db Rejected ExtractRejected
                (Example.app_of Example.mixed))
             Example.mixed);
    [vm_compute; reflexivity | reflexivity | discriminate | discriminate].
Defined.

Example manual_entry_on_sample :
  let s := Example.state local_db Rejected ExtractRejected (Example.app_of Example.mixed) in
  let s' := snd (FinanceForms.handleSubmit "USD" Example.refund_form None s) in
  (FinanceEntry.name <$> newest s') = Some "Refund"
  /\ (FinanceEntry.amount <$> newest s') = Some (-5)%float
  /\ PrimFloat.ltb (-5)%float 0 = true.
Proof. vm_compute. repeat split; reflexivity. Qed.

(** Document extraction does not guard the sign either. *)
Example scanned_entry_keeps_negative_amount :
  let debit := PartialEntry.mk (Some "Coffee") (Some (-4.5)%float) (Some "USD")
                 (Some EXPENSE) (Some "Wants") None (Some "2025-06-10") None None in
  let s := Example.state local_db Rejected (Extracted [debit])
             (Example.app_of Example.mixed) in
  let s' := snd (FinanceForms.handleFileUpload "USD" "aGVsbG8=" "image/png" s) in
  (FinanceEntry.amount <$> newest s') = Some (-4.5)%float.
Proof. vm_compute. reflexivity. Qed.

(** A CSV row whose amount column is not a number yields an amount that is
    not a number. *)
Example csv_amount_may_be_nan :
  let raw : gmap string string := {[ "name" := "Tesco"; "amount" := "n/a" ]} in
  (FinanceEntry.amount <$>
     match fst (CsvImporter.mapToEntry (fun _ => None) "USD" raw (Example.env local_db)) with
     | Ok entry => Some entry
     | _ => None
     end)
  = Some nan.
Proof. vm_compute. reflexivity. Qed.

(** ** Recovery passkey *)

(** The sample passkey typed exactly as it is displayed, hyphens included,
    is rejected; the vault stays locked. *)
Example passkey_as_shown_is_rejected :
  let g := Example.try_passkey "ABCD-EFGH-JKLM-NPQR"
             (Example.locked_session Example.with_passkey) in
  Session.locked g = true
  /\ SecurityVault.isLocked g.2 = true
  /\ SecurityVault.error g.2
     = Some "Invalid passkey. Please check the emergency instructions."
  /\ LegacyProfile.recoveryPasskey Example.legacy = "ABCD-EFGH-JKLM-NPQR".
Proof. vm_compute. repeat split; reflexivity. Qed.

(** Without the hyphens the passkey is accepted, in either case and with
    blanks anywhere. *)
Example passkey_without_hyphens_is_accepted :
  Session.locked (Example.try_passkey "ABCDEFGHJKLMNPQR"
                    (Example.locked_session Example.with_passkey)) = false
  /\ Session.locked (Example.try_passkey "abcd efgh jklm npqr"
                       (Example.locked_session Example.with_passkey)) = false.
Proof. vm_compute. split; reflexivity. Qed.

Lemma remove_chars_removes drop s :
  JS.all_chars (fun c => negb (drop c)) (JS.remove_chars drop s) = true.
Proof.
  induction s as [|c s IH]; [reflexivity|]. simpl.
  destruct (drop c) eqn:E; [exact IH|]. simpl. rewrite E. exact IH.
Qed.

Lemma prefix_hyphen c s :
  String.prefix "-" (String c s) = true -> c = "-"%char.
Proof.
  cbn [String.prefix]. destruct (ascii_dec "-" c) as [<-|_]; [reflexivity | discriminate].
Qed.

Lemma includes_hyphen s :
  JS.includes "-" s = true ->
  JS.all_chars (fun c => negb (JS.is_hyphen c || JS.is_space c)) s = false.
Proof.
  induction s as [|c s IH]; [discriminate|].
  cbn [JS.includes JS.all_chars]. intros H.
  apply orb_true_iff in H as [H|H].
  - apply prefix_hyphen in H. subst c. reflexivity.
  - rewrite (IH H). apply andb_false_r.
Qed.

(** The comparison strips hyphens from the stored passkey only: an input
    in which a hyphen is left never matches, whatever is stored. *)
Lemma hyphenated_input_never_matches input stored :
  JS.includes "-" (SecurityVault.normalizedInput input) = true ->
  SecurityVault.normalizedInput input <> SecurityVault.normalizedPasskey stored.
Proof.
  intros Hin Heq. apply includes_hyphen in Hin. rewrite Heq in Hin.
  unfold SecurityVault.normalizedPasskey in Hin.
  rewrite remove_chars_removes in Hin. discriminate.
Qed.

(** Generation is as specified. *)

Lemma charset_char (k : nat) :
  (k < 32)%nat ->
  exists c, JS.charAt SafetyNet.charset k = String c ""
            /\ c ∈ list_ascii_of_string SafetyNet.charset.
Proof.
  intros Hk.
  do 32 (destruct k as [|k];
         [eexists; split; [reflexivity | vm_compute; set_solver] |]).
  lia.
Qed.

Lemma drawn_char (r : Q) :
  (0 <= r)%Q -> (r < 1)%Q ->
  exists c,
    JS.charAt_floor SafetyNet.charset
      (r * inject_Z (Z.of_nat (String.length SafetyNet.charset))) = String c ""
    /\ c ∈ list_ascii_of_string SafetyNet.charset.
Proof.
  intros H0 H1. unfold JS.charAt_floor.
  change (inject_Z (Z.of_nat (String.length SafetyNet.charset))) with (inject_Z 32).
  set (x := (r * inject_Z 32)%Q).
  assert (Hlo : (0 <= Qfloor x)%Z).
  { change 0%Z with (Qfloor 0). apply Qfloor_resp_le. unfold x.
    apply Qmult_le_0_compat; [exact H0 | discriminate]. }
  assert (Hhi : (Qfloor x < 32)%Z).
  { rewrite Zlt_Qlt. eapply Qle_lt_trans; [apply Qfloor_le|].
    unfold x. apply (Qmult_lt_r _ _ (inject_Z 32)) in H1; [|reflexivity].
    rewrite Qmult_1_l in H1. exact H1. }
  destruct (Z.ltb_spec (Qfloor x) 0) as [Hneg|_]; [lia|].
  apply charset_char. lia.
Qed.

Lemma append_cons x (a b : string) : String x a +:+ b = String x (a +:+ b).
Proof. reflexivity. Qed.

Lemma append_assoc (a b c : string) : (a +:+ b) +:+ c = a +:+ (b +:+ c).
Proof.
  induction a as [|x a IH]; [reflexivity|]. rewrite !append_cons, IH. reflexivity.
Qed.

Lemma append_nil_r (a : string) : a +:+ "" = a.
Proof.
  induction a as [|x a IH]; [reflexivity|]. rewrite append_cons, IH. reflexivity.
Qed.

Lemma generate_blocks n i acc (e : Env) :
  (forall k, 0 <= random (world e) k /\ random (world e) k < 1)%Q ->
  exists cs e',
    SafetyNet.generate n i acc e = (Ok (acc +:+ Spec.blocks i cs), e')
    /\ length cs = n
    /\ Forall (fun c => c ∈ list_ascii_of_string SafetyNet.charset) cs.
Proof.
  revert i acc e. induction n as [|n IH]; intros i acc e Hr.
  - exists [], e. simpl. rewrite append_nil_r. repeat split. constructor.
  - destruct e as [w s]. simpl in Hr.
    cbn [SafetyNet.generate]. unfold draw. run.
    destruct (drawn_char (random w (ticks w))) as (c & Hc & Hin);
      [apply Hr | apply Hr |].
    rewrite Hc.
    match goal with
    | |- context [SafetyNet.generate n (S i) ?a ?e1] =>
        destruct (IH (S i) a e1) as (cs & e' & Hgen & Hlen & Hall)
    end.
    { destruct w; exact Hr. }
    rewrite Hgen. exists (c :: cs), e'. split; [|split].
    + f_equal. f_equal. cbn [Spec.blocks].
      destruct ((0 <? i)%nat && (i mod 4 =? 0)%nat);
        rewrite !append_assoc; reflexivity.
    + simpl. congruence.
    + constructor; assumption.
Qed.

(** Every call to passkey generation yields a passkey of the specified
    shape, [Math.random] answering in [0, 1) as it does. *)
Lemma generated_passkey_well_shaped (e : Env) :
  (forall k, 0 <= random (world e) k /\ random (world e) k < 1)%Q ->
  exists passkey e',
    SafetyNet.new_passkey e = (Ok passkey, e') /\ Spec.well_shaped passkey.
Proof.
  intros Hr. destruct (generate_blocks 16 0 "" e Hr) as (cs & e' & Hgen & Hlen & Hall).
  exists (Spec.blocks 0 cs), e'. split; [exact Hgen|]. exists cs. auto.
Qed.

(** The shape, spelled out: nineteen characters, hyphens at the fifth,
    tenth and fifteenth place. *)
Lemma well_shaped_layout passkey :
  Spec.well_shaped passkey ->
  String.length passkey = 19%nat
  /\ String.get 4 passkey = Some "-"%char
  /\ String.get 9 passkey = Some "-"%char
  /\ String.get 14 passkey = Some "-"%char.
Proof.
  intros (cs & Hlen & _ & ->).
  do 17 (destruct cs as [|? cs]; try discriminate Hlen).
  repeat split; reflexivity.
Qed.

Example generated_passkey_sample :
  fst (SafetyNet.new_passkey (Example.env local_db)) = Ok "AAAA-AAAA-AAAA-AAAA".
Proof. vm_compute. reflexivity. Qed.

Lemma includes_cons c r :
  JS.includes "-" (String c r) = bool_decide (c = "-"%char) || JS.includes "-" r.
Proof.
  cbn [JS.includes String.prefix].
  destruct (ascii_dec "-" c) as [<-|Hne].
  - rewrite bool_decide_eq_true_2 by reflexivity. destruct r; reflexivity.
  - rewrite bool_decide_eq_false_2 by congruence. reflexivity.
Qed.

Lemma includes_rev_app s acc :
  JS.includes "-" (String.rev_app s acc) = JS.includes "-" s || JS.includes "-" acc.
Proof.
  revert acc. induction s as [|c s IH]; intros acc; [reflexivity|].
  cbn [String.rev_app]. rewrite IH, !includes_cons.
  destruct (bool_decide _), (JS.includes "-" s), (JS.includes "-" acc); reflexivity.
Qed.

Lemma includes_rev s : JS.includes "-" (String.rev s) = JS.includes "-" s.
Proof. unfold String.rev. rewrite includes_rev_app. apply orb_false_r. Qed.

Lemma includes_trimStart s : JS.includes "-" (JS.trimStart s) = JS.includes "-" s.
Proof.
  induction s as [|c s IH]; [reflexivity|]. cbn [JS.trimStart].
  destruct (JS.is_space c) eqn:E; [|reflexivity].
  rewrite IH, includes_cons. rewrite bool_decide_eq_false_2; [reflexivity|].
  intros ->. discriminate E.
Qed.

Lemma includes_trim s : JS.includes "-" (JS.trim s) = JS.includes "-" s.
Proof.
  unfold JS.trim, JS.trimEnd.
  rewrite includes_rev, includes_trimStart, includes_rev. apply includes_trimStart.
Qed.

Lemma includes_toUpperCase s :
  JS.includes "-" s = true -> JS.includes "-" (JS.toUpperCase s) = true.
Proof.
  unfold JS.toUpperCase. induction s as [|c s IH]; [discriminate|].
  cbn [JS.map_chars]. rewrite !includes_cons. intros H.
  apply orb_true_iff in H as [H|H].
  - apply bool_decide_eq_true in H. subst c.
    change (JS.upper_char "-") with "-"%char.
    rewrite bool_decide_eq_true_2 by reflexivity. reflexivity.
  - rewrite (IH H). apply orb_true_r.
Qed.

Lemma includes_remove_spaces s :
  JS.includes "-" s = true -> JS.includes "-" (JS.remove_chars JS.is_space s) = true.
Proof.
  induction s as [|c s IH]; [discriminate|].
  rewrite includes_cons. cbn [JS.remove_chars]. intros H.
  apply orb_true_iff in H as [H|H].
  - apply bool_decide_eq_true in H. subst c.
    change (JS.is_space "-") with false. cbv iota.
    rewrite includes_cons, bool_decide_eq_true_2 by reflexivity. reflexivity.
  - destruct (JS.is_space c); [exact (IH H)|].
    rewrite includes_cons, (IH H). apply orb_true_r.
Qed.

(** Normalising the input keeps its hyphens. *)
Lemma normalizedInput_keeps_hyphen input :
  JS.includes "-" input = true ->
  JS.includes "-" (SecurityVault.normalizedInput input) = true.
Proof.
  intros H. unfold SecurityVault.normalizedInput.
  apply includes_remove_spaces, includes_toUpperCase. rewrite includes_trim. exact H.
Qed.

Lemma append_nil_l (a : string) : "" +:+ a = a.
Proof. reflexivity. Qed.

Lemma well_shaped_has_hyphen passkey :
  Spec.well_shaped passkey -> JS.includes "-" passkey = true /\ passkey <> "".
Proof.
  intros (cs & Hlen & _ & ->).
  do 5 (destruct cs as [|? cs]; [discriminate Hlen|]).
  split; [|discriminate].
  cbn [Spec.blocks]. 
  change ((0 <? 0)%nat && (0 mod 4 =? 0)%nat) with false.
  change ((0 <? 1)%nat && (1 mod 4 =? 0)%nat) with false.
  change ((0 <? 2)%nat && (2 mod 4 =? 0)%nat) with false.
  change ((0 <? 3)%nat && (3 mod 4 =? 0)%nat) with false.
  change ((0 <? 4)%nat && (4 mod 4 =? 0)%nat) with true.
  cbv iota. rewrite !append_cons, !append_nil_l, !includes_cons.
  rewrite (bool_decide_eq_true_2 ("-"%char = "-"%char)) by reflexivity.
  rewrite !orb_true_r. reflexivity.
Qed.

(** C6, at the failing inputs: a passkey of the generated shape, stored as
    the recovery passkey and typed back exactly as generated and displayed
    (hyphens included), is rejected: the vault stays locked and the
    invalid-passkey message is shown. *)
Theorem passkey_typed_as_generated_is_rejected passkey legacy st :
  Spec.well_shaped passkey ->
  LegacyProfile.recoveryPasskey legacy = passkey ->
  SecurityVault.passkeyInput st = passkey ->
  SecurityVault.handlePasskeyUnlock (Some legacy) st
  = (SecurityVault.mk (SecurityVault.isLocked st)
       (Some "Invalid passkey. Please check the emergency instructions.")
       (SecurityVault.showPasskeyField st) passkey,
     false).
Proof.
  intros Hshape Hstored Hinput.
  destruct (well_shaped_has_hyphen passkey Hshape) as [Hhyphen Hne].
  unfold SecurityVault.handlePasskeyUnlock. cbn [fmap option_fmap option_map].
  rewrite Hstored, Hinput.
  destruct passkey as [|c p]; [congruence|]. cbn [JS.truthy_opt JS.truthy_str].
  rewrite bool_decide_eq_false_2; [reflexivity|].
  apply hyphenated_input_never_matches, normalizedInput_keeps_hyphen, Hhyphen.
Qed.

Lemma passkey_typed_as_generated_is_rejected_witness :
  Spec.well_shaped "ABCD-EFGH-JKLM-NPQR"
  /\ snd (SecurityVault.handlePasskeyUnlock (Some Example.legacy)
            (SecurityVault.mk true None true "ABCD-EFGH-JKLM-NPQR"))
     = false.
Proof.
  assert (H : Spec.well_shaped "ABCD-EFGH-JKLM-NPQR").
  { exists (list_ascii_of_string "ABCDEFGHJKLMNPQR").
    split; [reflexivity | split; [| reflexivity]].
    vm_compute. repeat constructor; set_solver. }
  split; [exact H|].
  rewrite (passkey_typed_as_generated_is_rejected "ABCD-EFGH-JKLM-NPQR" Example.legacy
             (SecurityVault.mk true None true "ABCD-EFGH-JKLM-NPQR") H eq_refl eq_refl).
  reflexivity.
Defined.

(** ** Vault gate *)

(** What [handleLogin] does once it holds [data]. *)
Lemma session_start_raises_gate data s :
  let s' := snd ((_ ← setUser (Some data);
                  _ ← setIsAuthenticated true;
                  _ ← (if Settings.biometricEnabled (UserData.settings data)
                       then setIsVaultLocked true else mret tt);
                  App.updateExchangeRates data) s) in
  isAuthenticated (app s') = true
  /\ exists d, user (app s') = Some d
       /\ UserData.settings d = UserData.settings data
       /\ (Settings.biometricEnabled (UserData.settings data) = true ->
           isVaultLocked (app s') = true).
Proof.
  unfold setUser, setIsAuthenticated, setIsVaultLocked, modify_app. run.
  destruct (Settings.biometricEnabled (UserData.settings data)) eqn:Eflag; run;
    match goal with
    | |- context [App.updateExchangeRates data ?st] =>
        pose proof (refresh_keeps_gate data st) as H; cbv zeta in H;
        destruct (App.updateExchangeRates data st) as [r st']
    end;
    cbn [app snd user isAuthenticated isVaultLocked] in *;
    destruct H as (Hl & Ha & Hu);
    (split; [exact Ha|]);
    (destruct Hu as [Hu | [rates Hu]]; rewrite Hu;
     eexists; (split; [reflexivity|]); (split; [reflexivity|]));
    first [exact (fun _ => Hl) | discriminate].
Qed.

Ltac enter_session :=
  match goal with
  | |- context [(setUser (Some ?a) ≫= ?k) ?st] =>
      let H := fresh "H" in
      pose proof (session_start_raises_gate a st) as H; cbv zeta in H;
      destruct ((setUser (Some a) ≫= k) st) as [r st'];
      cbn [snd] in H; destruct H as (Hauth & d & Hu & Hs & Hflag);
      destruct r; run; intros _; exists d;
      (split; [exact Hu | rewrite Hs; exact Hflag])
  end.

Lemma login_raises_gate m s :
  let s' := snd (App.handleLogin m s) in
  isAuthenticated (app s) = false ->
  isAuthenticated (app s') = true ->
  exists d, user (app s') = Some d
    /\ (Settings.biometricEnabled (UserData.settings d) = true ->
        isVaultLocked (app s') = true).
Proof.
  cbv zeta. intros Hfalse.
  unfold App.handleLogin, try_finally, try_catch.
  unfold setAuthError, setIsLoading, modify_app. run.
  rewrite run_lift. cbn [app env user isAuthenticated isVaultLocked].
  destruct (GoogleDriveService.login m (env s)) as [[b|msg|] e1]; run;
    try (simpl; congruence).
  rewrite run_lift. cbn [app env user isAuthenticated isVaultLocked].
  destruct (GoogleDriveService.findFile _ _ e1) as [[fileId|msg|] e2]; run;
    try (simpl; congruence).
  destruct (JS.truthy_opt fileId) as [id|]; run; rewrite run_lift;
    cbn [app env user isAuthenticated isVaultLocked].
  - destruct (GoogleDriveService.downloadData id e2) as [[v|msg|] e3]; run;
      try (simpl; congruence).
    + unfold App.typed. destruct (Decode.userData v) as [l|]; run.
      * rewrite <- run_bind. enter_session.
      * unfold illTyped. simpl. congruence.
    + rewrite <- run_bind. enter_session.
  - destruct (GoogleDriveService.saveData _ e2) as [[[]|msg|] e3]; run;
      try (simpl; congruence).
    rewrite <- run_bind. enter_session.
Qed.

(** C1 (amended). Whenever the settings vault-lock flag is set, the gate is
    active on entering the session: after a login that authenticates, the
    controller's [isVaultLocked] is set and the overlay mounts locked.  The
    gate is cleared by exactly two actions: "Verify Identity", a simulated
    biometric step that compares nothing and always unlocks, and "Unlock
    Vault" when the comparison of the typed passkey against the stored
    recovery passkey succeeds; a comparison that fails, or that cannot be
    made for want of a stored passkey, leaves the gate up. *)
Theorem vault_gate (m : Mode) (s : State) (ev : Session.event)
    (g : AppState * SecurityVault.state) :
  (isAuthenticated (app s) = false ->
   isAuthenticated (app (snd (App.handleLogin m s))) = true ->
   exists d, user (app (snd (App.handleLogin m s))) = Some d
     /\ (Settings.biometricEnabled (UserData.settings d) = true ->
         Session.locked (Session.enter (app (snd (App.handleLogin m s)))) = true
         /\ SecurityVault.isLocked (Session.enter (app (snd (App.handleLogin m s)))).2
            = true))
  /\ (Session.locked g = true ->
      Session.locked (Session.fire ev g) = false ->
      ev = Session.VerifyIdentity
      \/ (ev = Session.UnlockVault /\ Session.credential_check ev g = Some true))
  /\ (SecurityVault.isLocked g.2 = true -> SecurityVault.showPasskeyField g.2 = false ->
      Session.locked (Session.fire Session.VerifyIdentity g) = false
      /\ Session.credential_check Session.VerifyIdentity g = None)
  /\ (isVaultLocked g.1 = true ->
      Session.locked (Session.fire Session.VerifyIdentity (Session.enter g.1)) = false)
  /\ (SecurityVault.isLocked g.2 = true -> SecurityVault.showPasskeyField g.2 = true ->
      Session.credential_check Session.UnlockVault g = Some true ->
      Session.locked (Session.fire Session.UnlockVault g) = false)
  /\ (Session.locked g = true ->
      Session.credential_check Session.UnlockVault g <> Some true ->
      Session.locked (Session.fire Session.UnlockVault g) = true).
Proof.
  split; [|split; [|split; [|split; [|split]]]].
  - intros Hfalse Htrue.
    destruct (login_raises_gate m s Hfalse Htrue) as (d & Hu & Hflag).
    exists d. split; [exact Hu|]. intros Hon. specialize (Hflag Hon).
    unfold Session.locked, Session.enter, SecurityVault.mount. simpl. auto.
  - destruct g as [a v]. unfold Session.locked, Session.fire, Session.credential_check.
    cbn [fst snd]. intros Hlocked.
    destruct (SecurityVault.isLocked v); cbn [negb fst snd]; [|congruence].
    destruct ev, (SecurityVault.showPasskeyField v);
      cbn [Session.after SecurityVault.handleUnlock fst snd]; try congruence; auto.
    unfold SecurityVault.handlePasskeyUnlock.
    destruct (JS.truthy_opt _) as [p|]; cbn [Session.after fst snd]; [|congruence].
    case_bool_decide; cbn [Session.after fst snd]; [auto | congruence].
  - destruct g as [a v]. cbn [fst snd]. intros Hl Hshow.
    unfold Session.locked, Session.fire. rewrite Hl, Hshow. split; reflexivity.
  - destruct g as [a v]. cbn [fst snd]. intros Hl.
    unfold Session.locked, Session.fire, Session.enter, SecurityVault.mount.
    cbn [SecurityVault.isLocked SecurityVault.showPasskeyField]. rewrite Hl. reflexivity.
  - destruct g as [a v]. cbn [fst snd]. intros Hl Hshow.
    unfold Session.locked, Session.fire, Session.credential_check,
      SecurityVault.handlePasskeyUnlock. rewrite Hl, Hshow. cbn [negb fst snd].
    destruct (JS.truthy_opt _) as [p|]; [|discriminate].
    intros [= ->]. reflexivity.
  - destruct g as [a v]. unfold Session.locked, Session.fire, Session.credential_check,
      SecurityVault.handlePasskeyUnlock. cbn [fst snd]. intros Hlocked Hcheck.
    destruct (SecurityVault.isLocked v); cbn [negb]; [|exact Hlocked].
    destruct (SecurityVault.showPasskeyField v); [|exact Hlocked].
    destruct (JS.truthy_opt _) as [p|]; cbn [Session.after fst snd]; [|exact Hlocked].
    case_bool_decide as Heq; cbn [Session.after fst snd]; [|exact Hlocked].
    exfalso. apply Hcheck. reflexivity.
Qed.

Lemma vault_gate_witness :
  let s' := snd (App.handleLogin local_db (Example.returning Example.vault_with_passkey)) in
  let g := Session.fire (Session.TypePasskey "ABCDEFGHJKLMNPQR")
             (Session.fire Session.UseRecoveryPasskey (Session.enter (app s'))) in
  (exists d, user (app s') = Some d /\ Session.locked (Session.enter (app s')) = true)
  /\ Session.credential_check Session.UnlockVault g = Some true
  /\ Session.locked g = true
  /\ Session.locked (Session.fire Session.UnlockVault g) = false.
Proof.
  cbv zeta.
  pose proof (vault_gate local_db (Example.returning Example.vault_with_passkey)
                Session.UnlockVault
                (Session.fire (Session.TypePasskey "ABCDEFGHJKLMNPQR")
                   (Session.fire Session.UseRecoveryPasskey
                      (Session.enter
                         (app (snd (App.handleLogin local_db
                                      (Example.returning Example.vault_with_passkey))))))))
    as (Hlogin & _ & _ & _ & Hunlock & _).
  split; [|split; [vm_compute; reflexivity | split; [vm_compute; reflexivity|]]].
  - destruct Hlogin as (d & Hu & Hflag); [reflexivity | vm_compute; reflexivity |].
    exists d. split; [exact Hu|]. apply Hflag.
    vm_compute in Hu. inversion Hu. reflexivity.
  - apply Hunlock; vm_compute; reflexivity.
Defined.

(** C1 as stated fails: a returning user whose settings have the vault lock
    on, and who has no recovery passkey at all, logs in; the gate is up;
    "Verify Identity" clears it without any credential being compared. *)
Lemma unlock_without_check :
  let s' := snd (App.handleLogin local_db Example.returning_state) in
  let g := Session.enter (app s') in
  user (app s') = Some Example.vault_on
  /\ Session.locked g = true
  /\ Session.credential_check Session.VerifyIdentity g = None
  /\ Session.locked (Session.fire Session.VerifyIdentity g) = false
  /\ ~ Spec.unlock_only_after_check.
Proof.
  cbv zeta.
  split; [vm_compute; reflexivity|]. split; [vm_compute; reflexivity|].
  split; [reflexivity|]. split; [vm_compute; reflexivity|].
  intros H.
  specialize (H Session.VerifyIdentity
                (Session.enter (app (snd (App.handleLogin local_db Example.returning_state))))).
  assert (Hcheck : Session.credential_check Session.VerifyIdentity
                     (Session.enter
                        (app (snd (App.handleLogin local_db Example.returning_state))))
                   = Some true)
    by (apply H; vm_compute; reflexivity).
  discriminate Hcheck.
Qed.

(** A passkey that does not match leaves the gate up. *)
Example wrong_passkey_keeps_gate :
  Session.locked (Example.try_passkey "AAAABBBBCCCCDDDD"
                    (Example.locked_session Example.with_passkey)) = true.
Proof. vm_compute. reflexivity. Qed.

(** The returning user's document is read back as saved, and the gate is up. *)
Example returning_user_is_locked :
  let s' := snd (App.handleLogin local_db Example.returning_state) in
  user (app s') = Some Example.vault_on /\ isVaultLocked (app s') = true.
Proof. vm_compute. split; reflexivity. Qed.

(* ================================================================= *)
(** * Further properties *)
(* ================================================================= *)

(** ** The embedded database *)

(** X1. In the embedded database, reading a key right after saving under
    it, no fault occurring, returns the value saved; the database is open
    afterwards ([save] opens it when needed), and no other key is touched. *)
Theorem localdb_save_then_get key data (e : Env) :
  faults (world e) = [] ->
  exists e',
    (_ ← LocalDbService.save key data; LocalDbService.get key) e = (Ok (Some data), e')
    /\ db (svc e') = true
    /\ forall k, k <> key -> idb (world e') !! k = idb (world e) !! k.
Proof.
  destruct e as [w s]. intros Hf.
  destruct w as [nw fl tk ru r36 rq db0 fs0 cl gl pg cs rs es],
           s as [tc tok dh ic md dbo].
  simpl in Hf. subst fl.
  unfold LocalDbService.save, LocalDbService.get, LocalDbService.ensure_open,
    LocalDbService.init.
  destruct dbo; run; rewrite lookup_insert_eq;
    (eexists; split; [reflexivity|]; split; [reflexivity|]);
    intros k Hk; cbn [world idb]; apply lookup_insert_ne; congruence.
Qed.

Lemma localdb_save_then_get_witness :
  faults (world (Example.env local_db)) = []
  /\ fst ((_ ← LocalDbService.save "k" (VStr "v"); LocalDbService.get "k")
            (Example.env local_db))
     = Ok (Some (VStr "v")).
Proof.
  split; [reflexivity|].
  destruct (localdb_save_then_get "k" (VStr "v") (Example.env local_db) eq_refl)
    as (e' & H & _).
  rewrite H. reflexivity.
Defined.


(** The aborted commit: the put succeeds, the save resolves, and nothing
    is stored. *)
Example save_resolves_without_storing :
  let e := mkEnv (set_faults [false; true] (Example.world Rejected ExtractRejected))
             (Example.service local_db) in
  let r := LocalDbService.save "k" (VStr "v") e in
  fst r = Ok tt /\ idb (world (snd r)) !! "k" = None.
Proof. vm_compute. split; reflexivity. Qed.

(** ** The remote drive *)

Lemma fresh_is_pretty (xs : list string) : exists n : nat, fresh xs = pretty n.
Proof.
  unfold fresh, infinite_fresh, string_infinite, search_infinite.
  match goal with
  | |- context [@Fix_F ?A ?R ?P ?F ?x ?a] =>
      enough (H : forall n (acc : Acc R n), exists k : nat, @Fix_F A R P F n acc = pretty k)
        by apply H
  end.
  fix FIX 2. intros n [acc]. simpl. unfold search_infinite_go at 1.
  destruct (decide _) as [Hin|Hin]; [apply FIX | eauto].
Qed.

Lemma pretty_N_go_length (x : N) : forall s,
  (String.length s <= String.length (pretty_N_go x s))%nat.
Proof.
  induction (N.lt_wf_0 x) as [x _ IH]; intros s.
  destruct (decide (x = 0%N)) as [->|Hx]; [rewrite pretty_N_go_0; lia|].
  rewrite pretty_N_go_step by lia.
  etrans; [|apply IH, N.div_lt; lia]. simpl. lia.
Qed.

Lemma pretty_nat_nonempty (n : nat) : pretty n <> "".
Proof.
  unfold pretty, pretty_nat, pretty, pretty_N.
  destruct (decide _) as [_|Hn]; [discriminate|].
  rewrite pretty_N_go_step by lia. intros H.
  assert (Hl := pretty_N_go_length (N.of_nat n `div` 10)
                  (String (pretty_N_char (N.of_nat n `mod` 10)) "")).
  rewrite H in Hl. simpl in Hl. lia.
Qed.

Lemma fresh_not_empty (xs : list string) : fresh xs <> "".
Proof. destruct (fresh_is_pretty xs) as [n ->]. apply pretty_nat_nonempty. Qed.


Lemma patched_ids_not_empty (files : list DriveFile) name mime content target :
  Forall (fun f => DriveFile.id f <> "") files ->
  Forall (fun f => DriveFile.id f <> "")
    ((fun f => if bool_decide (DriveFile.id f = target)
               then DriveFile.mk target name mime (DriveFile.parents f)
                      (DriveFile.trashed f) content
               else f) <$> files).
Proof.
  intros H. apply Forall_fmap. eapply Forall_impl; [exact H|].
  intros f Hf. simpl. case_bool_decide as Hid; [simpl; congruence | exact Hf].
Qed.

(** What a save leaves behind, no fault occurring. *)
Lemma saveData_ok (d : UserData) (e : Env) :
  faults (world e) = [] ->
  Forall (fun f => DriveFile.id f <> "") (cloud (world e)) ->
  exists e',
    GoogleDriveService.saveData d e = (Ok tt, e')
    /\ faults (world e') = []
    /\ mode (svc e') = mode (svc e)
    /\ Forall (fun f => DriveFile.id f <> "") (cloud (world e'))
    /\ (mode (svc e) = drive -> Shape.named GoogleDriveService.FILE_NAME (cloud (world e')) <> [])
    /\ (mode (svc e) <> drive -> cloud (world e') = cloud (world e))
    /\ (Shape.named GoogleDriveService.FILE_NAME (cloud (world e)) <> [] ->
        length (cloud (world e')) = length (cloud (world e))).
Proof.
  destruct e as [w s]. intros Hf Hids.
  destruct w as [nw fl tk ru r36 rq db0 fs0 cl gl pg cs rs es],
           s as [tc tok dh ic md dbo].
  simpl in *. subst fl.
  unfold GoogleDriveService.saveData, GoogleDriveService.findFile, LocalDbService.save,
    LocalDbService.ensure_open, LocalDbService.init.
  destruct md.
  - run. fold (Shape.named GoogleDriveService.FILE_NAME cl).
    destruct (Shape.named GoogleDriveService.FILE_NAME cl) as [|f rest] eqn:Hfilter; run.
    + unfold GoogleDriveService.create_remote. run.
      eexists. split; [reflexivity|]. cbn [world svc faults mode cloud set_cloud set_idb set_fs set_db].
      repeat split; try congruence.
      * apply Forall_app. split; [exact Hids|].
        constructor; [apply fresh_not_empty | constructor].
      * intros _. unfold Shape.named in *.
        erewrite first_match_after_create by (first [exact Hfilter | reflexivity]).
        discriminate.
    + assert (Hin := matched_in_files _ _ _ _ Hfilter).
      assert (Hne : DriveFile.id f <> "").
      { rewrite Forall_forall in Hids. apply list_elem_of_fmap in Hin as (g & -> & Hg).
        apply Hids, Hg. }
      unfold JS.truthy_opt. destruct (DriveFile.id f) as [|c i] eqn:Eid; [congruence|].
      cbn [JS.truthy_str]. unfold GoogleDriveService.patch_remote. run.
      rewrite bool_decide_eq_true_2 by exact Hin. run.
      eexists. split; [reflexivity|]. cbn [world svc faults mode cloud set_cloud set_idb set_fs set_db].
      repeat split; try congruence.
      * apply patched_ids_not_empty, Hids.
      * intros _.
        destruct (first_match_after_patch GoogleDriveService.FILE_NAME "application/json"
                    (GoogleDriveService.document d) (String c i) cl f rest Hfilter Eid)
          as (f' & rest' & Hm & _).
        unfold Shape.named. rewrite Hm. discriminate.
      * intros _. apply length_fmap.
  - destruct dbo; run; eexists; (split; [reflexivity|]); cbn [world svc faults mode cloud set_cloud set_idb set_fs set_db];
      repeat split; try congruence; exact Hids.
  - destruct dh; run.
    + destruct (fs0 !! GoogleDriveService.FILE_NAME); run;
        eexists; (split; [reflexivity|]); cbn [world svc faults mode cloud set_cloud set_idb set_fs set_db];
        repeat split; try congruence; exact Hids.
    + destruct dbo; run; eexists; (split; [reflexivity|]); cbn [world svc faults mode cloud set_cloud set_idb set_fs set_db];
        repeat split; try congruence; exact Hids.
Qed.

(** Loading what the last save wrote. *)
Lemma load_after_save (d : UserData) (e : Env) :
  faults (world e) = [] ->
  Forall (fun f => DriveFile.id f <> "") (cloud (world e)) ->
  (mode (svc e) = local_db \/ json_safe d) ->
  exists e1 e2,
    GoogleDriveService.saveData d e = (Ok tt, e1)
    /\ (fileId ← GoogleDriveService.findFile GoogleDriveService.FILE_NAME None;
        GoogleDriveService.downloadData (default "" fileId)) e1
       = (Ok (Encode.userData d), e2)
    /\ cloud (world e2) = cloud (world e1).
Proof.
  destruct e as [w s]. intros Hf Hids Hs.
  destruct w as [nw fl tk ru r36 rq db0 fs0 cl gl pg cs rs es],
           s as [tc tok dh ic md dbo].
  simpl in *. subst fl.
  unfold GoogleDriveService.saveData, GoogleDriveService.downloadData,
    GoogleDriveService.findFile, LocalDbService.save, LocalDbService.get,
    LocalDbService.ensure_open, LocalDbService.init.
  assert (Hidb : forall (idb0 : gmap string jsval),
    truthy_val (<[GoogleDriveService.STORAGE_IDB_KEY := Encode.userData d]> idb0
                !! GoogleDriveService.STORAGE_IDB_KEY) = true
    /\ default VUndef (<[GoogleDriveService.STORAGE_IDB_KEY := Encode.userData d]> idb0
                !! GoogleDriveService.STORAGE_IDB_KEY) = Encode.userData d).
  { intros idb0. rewrite lookup_insert_eq. split; reflexivity. }
  destruct md.
  - destruct Hs as [Hs|Hs]; [discriminate|].
    run.
    destruct (filter _ cl) as [|f rest] eqn:Hfilter; run.
    + unfold GoogleDriveService.create_remote. run.
      eexists _, _. split; [reflexivity|]. run.
      erewrite first_match_after_create by (first [exact Hfilter | reflexivity]). run.
      rewrite filter_app, filter_fresh_id. simpl app.
      rewrite filter_cons, decide_True by reflexivity. run.
      rewrite document_safe by exact Hs. split; reflexivity.
    + assert (Hin := matched_in_files _ _ _ _ Hfilter).
      assert (Hne : DriveFile.id f <> "").
      { rewrite Forall_forall in Hids. apply list_elem_of_fmap in Hin as (g & -> & Hg).
        apply Hids, Hg. }
      unfold JS.truthy_opt. destruct (DriveFile.id f) as [|c i] eqn:Eid; [congruence|].
      cbn [JS.truthy_str]. unfold GoogleDriveService.patch_remote. run.
      rewrite bool_decide_eq_true_2 by exact Hin. run.
      eexists _, _. split; [reflexivity|]. run.
      destruct (first_match_after_patch GoogleDriveService.FILE_NAME "application/json"
                  (GoogleDriveService.document d) (String c i) cl f rest Hfilter Eid)
        as (f' & rest' & -> & Hid'). run. rewrite Hid'.
      destruct (first_by_id_after_patch GoogleDriveService.FILE_NAME "application/json"
                  (GoogleDriveService.document d) (String c i) cl Hin)
        as (f'' & rest'' & -> & Hc). run. rewrite Hc.
      rewrite document_safe by exact Hs. split; reflexivity.
  - destruct dbo; run; eexists _, _; (split; [reflexivity|]); run;
      destruct (Hidb db0) as [-> ->]; run; split; reflexivity.
  - destruct dh; run.
    + destruct Hs as [Hs|Hs]; [discriminate|].
      destruct (fs0 !! GoogleDriveService.FILE_NAME); run;
        eexists _, _; (split; [reflexivity|]); run;
        rewrite lookup_insert_eq; run; rewrite document_safe by exact Hs; split; reflexivity.
    + destruct dbo; run; eexists _, _; (split; [reflexivity|]); run;
        destruct (Hidb db0) as [-> ->]; run; split; reflexivity.
Qed.

(** X3. In each backend mode, no fault occurring, after a first [saveData] a
    second [saveData] followed by the search and [downloadData] yields the
    snapshot saved last (its numbers being ones JSON can hold, outside the
    embedded database), and the second save and the load create no remote
    file: the document is overwritten, not duplicated.  Remote file
    identifiers are not empty. *)
Theorem second_save_replaces_the_first (m : Mode) (e : Env) (d1 d2 : UserData) :
  mode (svc e) = m ->
  faults (world e) = [] ->
  Forall (fun f => DriveFile.id f <> "") (cloud (world e)) ->
  (m = local_db \/ json_safe d2) ->
  exists e1 e2,
    GoogleDriveService.saveData d1 e = (Ok tt, e1)
    /\ save_then_load d2 e1 = (Ok (Encode.userData d2), e2)
    /\ length (cloud (world e2)) = length (cloud (world e1)).
Proof.
  intros Hm Hf Hids Hs.
  destruct (saveData_ok d1 e Hf Hids) as (e1 & H1 & Hf1 & Hm1 & Hids1 & Hd1 & Hn1 & _).
  assert (Hs1 : mode (svc e1) = local_db \/ json_safe d2)
    by (destruct Hs as [Hs|Hs]; [left; congruence | right; exact Hs]).
  destruct (load_after_save d2 e1 Hf1 Hids1 Hs1) as (e2 & e3 & H2 & H3 & Hc).
  destruct (saveData_ok d2 e1 Hf1 Hids1) as (e2' & H2' & _ & _ & _ & _ & Hn2 & Hl2).
  rewrite H2 in H2'. inversion H2'; subst e2'. clear H2'.
  exists e1, e3. split; [exact H1|]. split.
  - unfold save_then_load. rewrite run_bind, H2. exact H3.
  - rewrite Hc. destruct (decide (mode (svc e1) = drive)) as [Hd|Hd].
    + apply Hl2, Hd1. congruence.
    + rewrite Hn2 by exact Hd. reflexivity.
Qed.

Lemma second_save_replaces_the_first_witness :
  mode (svc (Example.env drive)) = drive
  /\ faults (world (Example.env drive)) = []
  /\ RoundTrip.json_safe Example.with_passkey
  /\ exists e1 e2,
       GoogleDriveService.saveData Example.mixed (Example.env drive) = (Ok tt, e1)
       /\ RoundTrip.save_then_load Example.with_passkey e1
          = (Ok (Encode.userData Example.with_passkey), e2)
       /\ length (cloud (world e2)) = length (cloud (world e1)).
Proof.
  assert (Hsafe : RoundTrip.json_safe Example.with_passkey).
  { unfold RoundTrip.json_safe. vm_compute. repeat constructor. }
  split; [reflexivity | split; [reflexivity | split; [exact Hsafe|]]].
  apply (second_save_replaces_the_first drive (Example.env drive) Example.mixed
           Example.with_passkey).
  - reflexivity.
  - reflexivity.
  - constructor.
  - right. exact Hsafe.
Defined.

Lemma truthy_str_not_empty (s : string) : s <> "" -> JS.truthy_str s = true.
Proof. destruct s; [congruence | reflexivity]. Qed.



(** A name with an apostrophe, on the sample drive. *)
Example ensureFolder_rejects_an_apostrophe :
  fst (GoogleDriveService.ensureFolder "McDonald's" None (Example.env drive))
  = Throw "Invalid Value".
Proof. vm_compute. reflexivity. Qed.

(** ** The spreadsheet mirror *)

Lemma patched_by_id (files : list DriveFile) name mime content target g :
  g ∈ (fun f => if bool_decide (DriveFile.id f = target)
                then DriveFile.mk target name mime (DriveFile.parents f)
                       (DriveFile.trashed f) content
                else f) <$> files ->
  DriveFile.id g = target ->
  DriveFile.name g = name /\ DriveFile.content g = content.
Proof.
  intros Hg Hid. apply list_elem_of_fmap in Hg as (f & -> & _).
  revert Hid. case_bool_decide as Hf; [split; reflexivity | contradiction].
Qed.

(** One mirroring on the remote drive, no fault occurring: the sheet's
    identifier, a sheet that the next search finds first, and what the
    drive holds under that identifier. *)
Lemma syncToSpreadsheet_ok (entries : list FinanceEntry) (e : Env) :
  mode (svc e) = drive ->
  faults (world e) = [] ->
  Forall (fun f => DriveFile.id f <> "") (cloud (world e)) ->
  exists id e' f rest,
    GoogleDriveService.syncToSpreadsheet entries e = (Ok (Some id), e')
    /\ id <> ""
    /\ mode (svc e') = drive /\ faults (world e') = []
    /\ Forall (fun f => DriveFile.id f <> "") (cloud (world e'))
    /\ Shape.named GoogleDriveService.SHEET_NAME (cloud (world e')) = f :: rest
    /\ DriveFile.id f = id
    /\ (Shape.named GoogleDriveService.SHEET_NAME (cloud (world e)) <> [] ->
        length (cloud (world e')) = length (cloud (world e))
        /\ exists f0 rest0,
             Shape.named GoogleDriveService.SHEET_NAME (cloud (world e)) = f0 :: rest0
             /\ DriveFile.id f0 = id)
    /\ Shape.mirrors id entries (cloud (world e')).
Proof.
  destruct e as [w s]. cbn [svc world]. intros Hm Hf Hids.
  destruct w as [nw fl tk ru r36 rq db0 fs0 cl gl pg cs rs es],
           s as [tc tok dh ic md dbo].
  cbn [mode faults cloud] in *. subst fl md.
  unfold GoogleDriveService.syncToSpreadsheet, GoogleDriveService.findFile. run.
  fold (Shape.named GoogleDriveService.SHEET_NAME cl).
  destruct (Shape.named GoogleDriveService.SHEET_NAME cl) as [|f rest] eqn:Hfilter; run.
  - unfold GoogleDriveService.create_remote. run.
    eexists _, _, _, _. split; [reflexivity|].
    cbn [world svc faults mode cloud set_cloud].
    split; [apply fresh_not_empty|]. split; [reflexivity|]. split; [reflexivity|].
    split; [apply Forall_app; split; [exact Hids|];
            constructor; [apply fresh_not_empty | constructor]|].
    split; [unfold Shape.named in *;
            apply first_match_after_create; [exact Hfilter | reflexivity]|].
    split; [reflexivity|]. split; [congruence|].
    split.
    + eexists. split; [apply elem_of_app; right; apply list_elem_of_here | reflexivity].
    + intros g Hg Hid. apply elem_of_app in Hg as [Hg|Hg].
      * exfalso. apply (infinite_is_fresh (DriveFile.id <$> cl)).
        rewrite <- Hid. apply list_elem_of_fmap. eauto.
      * apply list_elem_of_singleton in Hg. subst g. split; reflexivity.
  - assert (Hin := matched_in_files _ _ _ _ Hfilter).
    assert (Hne : DriveFile.id f <> "").
    { rewrite Forall_forall in Hids. apply list_elem_of_fmap in Hin as (g & -> & Hg).
      apply Hids, Hg. }
    rewrite (truthy_str_not_empty _ Hne).
    unfold GoogleDriveService.patch_remote. run.
    rewrite bool_decide_eq_true_2 by exact Hin. run.
    destruct (first_match_after_patch GoogleDriveService.SHEET_NAME
                "application/vnd.google-apps.spreadsheet" (Csv entries)
                (DriveFile.id f) cl f rest Hfilter eq_refl)
      as (f' & rest' & Hm' & Hid').
    eexists _, _, f', rest'. split; [reflexivity|].
    cbn [world svc faults mode cloud set_cloud].
    split; [exact Hne|]. split; [reflexivity|]. split; [reflexivity|].
    split; [apply patched_ids_not_empty, Hids|].
    split; [exact Hm'|]. split; [exact Hid'|].
    split; [intros _; split; [apply length_fmap | eauto]|].
    split.
    + exists f'. split; [|exact Hid'].
      assert (Hf' : f' ∈ f' :: rest') by apply list_elem_of_here.
      rewrite <- Hm' in Hf'. unfold Shape.named in Hf'.
      apply list_elem_of_filter in Hf' as [_ Hf']. exact Hf'.
    + intros g Hg Hid. eapply patched_by_id; [exact Hg | exact Hid].
Qed.

(** X5. [syncToSpreadsheet] returns [null] and does nothing outside the
    remote-drive mode.  On the remote drive, no fault occurring, it returns
    an identifier that is not empty, under which the drive then has the
    sheet (a file of that name) holding the rows of the entries given; the
    next call returns the same identifier, leaves the sheet holding the
    rows of its own entries, and creates no file: the sheet is made once
    and rewritten afterwards. *)
Theorem spreadsheet_is_reused (entries entries' : list FinanceEntry) (e : Env) :
  faults (world e) = [] ->
  Forall (fun f => DriveFile.id f <> "") (cloud (world e)) ->
  (mode (svc e) <> drive ->
   GoogleDriveService.syncToSpreadsheet entries e = (Ok None, e))
  /\ (mode (svc e) = drive ->
      exists id e1 e2,
        GoogleDriveService.syncToSpreadsheet entries e = (Ok (Some id), e1)
        /\ id <> ""
        /\ Shape.mirrors id entries (cloud (world e1))
        /\ GoogleDriveService.syncToSpreadsheet entries' e1 = (Ok (Some id), e2)
        /\ Shape.mirrors id entries' (cloud (world e2))
        /\ length (cloud (world e2)) = length (cloud (world e1))).
Proof.
  intros Hf Hids. split.
  - intros Hm. unfold GoogleDriveService.syncToSpreadsheet. run.
    rewrite bool_decide_eq_false_2 by exact Hm. reflexivity.
  - intros Hm.
    destruct (syncToSpreadsheet_ok entries e Hm Hf Hids)
      as (id & e1 & f & rest & H1 & Hne & Hm1 & Hf1 & Hids1 & Hn1 & Hid1 & _ & Hsheet1).
    destruct (syncToSpreadsheet_ok entries' e1 Hm1 Hf1 Hids1)
      as (id' & e2 & f' & rest' & H2 & _ & _ & _ & _ & _ & _ & Hsame & Hsheet2).
    destruct Hsame as (Hlen & f0 & rest0 & Hn0 & Hid0); [rewrite Hn1; discriminate|].
    rewrite Hn1 in Hn0. injection Hn0 as <- <-.
    rewrite <- Hid0, Hid1 in H2, Hsheet2.
    exists id, e1, e2. split; [exact H1|]. split; [exact Hne|].
    split; [exact Hsheet1|]. split; [exact H2|]. split; [exact Hsheet2 | exact Hlen].
Qed.

Lemma spreadsheet_is_reused_witness :
  faults (world (Example.env drive)) = []
  /\ exists id e1 e2,
       GoogleDriveService.syncToSpreadsheet (UserData.entries Example.mixed)
         (Example.env drive) = (Ok (Some id), e1)
       /\ GoogleDriveService.syncToSpreadsheet [Example.yen] e1 = (Ok (Some id), e2)
       /\ Shape.mirrors id [Example.yen] (cloud (world e2))
       /\ length (cloud (world e2)) = length (cloud (world e1)).
Proof.
  split; [reflexivity|].
  destruct (spreadsheet_is_reused (UserData.entries Example.mixed) [Example.yen]
              (Example.env drive) eq_refl) as [_ H]; [constructor|].
  destruct (H eq_refl) as (id & e1 & e2 & H1 & _ & _ & H2 & Hs & Hl).
  exists id, e1, e2. auto.
Defined.

(** ** Archiving in the granted directory *)

(** X6. In the local-directory mode, no fault occurring, with a month, an
    account name and a file name that the directory takes (not empty, not
    [.] nor [..], without [/]), [archiveStatement] of content that [atob]
    accepts returns the reference [fs://<month>/<account>/<file>], and the
    file [Statement_<date>_<suffix>.png] under
    [FinAA Archive/<month>/<account>] holds the content; of content that
    [atob] rejects it returns [null], and the file it had created stays
    behind, empty (one that existed keeps what it held).  No other file is
    touched.  With a name the directory refuses (an account [A/B], a date
    [10/06/2025]) it returns [null] and writes nothing. *)
Theorem archive_in_directory (base64 mimeType accountName date : string) (e : Env) :
  mode (svc e) = local_fs -> directoryHandle (svc e) = true ->
  faults (world e) = [] ->
  let monthStr := JS.slice0 7 date in
  let fileName :=
    "Statement_" +:+ date +:+ "_" +:+ random36 (world e) (ticks (world e)) +:+ ".png" in
  let p := GoogleDriveService.path
             [GoogleDriveService.ROOT_FOLDER_NAME; monthStr; accountName; fileName] in
  let taken :=
    GoogleDriveService.valid_name monthStr && GoogleDriveService.valid_name accountName
    && GoogleDriveService.valid_name fileName in
  let r := GoogleDriveService.archiveStatement base64 mimeType accountName date e in
  (taken = true -> JS.atob_ok base64 = true ->
     fst r = Ok (Some ("fs://" +:+ monthStr +:+ "/" +:+ accountName +:+ "/" +:+ fileName))
     /\ fs (world (snd r)) !! p = Some (Bytes base64))
  /\ (taken = true -> JS.atob_ok base64 = false ->
      fst r = Ok None
      /\ fs (world (snd r)) !! p = Some (default (Bytes "") (fs (world e) !! p)))
  /\ (taken = false -> fst r = Ok None /\ fs (world (snd r)) = fs (world e))
  /\ forall q, q <> p -> fs (world (snd r)) !! q = fs (world e) !! q.
Proof.
  destruct e as [w s].
  destruct w as [nw fl tk ru r36 rq db0 fs0 cl gl pg cs rs es],
           s as [tc tok dh ic md dbo].
  cbn [svc world mode directoryHandle faults]. intros -> -> ->. cbv zeta.
  unfold GoogleDriveService.archiveStatement, GoogleDriveService.handle_for, draw,
    try_catch. run.
  set (p := GoogleDriveService.path _).
  destruct (GoogleDriveService.valid_name (JS.slice0 7 date));
    [|run; cbn [andb]; repeat split; intros; first [discriminate | reflexivity]].
  run.
  destruct (GoogleDriveService.valid_name accountName);
    [|run; cbn [andb]; repeat split; intros; first [discriminate | reflexivity]].
  run.
  destruct (GoogleDriveService.valid_name _);
    [|run; cbn [andb]; repeat split; intros; first [discriminate | reflexivity]].
  run. cbn [andb].
  destruct (fs0 !! p) as [old|] eqn:Hold; destruct (JS.atob_ok base64); run;
    (split; [intros _ H;
             first [ discriminate H
                   | split; [reflexivity|]; cbn [world fs snd set_fs];
                     rewrite ?lookup_insert_eq, ?Hold; reflexivity ]|]);
    (split; [intros _ H;
             first [ discriminate H
                   | split; [reflexivity|]; cbn [world fs snd set_fs];
                     rewrite ?lookup_insert_eq, ?Hold; reflexivity ]|]);
    (split; [intros H; discriminate H|]);
    intros q Hq; cbn [world fs snd set_fs]; rewrite ?lookup_insert_ne by congruence;
    reflexivity.
Qed.

Lemma archive_in_directory_witness :
  mode (svc (Example.env local_fs)) = local_fs
  /\ directoryHandle (svc (Example.env local_fs)) = true
  /\ faults (world (Example.env local_fs)) = []
  /\ JS.atob_ok "aGVsbG8=" = true
  /\ fst (GoogleDriveService.archiveStatement "aGVsbG8=" "image/png" "Tesco" "2025-06-10"
            (Example.env local_fs))
     = Ok (Some "fs://2025-06/Tesco/Statement_2025-06-10_r0.png").
Proof.
  split; [reflexivity | split; [reflexivity | split; [reflexivity | split; [reflexivity|]]]].
  destruct (archive_in_directory "aGVsbG8=" "image/png" "Tesco" "2025-06-10"
              (Example.env local_fs) eq_refl eq_refl eq_refl) as (Hvalid & _).
  destruct (Hvalid eq_refl eq_refl) as [Hr _]. rewrite Hr. reflexivity.
Defined.

(** A date written with slashes. *)
Example archive_refuses_a_slash :
  fst (GoogleDriveService.archiveStatement "aGVsbG8=" "image/png" "Tesco" "10/06/2025"
         (Example.env local_fs))
  = Ok None.
Proof. vm_compute. reflexivity. Qed.

(** ** The rate table a refresh fetches *)

Lemma set_keeps_key {A} (base c : string) (x : A) (r : gmap string A) :
  is_Some (r !! base) -> is_Some (JS.set c x r !! base).
Proof.
  intros H. unfold JS.set.
  destruct (r !! c) eqn:Hc; [|case_bool_decide; [exact H|]];
    (destruct (decide (c = base)) as [->|Hne];
     [rewrite lookup_insert_eq; eauto | rewrite lookup_insert_ne by exact Hne; exact H]).
Qed.

Lemma add_rate_keeps_keys base items : forall acc rates,
  match acc with Ok r => is_Some (r !! base) | _ => True end ->
  fold_left GeminiService.add_rate items acc = Ok rates ->
  is_Some (rates !! base).
Proof.
  induction items as [|item items IH]; intros acc rates Hacc; simpl.
  - intros ->. exact Hacc.
  - apply IH. destruct acc as [r| |]; simpl; try exact I.
    destruct item as [| | | | | |ps]; try exact Hacc; try exact I.
    destruct (Decode.get "code" ps) as [code|]; [|exact Hacc].
    destruct (Decode.get "rate" ps) as [[| | |rate| | |]|]; try exact Hacc.
    destruct code as [| | | |c| |]; simpl;
      repeat match goal with |- context [if ?b then _ else _] => destruct b end;
      try exact Hacc; try exact I.
    apply set_keeps_key, Hacc.
Qed.

(** X7. Whenever [fetchExchangeRates] resolves, the table it returns has an
    entry for the base currency, and the call has changed neither the stores
    nor the service objects; when no requested code differs from the base
    currency, the table is exactly [{base: 1}]. *)
Theorem fetched_table_lists_the_base (base : string) (targets : list string)
    (e e' : Env) (rates : gmap string JS.number) :
  GeminiService.fetchExchangeRates base targets e = (Ok rates, e') ->
  e' = e
  /\ is_Some (rates !! base)
  /\ (Forall (fun c => c = base) targets -> rates = {[ base := 1%float ]}).
Proof.
  assert (Hone : is_Some (({[ base := 1%float ]} : gmap string JS.number) !! base))
    by (rewrite lookup_singleton_eq; eauto).
  unfold GeminiService.fetchExchangeRates.
  destruct targets as [|t targets].
  { intros [= <- <-]. auto. }
  destruct (filter _ _) as [|x xs] eqn:Hfilter.
  { intros [= <- <-]. auto. }
  run. intros H.
  assert (Hforeign : ~ Forall (fun c => c = base) (t :: targets)).
  { intros Hall. assert (Hx : x ∈ filter (fun c => c ≠ base) (JS.dedupe (t :: targets)))
      by (rewrite Hfilter; apply list_elem_of_here).
    apply list_elem_of_filter in Hx as [Hne Hx]. rewrite elem_of_dedupe in Hx.
    rewrite Forall_forall in Hall. apply Hne, Hall, Hx. }
  destruct (rate_service (world e)) as [|t0]; [discriminate H|].
  destruct (GeminiService.read_rates base t0) as [r|msg|] eqn:Hread;
    run; inversion H; subst; clear H.
  - split; [reflexivity|]. split; [|intros Hall; contradiction].
    unfold GeminiService.read_rates in Hread.
    destruct (JSON.parse _) as [data|]; [|discriminate Hread].
    destruct data; try discriminate Hread;
      match type of Hread with
      | match ?x with _ => _ end = _ => destruct x
      end;
      first [ injection Hread as <-; exact Hone
            | eapply add_rate_keeps_keys; [|exact Hread]; exact Hone ].
  - split; [reflexivity|]. split; [exact Hone | intros Hall; contradiction].
Qed.

Lemma fetched_table_lists_the_base_witness :
  exists rates e',
    GeminiService.fetchExchangeRates "USD" ["GBP"; "USD"]
      (mkEnv (Example.world Sample.sterling ExtractRejected) (Example.service local_db))
    = (Ok rates, e')
    /\ is_Some (rates !! "USD").
Proof.
  eexists _, _. split; [vm_compute; reflexivity|].
  eapply (fetched_table_lists_the_base "USD" ["GBP"; "USD"]
            (mkEnv (Example.world Sample.sterling ExtractRejected)
               (Example.service local_db))).
  vm_compute. reflexivity.
Defined.

(** ** Exceptions that stop at a handler *)

Section NeverThrows.

Context {S : Type}.

Lemma never_throws_ret {A} (a : A) : never_throws (mret a : ST S A).
Proof. intros s msg. discriminate. Qed.

Lemma never_throws_gets {A} (f : S -> A) : never_throws (gets f).
Proof. intros s msg. discriminate. Qed.

Lemma never_throws_modify (f : S -> S) : never_throws (modify f).
Proof. intros s msg. discriminate. Qed.

Lemma never_throws_bind {A B} (m : ST S A) (f : A -> ST S B) :
  never_throws m -> (forall a, never_throws (f a)) -> never_throws (m ≫= f).
Proof.
  intros Hm Hf s msg. rewrite run_bind. specialize (Hm s).
  destruct (m s) as [[a|e|] s']; simpl in *.
  - apply Hf.
  - destruct (Hm e). reflexivity.
  - discriminate.
Qed.

Lemma never_throws_try_catch {A} (m : ST S A) h :
  (forall e, never_throws (h e)) -> never_throws (try_catch m h).
Proof.
  intros Hh s msg. unfold try_catch.
  destruct (m s) as [[a|e|] s']; simpl; [discriminate | apply Hh | discriminate].
Qed.

Lemma never_throws_try_finally {A} (m : ST S A) f :
  never_throws m -> never_throws f -> never_throws (try_finally m f).
Proof.
  intros Hm Hf s msg. unfold try_finally. specialize (Hm s).
  destruct (m s) as [[a|e|] s']; simpl in *.
  - specialize (Hf s'). destruct (f s') as [[[]|e|] s'']; simpl in *;
      [discriminate | destruct (Hf e); reflexivity | discriminate].
  - destruct (Hm e). reflexivity.
  - discriminate.
Qed.

End NeverThrows.

Lemma never_throws_modify_app f : never_throws (modify_app f).
Proof. apply never_throws_modify. Qed.

Lemma updateExchangeRates_never_throws d : never_throws (App.updateExchangeRates d).
Proof.
  unfold App.updateExchangeRates. destruct (App.currenciesUsed d).
  - apply never_throws_ret.
  - apply never_throws_try_catch. intros e. apply never_throws_ret.
Qed.

Lemma syncToCloud_never_throws d : never_throws (App.syncToCloud d).
Proof.
  unfold App.syncToCloud. apply never_throws_bind; [apply never_throws_modify_app|].
  intros _. apply never_throws_try_catch. intros e.
  apply never_throws_bind; [apply never_throws_modify_app|].
  intros _. apply never_throws_ret.
Qed.

Lemma with_user_never_throws k :
  (forall now d, never_throws (k now d)) -> never_throws (App.with_user k).
Proof.
  intros Hk. unfold App.with_user.
  apply never_throws_bind; [apply never_throws_gets|]. intros u.
  apply never_throws_bind; [apply never_throws_gets|]. intros now.
  destruct u; [apply Hk | apply never_throws_ret].
Qed.

Lemma handleLogin_never_throws m : never_throws (App.handleLogin m).
Proof.
  unfold App.handleLogin.
  apply never_throws_bind; [apply never_throws_modify_app|]. intros _.
  apply never_throws_try_finally; [|apply never_throws_modify_app].
  apply never_throws_try_catch. intros e. apply never_throws_modify_app.
Qed.

(** What a rate refresh can change of the controller's state: the snapshot,
    by its rate table. *)
Lemma refresh_changes_rates_only d s :
  let s' := snd (App.updateExchangeRates d s) in
  exists u,
    app s' = mkApp u (isAuthenticated (app s)) (isLoading (app s)) (isVaultLocked (app s))
               (activeTab (app s)) (syncStatus (app s)) (authError (app s))
    /\ (u = user (app s) \/ exists rates, u = Some (App.with_exchangeRates (Some rates) d)).
Proof.
  unfold App.updateExchangeRates. destruct s as [a e].
  destruct (App.currenciesUsed d) as [|c used].
  { simpl. exists (user a). destruct a; split; [reflexivity | left; reflexivity]. }
  unfold try_catch. run. rewrite run_lift. cbn [app env].
  destruct (GeminiService.fetchExchangeRates _ _ e) as [[rates|msg|] e1]; run;
    try (exists (user a); destruct a; split; [reflexivity | left; reflexivity]).
  unfold setUser, modify_app. run. rewrite run_lift. cbn [app env].
  destruct (GoogleDriveService.saveData _ _) as [[[]|msg|] e2]; simpl;
    eexists; (split; [reflexivity | right; eauto]).
Qed.

(** ** Logging in *)

Lemma or_else_str_not_empty s d : d <> "" -> JS.or_else_str s d <> "".
Proof. intros Hd. unfold JS.or_else_str. destruct s; [exact Hd | discriminate]. Qed.

(** What [handleLogin] does once it holds [data], field by field. *)
Lemma session_start data s :
  let r := (_ ← setUser (Some data);
            _ ← setIsAuthenticated true;
            _ ← (if Settings.biometricEnabled (UserData.settings data)
                 then setIsVaultLocked true else mret tt);
            App.updateExchangeRates data) s in
  isAuthenticated (app (snd r)) = true
  /\ authError (app (snd r)) = authError (app s)
  /\ is_Some (user (app (snd r)))
  /\ forall message, fst r <> Throw message.
Proof.
  unfold setUser, setIsAuthenticated, setIsVaultLocked, modify_app. run.
  destruct (Settings.biometricEnabled (UserData.settings data)); run;
    match goal with
    | |- context [App.updateExchangeRates data ?st] =>
        pose proof (refresh_changes_rates_only data st) as H; cbv zeta in H;
        pose proof (updateExchangeRates_never_throws data st) as Hn;
        destruct (App.updateExchangeRates data st) as [r st']
    end;
    cbn [app snd fst user isAuthenticated isVaultLocked authError] in *;
    destruct H as (u & -> & Hu); cbn [isAuthenticated authError user];
    (split; [reflexivity|]); (split; [reflexivity|]);
    (split; [destruct Hu as [-> | [rates ->]]; eauto | exact Hn]).
Qed.

(** X8. [handleLogin] never rejects, whatever fails underneath.  When it
    resolves, the loading flag is off, and either the session is open
    (authenticated, no error message, a snapshot loaded), or an error
    message that is not empty is set and the authentication flag, the vault
    gate and the snapshot are as they were. *)
Theorem login_opens_or_reports (m : Mode) (s : State) :
  let r := App.handleLogin m s in
  (forall message, fst r <> Throw message)
  /\ (fst r = Ok tt ->
      isLoading (app (snd r)) = false
      /\ ((isAuthenticated (app (snd r)) = true
           /\ authError (app (snd r)) = None
           /\ is_Some (user (app (snd r))))
          \/ (exists message,
                authError (app (snd r)) = Some message /\ message <> ""
                /\ isAuthenticated (app (snd r)) = isAuthenticated (app s)
                /\ isVaultLocked (app (snd r)) = isVaultLocked (app s)
                /\ user (app (snd r)) = user (app s)))).
Proof.
  cbv zeta. split; [apply handleLogin_never_throws|].
  assert (Hmsg : forall message,
            JS.or_else_str message "Could not access storage. Check permissions." <> "")
    by (intros message; apply or_else_str_not_empty; discriminate).
  unfold App.handleLogin, try_finally, try_catch.
  unfold setAuthError, setIsLoading, modify_app. run.
  rewrite run_lift. cbn [app env user isAuthenticated isVaultLocked].
  destruct (GoogleDriveService.login m (env s)) as [[b|msg|] e1]; run;
    try solve [intros _; split; [reflexivity | right; eexists; repeat split; first [reflexivity | apply Hmsg]]];
    try discriminate.
  rewrite run_lift. cbn [app env user isAuthenticated isVaultLocked].
  destruct (GoogleDriveService.findFile _ _ e1) as [[fileId|msg|] e2]; run;
    try solve [intros _; split; [reflexivity | right; eexists; repeat split; first [reflexivity | apply Hmsg]]];
    try discriminate.
  assert (Hstart : forall data st,
    authError (app st) = None ->
    let r := match
        (setUser (Some data)
         ≫= (fun _ : () => setIsAuthenticated true
         ≫= (fun _ : () => (if Settings.biometricEnabled (UserData.settings data)
                            then setIsVaultLocked true else mret ())
         ≫= (fun _ : () => App.updateExchangeRates data)))) st
      with
      | (Throw e, s') =>
          (Ok (), {| app := mkApp (user (app s')) (isAuthenticated (app s')) (isLoading (app s'))
                              (isVaultLocked (app s')) (activeTab (app s')) (syncStatus (app s'))
                              (Some (JS.or_else_str e "Could not access storage. Check permissions."));
                     env := env s' |})
      | r => r
      end in
    fst r = Ok tt ->
    isAuthenticated (app (snd r)) = true /\ authError (app (snd r)) = None
    /\ is_Some (user (app (snd r)))).
  { intros data st Herr. cbv zeta.
    pose proof (session_start data st) as H. cbv zeta in H.
    destruct ((setUser (Some data) ≫= _) st) as [[[]|e|] st']; cbn [fst snd] in *.
    - intros _. destruct H as (Ha & He & Hu & _). rewrite He. auto.
    - destruct H as (_ & _ & _ & Hn). destruct (Hn e). reflexivity.
    - discriminate. }
  destruct (JS.truthy_opt fileId) as [id|]; run; rewrite run_lift;
    cbn [app env user isAuthenticated isVaultLocked].
  - destruct (GoogleDriveService.downloadData id e2) as [[v|msg|] e3]; run;
      try discriminate.
    + unfold App.typed. destruct (Decode.userData v) as [l|]; run.
      * rewrite <- !run_bind.
        match goal with
        | |- context [(setUser (Some ?a) ≫= ?k) ?st] =>
            specialize (Hstart a st eq_refl); cbv zeta in Hstart;
            destruct (match (setUser (Some a) ≫= k) st with
                      | (Throw e, s') => _ | r => r end) as [[[]|e|] st']
        end; cbn [fst snd] in *; run; try discriminate.
        intros _. split; [reflexivity|]. left. cbn [app isAuthenticated authError user].
        apply Hstart. reflexivity.
      * unfold illTyped. simpl. discriminate.
    + rewrite <- !run_bind.
      match goal with
      | |- context [(setUser (Some ?a) ≫= ?k) ?st] =>
          specialize (Hstart a st eq_refl); cbv zeta in Hstart;
          destruct (match (setUser (Some a) ≫= k) st with
                    | (Throw e, s') => _ | r => r end) as [[[]|e|] st']
      end; cbn [fst snd] in *; run; try discriminate.
      intros _. split; [reflexivity|]. left. cbn [app isAuthenticated authError user].
      apply Hstart. reflexivity.
  - destruct (GoogleDriveService.saveData _ e2) as [[[]|msg|] e3]; run;
      try solve [intros _; split; [reflexivity | right; eexists; repeat split; first [reflexivity | apply Hmsg]]];
      try discriminate.
    rewrite <- !run_bind.
    match goal with
    | |- context [(setUser (Some ?a) ≫= ?k) ?st] =>
        specialize (Hstart a st eq_refl); cbv zeta in Hstart;
        destruct (match (setUser (Some a) ≫= k) st with
                  | (Throw e, s') => _ | r => r end) as [[[]|e|] st']
    end; cbn [fst snd] in *; run; try discriminate.
    intros _. split; [reflexivity|]. left. cbn [app isAuthenticated authError user].
    apply Hstart. reflexivity.
Qed.

(** ** Saving from the controller *)

Lemma well_typed_lift {A} (m : IO A) : well_typed m -> well_typed (lift m).
Proof. intros Hm s. rewrite run_lift. apply Hm. Qed.

Lemma well_typed_modify_app f : well_typed (modify_app f).
Proof. apply well_typed_modify. Qed.

Lemma well_typed_localdb_save key data : well_typed (LocalDbService.save key data).
Proof.
  unfold LocalDbService.save, LocalDbService.ensure_open, LocalDbService.init.
  auto 20 with typed.
Qed.

Lemma well_typed_patch id name mime content :
  well_typed (GoogleDriveService.patch_remote id name mime content).
Proof. unfold GoogleDriveService.patch_remote. auto 10 with typed. Qed.

Lemma well_typed_saveData d : well_typed (GoogleDriveService.saveData d).
Proof.
  unfold GoogleDriveService.saveData.
  apply well_typed_bind; [apply well_typed_gets|]. intros m.
  apply well_typed_bind; [apply well_typed_gets|]. intros handle.
  destruct (bool_decide (m = local_fs) && handle); [auto 20 with typed|].
  destruct (bool_decide (m = drive)); [|apply well_typed_localdb_save].
  apply well_typed_bind; [apply well_typed_findFile|]. intros fileId.
  apply well_typed_bind; [apply well_typed_io|]. intros _.
  apply well_typed_bind; [|intros; apply well_typed_ret].
  destruct (JS.truthy_opt fileId); [apply well_typed_patch | apply well_typed_create].
Qed.

Lemma well_typed_syncToSpreadsheet entries :
  well_typed (GoogleDriveService.syncToSpreadsheet entries).
Proof.
  unfold GoogleDriveService.syncToSpreadsheet.
  apply well_typed_bind; [apply well_typed_gets|]. intros m.
  destruct (negb _); [apply well_typed_ret|].
  apply well_typed_bind; [apply well_typed_findFile|]. intros sheetId.
  apply well_typed_bind; [apply well_typed_io|]. intros _.
  apply well_typed_bind; [|intros; apply well_typed_ret].
  destruct (JS.truthy_opt sheetId); [apply well_typed_patch | apply well_typed_create].
Qed.

Lemma well_typed_syncToCloud d : well_typed (App.syncToCloud d).
Proof.
  unfold App.syncToCloud, setSyncStatus.
  apply well_typed_bind; [apply well_typed_modify_app|]. intros _.
  apply well_typed_try_catch.
  - apply well_typed_bind; [apply well_typed_lift, well_typed_saveData|]. intros _.
    apply well_typed_bind; [apply well_typed_gets|]. intros m.
    destruct (bool_decide _).
    + apply well_typed_bind; [apply well_typed_lift, well_typed_syncToSpreadsheet|].
      intros sheetId. destruct (JS.truthy_opt sheetId) as [id|].
      * destruct (bool_decide _).
        -- apply well_typed_bind; [apply well_typed_modify_app|]. intros _.
           apply well_typed_try_catch.
           ++ apply well_typed_bind; [apply well_typed_lift, well_typed_saveData|]. intros _.
              apply well_typed_bind; [apply well_typed_modify_app|]. intros _.
              apply well_typed_ret.
           ++ intros _. apply well_typed_bind; [apply well_typed_modify_app|]. intros _.
              apply well_typed_ret.
        -- apply well_typed_bind; [apply well_typed_modify_app|]. intros _.
           apply well_typed_ret.
      * apply well_typed_bind; [apply well_typed_modify_app|]. intros _.
        apply well_typed_ret.
    + apply well_typed_bind; [apply well_typed_modify_app|]. intros _.
      apply well_typed_ret.
  - intros _. apply well_typed_bind; [apply well_typed_modify_app|]. intros _.
    apply well_typed_ret.
Qed.

(** What a save can change of the controller's state: the status shown, and
    the spreadsheet identifier inside the snapshot. *)
Lemma sync_changes_sheet_only d s :
  let r := App.syncToCloud d s in
  exists u st,
    app (snd r) = mkApp u (isAuthenticated (app s)) (isLoading (app s))
                    (isVaultLocked (app s)) (activeTab (app s)) st (authError (app s))
    /\ (u = user (app s) \/ exists id, u = App.assign_spreadsheetId id <$> user (app s))
    /\ forall d', fst r = Ok d' ->
         st <> syncing /\ (d' = d \/ exists id, d' = App.assign_spreadsheetId id d).
Proof.
  cbv zeta. destruct s as [a e].
  unfold App.syncToCloud, try_catch, setSyncStatus, modify_app. run.
  rewrite run_lift. cbn [app env].
  assert (Hd : forall (d0 d' : UserData), Ok d0 = Ok d' -> d' = d0) by (intros ? ? [=]; auto).
  destruct (GoogleDriveService.saveData d e) as [[[]|msg|] e1]; run;
    try solve [eexists _, _; split; [reflexivity|]; split; [left; reflexivity|];
               intros d' H; split; [discriminate|];
               first [discriminate H | left; apply Hd in H; exact H]].
  destruct (bool_decide (mode (svc e1) = drive)); run;
    try solve [eexists _, _; split; [reflexivity|]; split; [left; reflexivity|];
               intros d' H; split; [discriminate|];
               first [discriminate H | left; apply Hd in H; exact H]].
  rewrite run_lift. cbn [app env].
  destruct (GoogleDriveService.syncToSpreadsheet _ e1) as [[sheetId|msg|] e2]; run;
    try solve [eexists _, _; split; [reflexivity|]; split; [left; reflexivity|];
               intros d' H; split; [discriminate|];
               first [discriminate H | left; apply Hd in H; exact H]].
  destruct (JS.truthy_opt sheetId) as [id|]; run;
    try solve [eexists _, _; split; [reflexivity|]; split; [left; reflexivity|];
               intros d' H; split; [discriminate|];
               first [discriminate H | left; apply Hd in H; exact H]].
  destruct (bool_decide _); run;
    try solve [eexists _, _; split; [reflexivity|]; split; [left; reflexivity|];
               intros d' H; split; [discriminate|];
               first [discriminate H | left; apply Hd in H; exact H]].
  rewrite run_lift. cbn [app env].
  destruct (GoogleDriveService.saveData _ e2) as [[[]|msg|] e3]; run;
    eexists _, _; (split; [reflexivity|]); (split; [right; eauto|]);
    intros d' H; first [discriminate H | split; [discriminate | right; apply Hd in H; eauto]].
Qed.

(** A save always resolves. *)
Lemma syncToCloud_resolves (d : UserData) (s : State) :
  exists d' s', App.syncToCloud d s = (Ok d', s').
Proof.
  pose proof (syncToCloud_never_throws d s) as Hn.
  pose proof (well_typed_syncToCloud d s) as Ht.
  destruct (App.syncToCloud d s) as [[d'|msg|] s']; cbn [fst] in *;
    [eauto | destruct (Hn msg); reflexivity | congruence].
Qed.

(** X9. [syncToCloud] resolves under every fault script: it never rejects,
    the status it leaves is not [syncing], the snapshot it was given comes
    back with its entries, goals and legacy profile unchanged, and the
    authentication flag and the vault gate are untouched. *)
Theorem syncToCloud_always_resolves (d : UserData) (s : State) :
  exists d' s',
    App.syncToCloud d s = (Ok d', s')
    /\ syncStatus (app s') <> syncing
    /\ UserData.entries d' = UserData.entries d
    /\ UserData.goals d' = UserData.goals d
    /\ UserData.legacy d' = UserData.legacy d
    /\ isAuthenticated (app s') = isAuthenticated (app s)
    /\ isVaultLocked (app s') = isVaultLocked (app s).
Proof.
  pose proof (sync_changes_sheet_only d s) as H. cbv zeta in H.
  destruct (syncToCloud_resolves d s) as (d' & s' & Heq).
  rewrite Heq in H. cbn [fst snd] in H.
  destruct H as (u & st & Happ & _ & Hd). destruct (Hd d' eq_refl) as [Hst Hd'].
  exists d', s'. split; [exact Heq|]. rewrite Happ.
  cbn [syncStatus isAuthenticated isVaultLocked].
  split; [exact Hst|].
  destruct Hd' as [-> | [id ->]]; repeat split; reflexivity.
Qed.

(** ** The intents, whatever the save does *)

Lemma addEntries_adds newEntries s current :
  user (app s) = Some current ->
  entries_of (snd (App.addEntries newEntries s)) = newEntries ++ UserData.entries current.
Proof.
  intros Hu. unfold App.addEntries, App.with_user. run. rewrite Hu.
  unfold setUser, modify_app. run.
  match goal with
  | |- context [App.syncToCloud ?d ?st] =>
      destruct (sync_keeps_entries d st) as [Hs Hd];
      destruct (App.syncToCloud d st) as [[d'|msg|] st']
  end; cbn [fst snd] in *; run; try exact Hs.
  specialize (Hd d' eq_refl).
  pose proof (refresh_keeps_entries d' st') as Hr.
  assert (He : entries_of st' = UserData.entries d') by (rewrite Hs, Hd; reflexivity).
  specialize (Hr He). rewrite Hd in Hr.
  destruct (App.updateExchangeRates d' st') as [[[]|msg|] st'']; cbn [snd] in Hr; run;
    unfold setActiveTab, modify_app; run; exact Hr.
Qed.

Lemma updateEntry_replaces updatedEntry s current :
  user (app s) = Some current ->
  exists s', App.updateEntry updatedEntry s = (Ok tt, s')
    /\ entries_of s'
       = (fun e => if bool_decide (FinanceEntry.id e = FinanceEntry.id updatedEntry)
                   then updatedEntry else e) <$> UserData.entries current.
Proof.
  intros Hu. unfold App.updateEntry, App.with_user. run. rewrite Hu.
  unfold setUser, modify_app. run.
  match goal with
  | |- context [App.syncToCloud ?d ?st] =>
      destruct (sync_keeps_entries d st) as [Hs _];
      destruct (syncToCloud_resolves d st) as (d' & st' & Heq);
      rewrite Heq in *
  end. run. cbn [snd] in Hs. eexists. split; [reflexivity | exact Hs].
Qed.

Lemma updateLegacy_installs legacy s current :
  user (app s) = Some current ->
  exists s', App.updateLegacy legacy s = (Ok tt, s')
    /\ (user (app s') ≫= UserData.legacy) = Some legacy.
Proof.
  intros Hu. unfold App.updateLegacy, App.with_user. run. rewrite Hu.
  unfold setUser, modify_app. run.
  match goal with
  | |- context [App.syncToCloud ?d ?st] =>
      pose proof (sync_changes_sheet_only d st) as H; cbv zeta in H;
      destruct (syncToCloud_resolves d st) as (d' & st' & Heq);
      rewrite Heq in *
  end. run. cbn [snd app user] in H.
  destruct H as (u & st0 & Happ & Hu' & _).
  eexists. split; [reflexivity|]. rewrite Happ. cbn [user].
  destruct Hu' as [-> | [id ->]]; reflexivity.
Qed.

Lemma acceptTerms_installs s current :
  user (app s) = Some current ->
  exists s', App.acceptTerms s = (Ok tt, s')
    /\ (Settings.termsAccepted <$> (UserData.settings <$> user (app s'))) = Some true.
Proof.
  intros Hu. unfold App.acceptTerms, App.with_user. run. rewrite Hu.
  unfold setUser, modify_app. run.
  match goal with
  | |- context [App.syncToCloud ?d ?st] =>
      pose proof (sync_changes_sheet_only d st) as H; cbv zeta in H;
      destruct (syncToCloud_resolves d st) as (d' & st' & Heq);
      rewrite Heq in *
  end. run. cbn [snd app user] in H.
  destruct H as (u & st0 & Happ & Hu' & _).
  eexists. split; [reflexivity|]. rewrite Happ. cbn [user].
  destruct Hu' as [-> | [id ->]]; reflexivity.
Qed.

(** X10. With a snapshot loaded, the mutating intents take effect in memory
    whatever happens to the save: after [addEntry] the entry heads the list,
    after [addEntries] the new entries precede the old ones, [updateEntry]
    resolves with every entry of the same id replaced and the others in
    place, [updateLegacy] resolves with the legacy profile installed, and
    [acceptTerms] resolves with [termsAccepted] true. *)
Theorem intents_apply_in_memory (s : State) (current : UserData)
    (entry updatedEntry : FinanceEntry) (newEntries : list FinanceEntry)
    (legacy : LegacyProfile) :
  user (app s) = Some current ->
  entries_of (snd (App.addEntry entry s)) = entry :: UserData.entries current
  /\ entries_of (snd (App.addEntries newEntries s)) = newEntries ++ UserData.entries current
  /\ (exists s', App.updateEntry updatedEntry s = (Ok tt, s')
        /\ entries_of s'
           = (fun e => if bool_decide (FinanceEntry.id e = FinanceEntry.id updatedEntry)
                       then updatedEntry else e) <$> UserData.entries current)
  /\ (exists s', App.updateLegacy legacy s = (Ok tt, s')
        /\ (user (app s') ≫= UserData.legacy) = Some legacy)
  /\ (exists s', App.acceptTerms s = (Ok tt, s')
        /\ (Settings.termsAccepted <$> (UserData.settings <$> user (app s'))) = Some true).
Proof.
  intros Hu.
  split; [apply addEntry_adds, Hu|].
  split; [apply addEntries_adds, Hu|].
  split; [apply updateEntry_replaces, Hu|].
  split; [eapply updateLegacy_installs, Hu | eapply acceptTerms_installs, Hu].
Qed.

Lemma intents_apply_in_memory_witness :
  let s := Example.failing_state drive ExtractRejected (Example.app_of Example.mixed) in
  user (app s) = Some Example.mixed
  /\ entries_of (snd (App.addEntries [Example.yen] s))
     = [Example.yen] ++ UserData.entries Example.mixed.
Proof.
  cbv zeta. split; [reflexivity|].
  apply (intents_apply_in_memory
           (Example.failing_state drive ExtractRejected (Example.app_of Example.mixed))
           Example.mixed Example.yen Example.yen [Example.yen] Example.legacy eq_refl).
Defined.

(** ** The timestamp of a mutation *)

Lemma bookkeeping_refl d : Shape.bookkeeping_apart d d.
Proof. unfold Shape.bookkeeping_apart. destruct d as [? ? ? ? ? []]. repeat split. Qed.

Lemma bookkeeping_sheet id d : Shape.bookkeeping_apart d (App.assign_spreadsheetId id d).
Proof. unfold Shape.bookkeeping_apart. destruct d as [? ? ? ? ? []]. repeat split. Qed.

Lemma bookkeeping_rates rates d d' :
  Shape.bookkeeping_apart d d' ->
  Shape.bookkeeping_apart d (App.with_exchangeRates rates d').
Proof. intros H. exact H. Qed.

(** A save from a state that holds the snapshot being saved: what it
    returns and what the state holds afterwards, which is that snapshot,
    the spreadsheet identifier apart. *)
Lemma sync_tracks d st :
  user (app st) = Some d ->
  exists d' d'' st',
    App.syncToCloud d st = (Ok d', st')
    /\ user (app st') = Some d''
    /\ Shape.bookkeeping_apart d d' /\ Shape.bookkeeping_apart d d''
    /\ UserData.exchangeRates d'' = UserData.exchangeRates d.
Proof.
  intros Hu.
  pose proof (sync_changes_sheet_only d st) as H. cbv zeta in H.
  destruct (syncToCloud_resolves d st) as (d' & st' & Heq).
  rewrite Heq in H. cbn [fst snd] in H.
  destruct H as (u & status & Happ & Hu' & Hd). destruct (Hd d' eq_refl) as [_ Hd'].
  assert (Hd1 : Shape.bookkeeping_apart d d')
    by (destruct Hd' as [-> | [id ->]]; [apply bookkeeping_refl | apply bookkeeping_sheet]).
  rewrite Hu in Hu'.
  destruct Hu' as [-> | [id ->]]; eexists d', _, st'; (split; [exact Heq|]);
    rewrite Happ; cbn [user fmap option_fmap option_map];
    (split; [reflexivity|]); (split; [exact Hd1|]);
    (split; [first [apply bookkeeping_refl | apply bookkeeping_sheet] | reflexivity]).
Qed.

(** The rate refresh that follows a save in two of the intents. *)
Ltac refresh_tracks Hu' Hd' Hd'' :=
  match goal with
  | |- context [App.updateExchangeRates ?d' ?st'] =>
      let Hr := fresh "Hr" in
      pose proof (refresh_changes_rates_only d' st') as Hr; cbv zeta in Hr;
      destruct Hr as (u & Happ & Hcase);
      destruct (App.updateExchangeRates d' st') as [[[]|msg|] st2]; cbn [snd] in *;
      unfold setActiveTab, modify_app; run; rewrite Happ; cbn [user];
      (destruct Hcase as [-> | [rates ->]];
       [eexists; split; [exact Hu' | exact Hd'']
       |eexists; split; [reflexivity | apply bookkeeping_rates, Hd']])
  end.

(** C7, at the failing input: with a snapshot loaded, add entry, add
    entries in bulk, update entry and set legacy profile leave the
    controller holding a copy of the current snapshot in which the intended
    field is changed (the entry list, or the legacy profile) and
    [lastSynced] is the current timestamp; accept terms leaves a copy in
    which [settings.termsAccepted] is true and [lastSynced] is what it was,
    not the current timestamp.  Apart from that the copy differs from the
    current snapshot at most in the spreadsheet identifier, which the mirror
    assigns, and (after the two intents that refresh the rates) in the rate
    table.  The controller has no add-goal and no update-goal-progress
    intent. *)
Theorem acceptTerms_keeps_the_old_timestamp (s : State) (current : UserData)
    (entry updatedEntry : FinanceEntry) (newEntries : list FinanceEntry)
    (legacy : LegacyProfile) :
  user (app s) = Some current ->
  let now := now (world (env s)) in
  let held (r : result unit * State) := user (app (snd r)) in
  let copy entries lastSynced legacy settings :=
    UserData.mk entries (UserData.goals current) lastSynced
      (UserData.exchangeRates current) legacy settings in
  (exists d, held (App.addEntry entry s) = Some d
     /\ Shape.bookkeeping_apart
          (copy (entry :: UserData.entries current) now (UserData.legacy current)
             (UserData.settings current)) d)
  /\ (exists d, held (App.addEntries newEntries s) = Some d
        /\ Shape.bookkeeping_apart
             (copy (newEntries ++ UserData.entries current) now (UserData.legacy current)
                (UserData.settings current)) d)
  /\ (exists d, held (App.updateEntry updatedEntry s) = Some d
        /\ Shape.bookkeeping_apart
             (copy ((fun e => if bool_decide (FinanceEntry.id e = FinanceEntry.id updatedEntry)
                              then updatedEntry else e) <$> UserData.entries current)
                now (UserData.legacy current) (UserData.settings current)) d
        /\ UserData.exchangeRates d = UserData.exchangeRates current)
  /\ (exists d, held (App.updateLegacy legacy s) = Some d
        /\ Shape.bookkeeping_apart
             (copy (UserData.entries current) now (Some legacy) (UserData.settings current)) d
        /\ UserData.exchangeRates d = UserData.exchangeRates current)
  /\ (exists d, held (App.acceptTerms s) = Some d
        /\ Shape.bookkeeping_apart
             (copy (UserData.entries current) (UserData.lastSynced current)
                (UserData.legacy current)
                (App.with_termsAccepted true (UserData.settings current))) d
        /\ UserData.exchangeRates d = UserData.exchangeRates current
        /\ UserData.lastSynced d = UserData.lastSynced current).
Proof.
  intros Hu. cbv zeta.
  split; [|split; [|split; [|split]]].
  - unfold App.addEntry, App.with_user. run. rewrite Hu. unfold setUser, modify_app. run.
    match goal with
    | |- context [App.syncToCloud ?d ?st] =>
        destruct (sync_tracks d st eq_refl) as (d' & d2 & st' & Heq & H2 & Hb' & Hb & _);
        rewrite Heq
    end.
    run. refresh_tracks H2 Hb' Hb.
  - unfold App.addEntries, App.with_user. run. rewrite Hu. unfold setUser, modify_app. run.
    match goal with
    | |- context [App.syncToCloud ?d ?st] =>
        destruct (sync_tracks d st eq_refl) as (d' & d2 & st' & Heq & H2 & Hb' & Hb & _);
        rewrite Heq
    end.
    run. refresh_tracks H2 Hb' Hb.
  - unfold App.updateEntry, App.with_user. run. rewrite Hu. unfold setUser, modify_app. run.
    match goal with
    | |- context [App.syncToCloud ?d ?st] =>
        destruct (sync_tracks d st eq_refl) as (d' & d2 & st' & Heq & H2 & _ & Hb & Hr);
        rewrite Heq
    end.
    run. exists d2. split; [exact H2 | split; [exact Hb | exact Hr]].
  - unfold App.updateLegacy, App.with_user. run. rewrite Hu. unfold setUser, modify_app. run.
    match goal with
    | |- context [App.syncToCloud ?d ?st] =>
        destruct (sync_tracks d st eq_refl) as (d' & d2 & st' & Heq & H2 & _ & Hb & Hr);
        rewrite Heq
    end.
    run. exists d2. split; [exact H2 | split; [exact Hb | exact Hr]].
  - unfold App.acceptTerms, App.with_user. run. rewrite Hu. unfold setUser, modify_app. run.
    match goal with
    | |- context [App.syncToCloud ?d ?st] =>
        destruct (sync_tracks d st eq_refl) as (d' & d2 & st' & Heq & H2 & _ & Hb & Hr);
        rewrite Heq
    end.
    run. exists d2. split; [exact H2 | split; [exact Hb | split; [exact Hr|]]].
    destruct Hb as (_ & _ & Hl & _). exact Hl.
Qed.

Lemma acceptTerms_keeps_the_old_timestamp_witness :
  let s := Example.state local_db Rejected ExtractRejected (Example.app_of Example.mixed) in
  user (app s) = Some Example.mixed
  /\ now (world (env s)) = "2025-06-15T12:00:00.000Z"
  /\ UserData.lastSynced <$> user (app (snd (App.acceptTerms s)))
     = Some "2025-06-03T10:00:00.000Z"
  /\ UserData.lastSynced <$> user (app (snd (App.updateLegacy Example.legacy s)))
     = Some "2025-06-15T12:00:00.000Z".
Proof.
  cbv zeta. split; [reflexivity | split; [reflexivity|]].
  destruct (acceptTerms_keeps_the_old_timestamp
              (Example.state local_db Rejected ExtractRejected (Example.app_of Example.mixed))
              Example.mixed Example.yen Example.yen [Example.yen] Example.legacy eq_refl)
    as (_ & _ & _ & (d1 & H1 & (_ & _ & Hl1 & _) & _) & (d2 & H2 & _ & _ & Hl2)).
  cbv zeta in H1, H2. cbn [snd] in H1, H2.
  split; [rewrite H2; cbn; rewrite Hl2; reflexivity
         | rewrite H1; cbn; rewrite Hl1; reflexivity].
Defined.

(** ** Start-up *)

Lemma well_typed_init : well_typed GoogleDriveService.init.
Proof.
  unfold GoogleDriveService.init, LocalDbService.init.
  apply well_typed_bind; [auto 10 with typed|]. intros _.
  apply well_typed_bind; [apply well_typed_gets|]. intros configured.
  destruct (negb configured); [apply well_typed_ret|].
  apply well_typed_bind; [apply well_typed_gets|]. intros loaded.
  destruct (negb loaded); [apply well_typed_ret|]. auto 10 with typed.
Qed.

(** [init] sets no field but [db] and [tokenClient], and the latter only
    when the client identifier is configured. *)
Lemma init_keeps_configuration (e : Env) :
  let e' := snd (GoogleDriveService.init e) in
  isConfigured (svc e') = isConfigured (svc e)
  /\ mode (svc e') = mode (svc e)
  /\ accessToken (svc e') = accessToken (svc e)
  /\ (isConfigured (svc e) = false -> tokenClient (svc e') = tokenClient (svc e))
  /\ idb (world e') = idb (world e) /\ fs (world e') = fs (world e)
  /\ cloud (world e') = cloud (world e).
Proof.
  destruct e as [w s].
  destruct w as [nw fl tk ru r36 rq db0 fs0 cl gl pg cs rs es],
           s as [tc tok dh ic md dbo].
  unfold GoogleDriveService.init, LocalDbService.init, io, try_catch.
  destruct fl as [|[] [|[] fl]], ic, gl; run; cbn; repeat split; try discriminate.
Qed.

(** The mount effect runs [init], swallows its failure and turns the
    loading flag off. *)
Lemma initDrive_runs (s : State) :
  Startup.initDrive s
  = (Ok tt,
     mkState (mkApp (user (app s)) (isAuthenticated (app s)) false (isVaultLocked (app s))
                (activeTab (app s)) (syncStatus (app s)) (authError (app s)))
       (snd (GoogleDriveService.init (env s)))).
Proof.
  unfold Startup.initDrive, try_finally, try_catch, setIsLoading, modify_app.
  rewrite run_lift.
  pose proof (well_typed_init (env s)) as Ht.
  destruct (GoogleDriveService.init (env s)) as [[[]|msg|] e1]; cbn [fst snd] in *;
    try congruence; run; reflexivity.
Qed.

(** X11. The mount effect [initDrive] always resolves, also when opening the
    database or initialising the client fails; it turns the loading flag off
    and changes nothing else of the controller's state, nor the service's
    mode or its configuration flag. *)
Theorem initDrive_always_finishes (s : State) :
  exists s',
    Startup.initDrive s = (Ok tt, s')
    /\ app s' = mkApp (user (app s)) (isAuthenticated (app s)) false (isVaultLocked (app s))
                  (activeTab (app s)) (syncStatus (app s)) (authError (app s))
    /\ isConfigured (svc (env s')) = isConfigured (svc (env s))
    /\ mode (svc (env s')) = mode (svc (env s)).
Proof.
  pose proof (init_keeps_configuration (env s)) as Hk. cbv zeta in Hk.
  eexists. split; [apply initDrive_runs|]. cbn [app env].
  split; [reflexivity|]. split; apply Hk.
Qed.

(** X12. With the client identifier as it stands in the source (the
    placeholder), a drive login after start-up always ends in the message
    "Google Drive integration not configured.": the authentication flag and
    the snapshot are as before, the loading flag is off, and the remote
    drive has not been touched. *)
Theorem drive_is_not_configured (w : World) (a : AppState) :
  let s1 := snd (Startup.initDrive (mkState a (mkEnv w Startup.driveService))) in
  exists s2,
    App.handleLogin drive s1 = (Ok tt, s2)
    /\ authError (app s2) = Some "Google Drive integration not configured."
    /\ isAuthenticated (app s2) = isAuthenticated a
    /\ user (app s2) = user a
    /\ isLoading (app s2) = false
    /\ cloud (world (env s2)) = cloud w.
Proof.
  cbv zeta.
  rewrite initDrive_runs. cbn [snd app env].
  pose proof (init_keeps_configuration (mkEnv w Startup.driveService)) as Hk.
  cbv zeta in Hk. destruct Hk as (Hconf & _ & _ & _ & _ & _ & Hcloud).
  cbn [svc world] in Hconf, Hcloud.
  change (isConfigured Startup.driveService) with false in Hconf.
  destruct (GoogleDriveService.init (mkEnv w Startup.driveService)) as [r0 [w1 sv1]].
  cbn [snd svc world] in *.
  unfold App.handleLogin, try_finally, try_catch, setAuthError, setIsLoading, modify_app.
  run. rewrite run_lift. cbn [app env].
  unfold GoogleDriveService.login. run. rewrite Hconf. run.
  eexists. split; [reflexivity|]. cbn [app env world authError isAuthenticated user isLoading].
  repeat split. exact Hcloud.
Qed.

(** ** Reading a stored snapshot at its type *)

Section ReadBack.

Implicit Types (k : string) (v : jsval) (r : list (string * jsval)).

Lemma get_hit k v r : Decode.get k ((k, v) :: r) = Some v.
Proof. simpl. rewrite bool_decide_eq_true_2 by reflexivity. reflexivity. Qed.

Lemma get_skip k k' v r :
  String.eqb k' k = false -> Decode.get k ((k', v) :: r) = Decode.get k r.
Proof.
  intros H. apply String.eqb_neq in H. simpl.
  rewrite bool_decide_eq_false_2 by exact H. reflexivity.
Qed.

Lemma get_skip_opt {A} k k' (enc : A -> jsval) o r :
  String.eqb k' k = false -> Decode.get k (Encode.opt k' enc o ++ r) = Decode.get k r.
Proof. intros H. destruct o; [apply get_skip, H | reflexivity]. Qed.

Lemma req_hit {A} (f : jsval -> option A) k v r : Decode.req f k ((k, v) :: r) = f v.
Proof. unfold Decode.req. rewrite get_hit. reflexivity. Qed.

Lemma req_skip {A} (f : jsval -> option A) k k' v r :
  String.eqb k' k = false -> Decode.req f k ((k', v) :: r) = Decode.req f k r.
Proof. intros H. unfold Decode.req. rewrite get_skip by exact H. reflexivity. Qed.

Lemma req_skip_opt {A B} (f : jsval -> option A) k k' (enc : B -> jsval) o r :
  String.eqb k' k = false -> Decode.req f k (Encode.opt k' enc o ++ r) = Decode.req f k r.
Proof. intros H. unfold Decode.req. rewrite get_skip_opt by exact H. reflexivity. Qed.

Lemma opt_skip {A} (f : jsval -> option A) k k' v r :
  String.eqb k' k = false -> Decode.opt f k ((k', v) :: r) = Decode.opt f k r.
Proof. intros H. unfold Decode.opt. rewrite get_skip by exact H. reflexivity. Qed.

Lemma opt_skip_opt {A B} (f : jsval -> option A) k k' (enc : B -> jsval) o r :
  String.eqb k' k = false -> Decode.opt f k (Encode.opt k' enc o ++ r) = Decode.opt f k r.
Proof. intros H. unfold Decode.opt. rewrite get_skip_opt by exact H. reflexivity. Qed.

Lemma opt_hit {A} (f : jsval -> option A) k (enc : A -> jsval) o r :
  (forall a, f (enc a) = Some a) -> (forall a, enc a <> VUndef) ->
  Decode.get k r = None ->
  Decode.opt f k (Encode.opt k enc o ++ r) = Some o.
Proof.
  intros Hf Hu Hr. unfold Decode.opt. destruct o as [a|]; simpl.
  - rewrite bool_decide_eq_true_2 by reflexivity. specialize (Hf a). specialize (Hu a).
    destruct (enc a); try congruence; rewrite Hf; reflexivity.
  - rewrite Hr. reflexivity.
Qed.

Lemma unless_falsy_skip {A} (f : jsval -> option A) k k' v r :
  String.eqb k' k = false ->
  Decode.unless_falsy f k ((k', v) :: r) = Decode.unless_falsy f k r.
Proof. intros H. unfold Decode.unless_falsy. rewrite get_skip by exact H. reflexivity. Qed.

Lemma unless_falsy_skip_opt {A B} (f : jsval -> option A) k k' (enc : B -> jsval) o r :
  String.eqb k' k = false ->
  Decode.unless_falsy f k (Encode.opt k' enc o ++ r) = Decode.unless_falsy f k r.
Proof.
  intros H. unfold Decode.unless_falsy. rewrite get_skip_opt by exact H. reflexivity.
Qed.

Lemma unless_falsy_hit {A} (f : jsval -> option A) k v a r :
  truthy_val (Some v) = true -> f v = Some a ->
  Decode.unless_falsy f k ((k, v) :: r) = Some (Some a).
Proof.
  intros Ht Hf. unfold Decode.unless_falsy. rewrite get_hit, Ht.
  cbn [mbind option_bind]. rewrite Hf. reflexivity.
Qed.

End ReadBack.

Ltac absent :=
  repeat first [ reflexivity
               | rewrite get_skip by reflexivity
               | rewrite get_skip_opt by reflexivity ].

Ltac read_field :=
  first [ rewrite req_hit
        | rewrite req_skip by reflexivity
        | rewrite req_skip_opt by reflexivity
        | rewrite opt_skip by reflexivity
        | rewrite opt_skip_opt by reflexivity ].

Lemma read_entryType t : Decode.entryType (VStr (Encode.EntryType_name t)) = Some t.
Proof. destruct t; reflexivity. Qed.

Lemma read_liquidity l : Decode.liquidity (VStr (Encode.Liquidity_name l)) = Some l.
Proof. destruct l; reflexivity. Qed.

Lemma read_goalCategory c : Decode.goalCategory (VStr (Encode.GoalCategory_name c)) = Some c.
Proof. destruct c; reflexivity. Qed.

Lemma read_list {A} (enc : A -> jsval) (dec : jsval -> option A) (l : list A) :
  (forall a, dec (enc a) = Some a) -> Decode.arr dec (VArr (map enc l)) = Some l.
Proof.
  intros H. unfold Decode.arr. apply mapM_Some. induction l; constructor; auto.
Qed.

Lemma read_source s : Decode.source (Encode.source s) = Some s.
Proof. destruct s. reflexivity. Qed.

Ltac read_value :=
  first [ reflexivity | apply read_entryType | apply read_liquidity | apply read_goalCategory
        | apply read_list, read_source ].

(** Reads the field at the head of a sequence of reads. *)
Ltac read_next :=
  lazymatch goal with
  | |- (Decode.req ?f ?k ?ps ≫= _) = _ =>
      let H := fresh "H" in
      eassert (H : Decode.req f k ps = Some _);
      [ repeat read_field; read_value
      | rewrite H; clear H; cbn [mbind option_bind] ]
  | |- (Decode.opt ?f ?k ?ps ≫= _) = _ =>
      let H := fresh "H" in
      eassert (H : Decode.opt f k ps = Some _);
      [ repeat read_field;
        apply opt_hit; [ intros; read_value | discriminate | absent ]
      | rewrite H; clear H; cbn [mbind option_bind] ]
  end.

Lemma read_entry e : Decode.entry (Encode.entry e) = Some e.
Proof.
  destruct e. unfold Decode.entry, Encode.entry.
  cbn [FinanceEntry.id FinanceEntry.type FinanceEntry.category FinanceEntry.name
       FinanceEntry.amount FinanceEntry.currency FinanceEntry.initialAmount
       FinanceEntry.date FinanceEntry.address FinanceEntry.plotSize
       FinanceEntry.propertyType FinanceEntry.valuationSources FinanceEntry.lastValuated
       FinanceEntry.referenceNumber FinanceEntry.linkedAssetId
       FinanceEntry.statementDriveId FinanceEntry.isRecurring FinanceEntry.isWorkProvided
       FinanceEntry.liquidity FinanceEntry.notes FinanceEntry.coverageAmount
       FinanceEntry.expiryDate FinanceEntry.emi FinanceEntry.monthsRemaining Datatypes.app].
  rewrite <- (app_nil_r (Encode.opt "monthsRemaining" _ _)).
  do 24 read_next. reflexivity.
Qed.

Lemma read_goal g : Decode.goal (Encode.goal g) = Some g.
Proof.
  destruct g. unfold Decode.goal, Encode.goal.
  cbn [Goal.id Goal.name Goal.targetAmount Goal.currentAmount Goal.currency
       Goal.deadline Goal.category Goal.linkedAssetId Datatypes.app].
  rewrite <- (app_nil_r (Encode.opt "linkedAssetId" _ _)).
  do 8 read_next. reflexivity.
Qed.

Lemma read_legacy l : Decode.legacy (Encode.legacy l) = Some l.
Proof. destruct l. reflexivity. Qed.

Lemma read_settings s : Decode.settings (Encode.settings s) = Some s.
Proof.
  destruct s. unfold Decode.settings, Encode.settings.
  cbn [Settings.currency Settings.userName Settings.biometricEnabled
       Settings.termsAccepted Settings.spreadsheetId Settings.monthlyBudgetLimit
       Datatypes.app].
  rewrite <- (app_nil_r (Encode.opt "monthlyBudgetLimit" _ _)).
  do 6 read_next. reflexivity.
Qed.

Lemma read_rates (m : gmap string JS.number) : Decode.rates (Encode.rates m) = Some m.
Proof.
  unfold Decode.rates, Encode.rates.
  assert (H : mapM Decode.rate (map (fun kv : string * JS.number => (kv.1, VNum kv.2))
                                  (map_to_list m)) = Some (map_to_list m)).
  { apply mapM_Some. induction (map_to_list m) as [|[k x] l IH]; constructor; auto. }
  rewrite H. simpl. rewrite list_to_map_to_list. reflexivity.
Qed.

(** What was written as a snapshot reads back as that snapshot. *)
Lemma read_userData now d : App.typed now (Encode.userData d) = mret d.
Proof.
  destruct d. unfold App.typed, Decode.userData, Encode.userData.
  cbn [UserData.entries UserData.goals UserData.lastSynced UserData.exchangeRates
       UserData.legacy UserData.settings Datatypes.app].
  lazymatch goal with
  | |- context [Decode.req (Decode.arr Decode.entry) "entries" ?ps] =>
      assert (He : Decode.req (Decode.arr Decode.entry) "entries" ps = Some entries)
        by (rewrite req_hit; apply read_list, read_entry);
      assert (Hg : Decode.unless_falsy (Decode.arr Decode.goal) "goals" ps = Some (Some goals))
        by (rewrite unless_falsy_skip by reflexivity;
            apply unless_falsy_hit; [reflexivity | apply read_list, read_goal]);
      assert (Hl : Decode.req Decode.str "lastSynced" ps = Some lastSynced)
        by (repeat read_field; reflexivity);
      assert (Hr : Decode.opt Decode.rates "exchangeRates" ps = Some exchangeRates)
        by (repeat read_field; apply opt_hit; [apply read_rates | discriminate | absent]);
      assert (Hy : Decode.opt Decode.legacy "legacy" ps = Some legacy)
        by (repeat read_field; apply opt_hit; [apply read_legacy | discriminate | absent]);
      assert (Hs : Decode.unless_falsy Decode.settings "settings" ps = Some (Some settings))
        by (do 3 (rewrite unless_falsy_skip by reflexivity);
            rewrite !unless_falsy_skip_opt by reflexivity;
            apply unless_falsy_hit; [reflexivity | apply read_settings])
  end.
  rewrite He, Hg, Hl, Hr, Hy, Hs. reflexivity.
Qed.

(** The session [handleLogin] starts on [data], as far as the snapshot goes. *)
Lemma session_start_on data s :
  let r := (_ ← setUser (Some data);
            _ ← setIsAuthenticated true;
            _ ← (if Settings.biometricEnabled (UserData.settings data)
                 then setIsVaultLocked true else mret tt);
            App.updateExchangeRates data) s in
  (forall message, fst r <> Throw message)
  /\ isAuthenticated (app (snd r)) = true
  /\ authError (app (snd r)) = authError (app s)
  /\ isLoading (app (snd r)) = isLoading (app s)
  /\ exists d', user (app (snd r)) = Some d'
       /\ (d' = data \/ exists rates, d' = App.with_exchangeRates (Some rates) data).
Proof.
  unfold setUser, setIsAuthenticated, setIsVaultLocked, modify_app. run.
  destruct (Settings.biometricEnabled (UserData.settings data)); run;
    match goal with
    | |- context [App.updateExchangeRates data ?st] =>
        pose proof (refresh_changes_rates_only data st) as H; cbv zeta in H;
        pose proof (updateExchangeRates_never_throws data st) as Hn;
        destruct (App.updateExchangeRates data st) as [r st']
    end;
    cbn [app snd fst user isAuthenticated isVaultLocked authError isLoading] in *;
    destruct H as (u & -> & Hu); cbn [isAuthenticated authError user isLoading];
    (split; [exact Hn|]); (split; [reflexivity|]); (split; [reflexivity|]);
    (split; [reflexivity|]);
    destruct Hu as [-> | [rates ->]]; eauto.
Qed.

(** X13. A returning user gets the saved snapshot back.  In the
    embedded-database mode with the document under the vault key, or in the
    local-directory mode with the user granting the directory that holds the
    document of a snapshot JSON can hold, [handleLogin], no fault occurring,
    authenticates without an error message, and the snapshot it loads is the
    one saved, or that one with a fresh rate table. *)
Theorem returning_login_restores (m : Mode) (s : State) (d : UserData) :
  faults (world (env s)) = [] ->
  (m = local_db
   /\ idb (world (env s)) !! GoogleDriveService.STORAGE_IDB_KEY = Some (Encode.userData d))
  \/ (m = local_fs
      /\ picker_grants (world (env s)) = true
      /\ fs (world (env s)) !! GoogleDriveService.FILE_NAME
         = Some (GoogleDriveService.document d)
      /\ RoundTrip.json_safe d) ->
  let s' := snd (App.handleLogin m s) in
  isAuthenticated (app s') = true
  /\ authError (app s') = None
  /\ exists d', user (app s') = Some d'
       /\ (d' = d \/ exists rates, d' = App.with_exchangeRates (Some rates) d).
Proof.
  destruct s as [a [w sv]]. cbn [env world]. intros Hf Hstored. cbv zeta.
  destruct w as [nw fl tk ru r36 rq db0 fs0 cl gl pg cs rs es],
           sv as [tc tok dh ic md dbo].
  cbn [faults idb fs picker_grants] in *. subst fl.
  unfold App.handleLogin, try_finally, try_catch.
  unfold setAuthError, setIsLoading, modify_app. run.
  rewrite run_lift. cbn [app env].
  destruct Hstored as [[-> Hidb] | (-> & Hpg & Hfs & Hsafe)].
  - unfold GoogleDriveService.login. run.
    rewrite run_lift. cbn [app env]. unfold GoogleDriveService.findFile. run.
    rewrite run_lift. cbn [app env].
    unfold GoogleDriveService.downloadData, LocalDbService.get, LocalDbService.ensure_open,
      LocalDbService.init.
    destruct dbo; run; rewrite Hidb; run;
      change (truthy_val (Some (Encode.userData d))) with true; run;
      rewrite read_userData; run;
      rewrite <- !run_bind;
      match goal with
      | |- context [(setUser (Some ?x) ≫= ?k) ?st] =>
          pose proof (session_start_on x st) as H; cbv zeta in H;
          destruct ((setUser (Some x) ≫= k) st) as [[[]|e|] st']
      end; cbn [fst snd] in *; destruct H as (Hn & Ha & He & Hl & Hd);
      try (destruct (Hn e); reflexivity); run; auto.
  - unfold GoogleDriveService.login. run. rewrite Hpg. run.
    rewrite run_lift. cbn [app env]. unfold GoogleDriveService.findFile. run.
    rewrite run_lift. cbn [app env].
    unfold GoogleDriveService.downloadData. run. rewrite Hfs. run.
    rewrite document_safe by exact Hsafe. run. rewrite read_userData. run.
    rewrite <- !run_bind.
    match goal with
    | |- context [(setUser (Some ?x) ≫= ?k) ?st] =>
        pose proof (session_start_on x st) as H; cbv zeta in H;
        destruct ((setUser (Some x) ≫= k) st) as [[[]|e|] st']
    end; cbn [fst snd] in *; destruct H as (Hn & Ha & He & Hl & Hd);
    try (destruct (Hn e); reflexivity); run; auto.
Qed.

Lemma returning_login_restores_witness :
  faults (world (env Example.returning_state)) = []
  /\ idb (world (env Example.returning_state)) !! GoogleDriveService.STORAGE_IDB_KEY
     = Some (Encode.userData Example.vault_on)
  /\ isAuthenticated (app (snd (App.handleLogin local_db Example.returning_state))) = true.
Proof.
  assert (Hidb : idb (world (env Example.returning_state))
                 !! GoogleDriveService.STORAGE_IDB_KEY
                 = Some (Encode.userData Example.vault_on))
    by apply lookup_singleton_eq.
  split; [reflexivity | split; [exact Hidb|]].
  apply (returning_login_restores local_db Example.returning_state Example.vault_on eq_refl).
  left. split; [reflexivity | exact Hidb].
Defined.

(** ** The dashboard and the matrix *)

(** X14. The dashboard and the account matrix convert alike whenever a rate
    table is cached, or the entry's currency is not a name plain objects
    inherit: [MatrixItem.getConverted], given the data's base currency and
    rate table as [MatrixView] does, then equals
    [Dashboard.getConvertedAmount].  With no table cached and such a name
    for a currency other than the base currency they differ: the dashboard
    reads the name off the empty object it puts in place of the table and
    returns [NaN], the matrix reads [undefined] and returns the amount. *)
Theorem views_convert_alike (data : UserData) (item : FinanceEntry) (amount : JS.number) :
  (is_Some (UserData.exchangeRates data)
   \/ (forall c, FinanceEntry.currency item = Some c -> c ∉ JS.inherited) ->
   MatrixView.getConverted item (Settings.currency (UserData.settings data))
     (UserData.exchangeRates data) amount
   = Dashboard.getConvertedAmount data amount (FinanceEntry.currency item))
  /\ (forall c,
        UserData.exchangeRates data = None ->
        FinanceEntry.currency item = Some c -> c ∈ JS.inherited ->
        c <> Settings.currency (UserData.settings data) ->
        Dashboard.getConvertedAmount data amount (FinanceEntry.currency item) = nan
        /\ MatrixView.getConverted item (Settings.currency (UserData.settings data))
             (UserData.exchangeRates data) amount = amount).
Proof.
  split.
  - intros H. unfold MatrixView.getConverted, Dashboard.getConvertedAmount.
    destruct (FinanceEntry.currency item) as [c|]; [|reflexivity].
    destruct (negb (JS.truthy_str c) || _); [reflexivity|].
    destruct H as [[rates ->] | H]; [reflexivity|].
    destruct (UserData.exchangeRates data) as [rates|]; [reflexivity|].
    cbn [default from_option id].
    rewrite (get_missing _ _ (lookup_empty c)), bool_decide_eq_false_2 by (apply H; reflexivity).
    reflexivity.
  - intros c Hnone Hc Hin Hbase.
    assert (Hmiss : Spec.rate_missing (UserData.exchangeRates data) item).
    { intros c' _. rewrite Hnone. reflexivity. }
    split.
    + unfold Dashboard.getConvertedAmount. rewrite Hc, Hnone.
      destruct (JS.truthy_str c) eqn:Et.
      * rewrite bool_decide_eq_false_2 by exact Hbase. cbn [negb orb default from_option id].
        rewrite (get_missing _ _ (lookup_empty c)), bool_decide_eq_true_2 by exact Hin.
        apply div_nan.
      * apply truthy_str_empty in Et. subst c. exfalso. revert Hin. vm_compute.
        intros H. repeat (apply elem_of_cons in H as [H|H]; [discriminate H|]).
        by apply elem_of_nil in H.
    + unfold MatrixView.getConverted. rewrite Hc, Hnone.
      destruct (negb _ || _); reflexivity.
Qed.

Lemma views_convert_alike_witness :
  is_Some (UserData.exchangeRates Example.mixed)
  /\ MatrixView.getConverted Example.yen "USD" (UserData.exchangeRates Example.mixed) 900%float
     = Dashboard.getConvertedAmount Example.mixed 900%float (Some "JPY").
Proof.
  assert (H : is_Some (UserData.exchangeRates Example.mixed)) by (eexists; reflexivity).
  split; [exact H|].
  apply (proj1 (views_convert_alike Example.mixed Example.yen 900%float)).
  left. exact H.
Defined.

(** The two views on the souvenir, before any table is cached. *)
Example views_differ_without_a_table :
  let data := App.with_exchangeRates None Example.mixed in
  Dashboard.getConvertedAmount data 5%float (Some "constructor") = nan
  /\ MatrixView.getConverted Example.odd_currency "USD" None 5%float = 5%float.
Proof. vm_compute. split; reflexivity. Qed.

Lemma step_with_entries data es currentMonth t e :
  Dashboard.step (App.with_entries es data) currentMonth t e
  = Dashboard.step data currentMonth t e.
Proof. reflexivity. Qed.




(** ** The monthly budget *)

Lemma budget_step_counted currentMonth t e :
  BudgetView.counted currentMonth e = false -> BudgetView.step currentMonth t e = t.
Proof.
  unfold BudgetView.counted, BudgetView.step.
  case_bool_decide as Hm; simpl; [|reflexivity].
  destruct (FinanceEntry.type e); try reflexivity; discriminate.
Qed.

Lemma budget_fold_counted currentMonth es : forall t,
  fold_left (BudgetView.step currentMonth)
    (filter (fun e => BudgetView.counted currentMonth e = true) es) t
  = fold_left (BudgetView.step currentMonth) es t.
Proof.
  induction es as [|e es IH]; intros t; [reflexivity|].
  rewrite filter_cons. destruct (decide _) as [Hc|Hc]; simpl.
  - apply IH.
  - rewrite budget_step_counted by (destruct (BudgetView.counted currentMonth e); congruence).
    apply IH.
Qed.

Lemma feed_counted currentMonth data :
  BudgetView.feed currentMonth data
  = filter (fun e => BudgetView.counted currentMonth e = true) (UserData.entries data).
Proof.
  unfold BudgetView.feed. apply list_filter_iff. intros e.
  unfold BudgetView.counted. rewrite andb_true_iff, bool_decide_eq_true.
  destruct (FinanceEntry.type e); split; intros [H1 H2]; split; auto;
    try discriminate; destruct H2; discriminate.
Qed.

Lemma truthy_or_else x d : JS.truthy d = true -> JS.truthy (JS.or_else x d) = true.
Proof. intros Hd. unfold JS.or_else. destruct (JS.truthy x) eqn:Hx; assumption. Qed.

(** The three running totals after the loop, from any start: each is its
    start plus, in list order, the amounts of the counted entries of its
    bucket. *)
Lemma budget_fold_buckets currentMonth es : forall t,
  let t' := fold_left (BudgetView.step currentMonth) es t in
  let spent bucket start :=
    fold_left PrimFloat.add
      (FinanceEntry.amount
         <$> filter (fun e => BudgetView.bucket_of_entry e = bucket)
               (filter (fun e => BudgetView.counted currentMonth e = true) es))
      start in
  BudgetView.s_needs t' = spent BudgetView.Essentials (BudgetView.s_needs t)
  /\ BudgetView.s_wants t' = spent BudgetView.Lifestyle (BudgetView.s_wants t)
  /\ BudgetView.s_savings t' = spent BudgetView.Security (BudgetView.s_savings t).
Proof.
  cbv zeta. induction es as [|e es IH]; intros t; [repeat split; reflexivity|].
  cbn [fold_left]. destruct (IH (BudgetView.step currentMonth t e)) as (Hn & Hw & Hs).
  rewrite Hn, Hw, Hs. clear IH Hn Hw Hs.
  rewrite filter_cons. destruct (decide _) as [Hc|Hc].
  - rewrite !filter_cons.
    assert (Hstep : BudgetView.step currentMonth t e
                    = match BudgetView.bucket_of_entry e with
                      | BudgetView.Essentials =>
                          BudgetView.mkSums (BudgetView.s_needs t + FinanceEntry.amount e)%float
                            (BudgetView.s_wants t) (BudgetView.s_savings t)
                      | BudgetView.Lifestyle =>
                          BudgetView.mkSums (BudgetView.s_needs t)
                            (BudgetView.s_wants t + FinanceEntry.amount e)%float
                            (BudgetView.s_savings t)
                      | BudgetView.Security =>
                          BudgetView.mkSums (BudgetView.s_needs t) (BudgetView.s_wants t)
                            (BudgetView.s_savings t + FinanceEntry.amount e)%float
                      end).
    { revert Hc. unfold BudgetView.counted, BudgetView.step, BudgetView.bucket_of_entry.
      case_bool_decide as Hm; cbn [negb andb]; [|discriminate].
      destruct (FinanceEntry.type e); try discriminate; reflexivity. }
    rewrite Hstep.
    destruct (BudgetView.bucket_of_entry e);
      repeat (destruct (decide _) as [Hb|Hb]; [try discriminate Hb | try (exfalso; apply Hb; reflexivity)]);
      repeat split; reflexivity.
  - rewrite budget_step_counted by (destruct (BudgetView.counted currentMonth e); congruence).
    repeat split; reflexivity.
Qed.

(** X16. The monthly budget counts exactly the entries of the burn feed
    (the expenses and bills of the current month): each of its three
    figures is the sum, taken in feed order from 0, of the amounts of the
    feed entries whose category puts them in that bucket, and the total is
    the sum of the three; entries outside the feed count nowhere.  Its
    limit is never zero nor [NaN] (a missing, zero or [NaN] limit falls back
    to 5000). *)
Theorem budget_counts_the_feed (currentMonth : string) (data : UserData) :
  let b := BudgetView.budget currentMonth data in
  let spent bucket :=
    JS.sum (FinanceEntry.amount
              <$> filter (fun e => BudgetView.bucket_of_entry e = bucket)
                    (BudgetView.feed currentMonth data)) in
  BudgetView.needs b = spent BudgetView.Essentials
  /\ BudgetView.wants b = spent BudgetView.Lifestyle
  /\ BudgetView.savings b = spent BudgetView.Security
  /\ BudgetView.total b
     = (spent BudgetView.Essentials + spent BudgetView.Lifestyle
        + spent BudgetView.Security)%float
  /\ JS.truthy (BudgetView.limit b) = true.
Proof.
  cbv zeta. unfold JS.sum. rewrite feed_counted.
  destruct (budget_fold_buckets currentMonth (UserData.entries data) (BudgetView.mkSums 0 0 0))
    as (Hn & Hw & Hs).
  cbn [BudgetView.s_needs BudgetView.s_wants BudgetView.s_savings] in Hn, Hw, Hs.
  unfold BudgetView.budget.
  cbn [BudgetView.needs BudgetView.wants BudgetView.savings BudgetView.total BudgetView.limit].
  rewrite Hn, Hw, Hs. repeat split.
  destruct (Settings.monthlyBudgetLimit _); [apply truthy_or_else|]; reflexivity.
Qed.

(** The budget of the sample in June, with the ramen added: one Lifestyle
    expense. *)
Example budget_of_sample :
  let data := App.with_entries (Example.yen :: UserData.entries Example.mixed) Example.mixed in
  BudgetView.wants (BudgetView.budget "2025-06" data) = 900%float
  /\ BudgetView.total (BudgetView.budget "2025-06" data) = 900%float.
Proof. vm_compute. split; reflexivity. Qed.

(** ** Rows of a CSV file *)

Lemma category_of_income isCredit lowName :
  CsvImporter.category_of isCredit lowName = "Income" <-> isCredit = true.
Proof.
  unfold CsvImporter.category_of. destruct isCredit; [tauto|].
  repeat match goal with |- context [if ?b then _ else _] => destruct b end;
    split; discriminate.
Qed.

Lemma SFeqb_finite s m e : SFeqb (S754_finite s m e) (S754_finite s m e) = true.
Proof.
  pose proof (Pos.compare_refl m) as Hm. unfold Pos.compare in Hm.
  unfold SFeqb, SFcompare. destruct s; rewrite Z.compare_refl, Hm; reflexivity.
Qed.

Lemma is_nan_SF x :
  PrimFloat.is_nan x = match Prim2SF x with S754_nan => true | _ => false end.
Proof.
  unfold PrimFloat.is_nan. rewrite FloatAxioms.eqb_spec.
  destruct (Prim2SF x) as [s|s| |s m e]; try (destruct s; reflexivity); [reflexivity|].
  rewrite SFeqb_finite. reflexivity.
Qed.

(** [Math.abs] keeps [NaN] and nothing else as [NaN]; what it yields
    otherwise is at least [0]; and it keeps a number above [0] above [0]. *)
Lemma abs_is_nan x : PrimFloat.is_nan (JS.Math_abs x) = PrimFloat.is_nan x.
Proof.
  unfold JS.Math_abs. rewrite !is_nan_SF, FloatAxioms.abs_spec.
  destruct (Prim2SF x); reflexivity.
Qed.

Lemma abs_sign x :
  PrimFloat.leb 0 (JS.Math_abs x) = true \/ PrimFloat.is_nan (JS.Math_abs x) = true.
Proof.
  unfold JS.Math_abs. rewrite is_nan_SF, FloatAxioms.leb_spec, FloatAxioms.abs_spec.
  change (Prim2SF 0) with (S754_zero false).
  destruct (Prim2SF x) as [s|s| |s m e]; cbn; auto.
Qed.

Lemma abs_positive x :
  PrimFloat.ltb 0 x = true -> PrimFloat.ltb 0 (JS.Math_abs x) = true.
Proof.
  unfold JS.Math_abs. rewrite !FloatAxioms.ltb_spec, FloatAxioms.abs_spec.
  change (Prim2SF 0) with (S754_zero false).
  destruct (Prim2SF x) as [s|s| |s m e]; cbn; auto.
Qed.

(** X17. Every entry [mapToEntry] makes of a CSV row has an amount that is
    never negative: it is at least [0], or it is [NaN], which happens
    exactly when the amount cell does not start with a number.  The entry is
    an ASSET or an EXPENSE, is an ASSET exactly when its category is Income,
    and then its amount is a number above [0]; it has a name that is not
    empty, a currency that is the row's or else the base currency, and high
    liquidity. *)
Theorem csv_row_becomes_entry toISOString (baseCurrency : string)
    (raw : gmap string string) (e e' : Env) (entry : FinanceEntry) :
  CsvImporter.mapToEntry toISOString baseCurrency raw e = (Ok entry, e') ->
  let amountStr :=
    CsvImporter.first_truthy [raw !! "amount"; raw !! "value"; raw !! "amount (gbp)"] "0" in
  (PrimFloat.leb 0 (FinanceEntry.amount entry) = true
   \/ PrimFloat.is_nan (FinanceEntry.amount entry) = true)
  /\ PrimFloat.is_nan (FinanceEntry.amount entry) = PrimFloat.is_nan (JS.parseFloat amountStr)
  /\ (FinanceEntry.type entry = ASSET \/ FinanceEntry.type entry = EXPENSE)
  /\ (FinanceEntry.type entry = ASSET <-> FinanceEntry.category entry = "Income")
  /\ (FinanceEntry.type entry = ASSET -> PrimFloat.ltb 0 (FinanceEntry.amount entry) = true)
  /\ FinanceEntry.name entry <> ""
  /\ (exists c, FinanceEntry.currency entry = Some c
        /\ (c = baseCurrency \/ raw !! "currency" = Some c))
  /\ FinanceEntry.liquidity entry = Some high.
Proof.
  unfold CsvImporter.mapToEntry, draw. run.
  set (amountStr := CsvImporter.first_truthy _ "0").
  set (name := CsvImporter.first_truthy _ "Unknown Merchant").
  assert (Hname : name <> "").
  { unfold name. cbn [CsvImporter.first_truthy]. unfold JS.truthy_opt.
    repeat match goal with
           | |- context [raw !! ?k] => destruct (raw !! k) as [[|? ?]|]; cbn [JS.truthy_str]
           end; discriminate. }
  assert (Hcur : exists c, Some (CsvImporter.first_truthy [raw !! "currency"] baseCurrency) = Some c
                           /\ (c = baseCurrency \/ raw !! "currency" = Some c)).
  { cbn [CsvImporter.first_truthy]. unfold JS.truthy_opt.
    destruct (raw !! "currency") as [[|? ?]|]; cbn [JS.truthy_str]; eauto. }
  assert (Hgoal : forall id date,
    let entry := FinanceEntry.mk id (if JS.gt (JS.parseFloat amountStr) 0 then ASSET else EXPENSE)
          (CsvImporter.category_of (JS.gt (JS.parseFloat amountStr) 0) (JS.toLowerCase name))
          name (JS.Math_abs (JS.parseFloat amountStr))
          (Some (CsvImporter.first_truthy [raw !! "currency"] baseCurrency)) None date
          None None None None None None None None None None (Some high)
          None None None None None in
    (PrimFloat.leb 0 (FinanceEntry.amount entry) = true
     \/ PrimFloat.is_nan (FinanceEntry.amount entry) = true)
    /\ PrimFloat.is_nan (FinanceEntry.amount entry)
       = PrimFloat.is_nan (JS.parseFloat amountStr)
    /\ (FinanceEntry.type entry = ASSET \/ FinanceEntry.type entry = EXPENSE)
    /\ (FinanceEntry.type entry = ASSET <-> FinanceEntry.category entry = "Income")
    /\ (FinanceEntry.type entry = ASSET -> PrimFloat.ltb 0 (FinanceEntry.amount entry) = true)
    /\ FinanceEntry.name entry <> ""
    /\ (exists c, FinanceEntry.currency entry = Some c
          /\ (c = baseCurrency \/ raw !! "currency" = Some c))
    /\ FinanceEntry.liquidity entry = Some high).
  { intros id date. cbv zeta. cbn [FinanceEntry.amount FinanceEntry.type FinanceEntry.category
      FinanceEntry.name FinanceEntry.currency FinanceEntry.liquidity].
    split; [apply abs_sign|]. split; [apply abs_is_nan|].
    split; [destruct (JS.gt _ _); auto|].
    split; [rewrite category_of_income; destruct (JS.gt _ _); split; congruence|].
    split; [|split; [exact Hname | split; [exact Hcur | reflexivity]]].
    unfold JS.gt. destruct (PrimFloat.ltb 0 (JS.parseFloat amountStr)) eqn:Hgt;
      [intros _; apply abs_positive, Hgt | discriminate]. }
  cbv zeta. fold amountStr.
  destruct (JS.truthy_opt (raw !! "date")) as [d|].
  - destruct (toISOString d); run; intros H; inversion H; subst. apply Hgoal.
  - run. intros H; inversion H; subst. apply Hgoal.
Qed.

Lemma csv_row_becomes_entry_witness :
  exists entry e',
    CsvImporter.mapToEntry (fun _ => None) "USD"
      {[ "name" := "Tesco"; "amount" := "-12.50" ]} (Example.env local_db)
    = (Ok entry, e')
    /\ (PrimFloat.leb 0 (FinanceEntry.amount entry) = true
        \/ PrimFloat.is_nan (FinanceEntry.amount entry) = true)
    /\ FinanceEntry.type entry = EXPENSE.
Proof.
  eexists _, _. split; [vm_compute; reflexivity|].
  split; [|reflexivity].
  eapply (csv_row_becomes_entry (fun _ => None) "USD"
            {[ "name" := "Tesco"; "amount" := "-12.50" ]} (Example.env local_db)).
  vm_compute. reflexivity.
Defined.

(** ** The text of a CSV file *)

Section CsvTextFacts.

Import CsvText.

Lemma lines_cons c r :
  is_LF c = false -> is_CR c = false ->
  lines (String c r)
  = match lines r with
    | l :: ls => String c l :: ls
    | [] => [String c EmptyString]
    end.
Proof.
  intros Hlf Hcr. cbn [lines]. rewrite Hlf, Hcr. destruct r; reflexivity.
Qed.

Lemma lines_crlf text : Shape.no_CR text = true -> lines (Shape.crlf text) = lines text.
Proof.
  induction text as [|c r IH]; [reflexivity|].
  unfold Shape.no_CR. cbn [JS.all_chars]. rewrite andb_true_iff, negb_true_iff.
  intros [Hc Hr]. specialize (IH Hr). cbn [Shape.crlf].
  destruct (is_LF c) eqn:Hlf.
  - cbn [lines]. rewrite Hlf. change (is_LF (ascii_of_nat 13)) with false.
    change (is_CR (ascii_of_nat 13)) with true. cbn [andb]. rewrite IH. reflexivity.
  - rewrite !lines_cons by assumption. rewrite IH. reflexivity.
Qed.

(** X18. [parseCSV] reads a text the same with Windows line endings as with
    Unix ones: putting a carriage return before every line feed of a text
    that has none changes no row. *)
Theorem line_endings_do_not_matter (text : string) :
  Shape.no_CR text = true -> parseCSV (Shape.crlf text) = parseCSV text.
Proof.
  intros H. unfold parseCSV, headers. rewrite lines_crlf by exact H. reflexivity.
Qed.

Lemma line_endings_do_not_matter_witness :
  Shape.no_CR Sample.csv = true
  /\ parseCSV (Shape.crlf Sample.csv) = parseCSV Sample.csv.
Proof.
  split; [reflexivity|]. apply (line_endings_do_not_matter Sample.csv). reflexivity.
Defined.

Lemma set_cell_fold values pairs : forall (obj : gmap string string) k v,
  fold_left (set_cell values) pairs obj !! k = Some v ->
  obj !! k = Some v
  \/ (k ∈ pairs.*2 /\ exists cell, cell ∈ values /\ v = JS.trim cell).
Proof.
  induction pairs as [|[i h] pairs IH]; intros obj k v; [simpl; auto|].
  cbn [fold_left]. intros H. apply IH in H as [H | (Hk & cell & Hc)].
  - unfold set_cell in H. case_bool_decide as Hp; [auto|].
    destruct (values !! i) as [x|] eqn:Hx.
    + destruct (decide (h = k)) as [->|Hne].
      * rewrite lookup_insert_eq in H. injection H as <-. right.
        split; [apply list_elem_of_here|]. exists x. split; [|reflexivity].
        eapply list_elem_of_lookup_2, Hx.
      * rewrite lookup_insert_ne in H by exact Hne. auto.
    + destruct (decide (h = k)) as [->|Hne].
      * rewrite lookup_delete_eq in H. discriminate.
      * rewrite lookup_delete_ne in H by exact Hne. auto.
  - right. split; [apply list_elem_of_further, Hk | eauto].
Qed.

Lemma lower_char_idem c : JS.lower_char (JS.lower_char c) = JS.lower_char c.
Proof. destruct c as [[] [] [] [] [] [] [] []]; reflexivity. Qed.

Lemma toLowerCase_idem s : JS.toLowerCase (JS.toLowerCase s) = JS.toLowerCase s.
Proof.
  unfold JS.toLowerCase. induction s as [|c s IH]; [reflexivity|].
  cbn [JS.map_chars]. rewrite lower_char_idem, IH. reflexivity.
Qed.

Lemma numbered_headers (hs : list string) : (imap (fun i h => (i, h)) hs).*2 = hs.
Proof.
  rewrite fmap_imap. rewrite (imap_ext _ (const id)) by reflexivity.
  rewrite imap_const. apply list_fmap_id.
Qed.

(** X19. Every property of a row [parseCSV] returns is named by a header of
    the first line, trimmed and lower-cased, and holds the trimmed content
    of a cell of a later line that is not blank. *)
Theorem rows_hold_trimmed_cells (text : string) (r : gmap string string) (k v : string) :
  r ∈ parseCSV text -> r !! k = Some v ->
  k ∈ headers text
  /\ JS.toLowerCase k = k
  /\ exists line cell,
       line ∈ tail (lines text) /\ JS.trim line <> ""
       /\ cell ∈ cells line /\ v = JS.trim cell.
Proof.
  unfold parseCSV. intros Hr Hk.
  apply list_elem_of_fmap in Hr as (line & -> & Hline).
  apply list_elem_of_filter in Hline as [Htrim Hline].
  unfold row in Hk. apply set_cell_fold in Hk as [Hk | (Hin & cell & Hcell & ->)].
  { rewrite lookup_empty in Hk. discriminate. }
  rewrite numbered_headers in Hin. split; [exact Hin|]. split.
  - unfold headers in Hin. apply list_elem_of_fmap in Hin as (h & -> & _).
    apply toLowerCase_idem.
  - exists line, cell. repeat split; try assumption.
    intros Hempty. rewrite Hempty in Htrim. discriminate.
Qed.

Lemma rows_hold_trimmed_cells_witness :
  exists r rest,
    parseCSV Sample.csv = r :: rest
    /\ r !! "name" = Some "Tesco"
    /\ "name" ∈ headers Sample.csv.
Proof.
  eexists _, _. split; [vm_compute; reflexivity|]. split; [reflexivity|].
  eapply (rows_hold_trimmed_cells Sample.csv _ "name" "Tesco").
  - vm_compute. apply list_elem_of_here.
  - reflexivity.
Defined.

End CsvTextFacts.

(** ** Property valuation *)

Section ValuationFacts.

Import PropertyValuation.

Lemma priceMatch_skips pre s :
  Shape.no_digit pre = true -> priceMatch (pre +:+ s) = priceMatch s.
Proof.
  induction pre as [|x pre IH]; [reflexivity|].
  unfold Shape.no_digit. cbn [JS.all_chars]. rewrite andb_true_iff, negb_true_iff.
  intros [Hx Hpre]. rewrite append_cons. cbn [priceMatch]. rewrite Hx. apply IH, Hpre.
Qed.

Lemma priceMatch_no_digit s : Shape.no_digit s = true -> priceMatch s = None.
Proof.
  intros H. rewrite <- (append_nil_r s). rewrite priceMatch_skips by exact H. reflexivity.
Qed.

Lemma is_digit_digit_of c : is_digit c = true -> exists k, JS.digit_of c = Some k /\ 0 <= k <= 9.
Proof.
  unfold is_digit, JS.digit_of. intros H. rewrite H. eexists. split; [reflexivity|].
  apply andb_true_iff in H as [H1 H2].
  apply Nat.leb_le in H1, H2. lia.
Qed.

Lemma digit_not_space c : is_digit c = true -> JS.is_space c = false.
Proof.
  unfold is_digit, JS.is_space. intros H.
  apply andb_true_iff in H as [H1 H2]. apply Nat.leb_le in H1, H2.
  apply orb_false_iff. split.
  - apply andb_false_iff. right. apply Nat.leb_gt. lia.
  - apply Nat.eqb_neq. lia.
Qed.

Lemma digit_not_comma c : is_digit c = true -> is_comma c = false.
Proof.
  unfold is_digit, is_comma. intros H.
  apply andb_true_iff in H as [H1 H2]. apply Nat.leb_le in H1, H2.
  apply Nat.eqb_neq. lia.
Qed.

Lemma digit_is_plain c :
  is_digit c = true ->
  c <> "-"%char /\ c <> "+"%char /\ c <> "I"%char /\ c <> "."%char
  /\ c <> "e"%char /\ c <> "E"%char.
Proof.
  intros H. repeat split; intros ->; vm_compute in H; discriminate.
Qed.

(** [parseFloat] of three digits is the integer they write. *)
Lemma parseFloat_three_digits a b c :
  is_digit a = true -> is_digit b = true -> is_digit c = true ->
  exists n, 0 <= n <= 999
    /\ JS.parseFloat (String a (String b (String c ""))) = JS.number_of_Z n.
Proof.
  intros Ha Hb Hc.
  destruct (is_digit_digit_of a Ha) as (ka & Hka & Hra).
  destruct (is_digit_digit_of b Hb) as (kb & Hkb & Hrb).
  destruct (is_digit_digit_of c Hc) as (kc & Hkc & Hrc).
  exists (10 * (10 * (10 * 0 + ka) + kb) + kc). split; [lia|].
  unfold JS.parseFloat. cbn [JS.trimStart]. rewrite (digit_not_space a Ha).
  destruct (digit_is_plain a Ha) as (Hm & Hp & Hi & _).
  assert (Hsign : (match String a (String b (String c "")) with
                   | String "-" r => (true, r)
                   | String "+" r => (false, r)
                   | _ => (false, String a (String b (String c "")))
                   end) = (false, String a (String b (String c "")))).
  { destruct a as [[] [] [] [] [] [] [] []]; try reflexivity; congruence. }
  rewrite Hsign.
  assert (Hinf : String.prefix "Infinity" (String a (String b (String c ""))) = false).
  { clear Hsign Hka. destruct a as [[] [] [] [] [] [] [] []]; try reflexivity; congruence. }
  rewrite Hinf.
  cbn [JS.digits]. rewrite Hka, Hkb, Hkc. cbn [JS.exponent Nat.add].
  unfold JS.scale10. cbn [Z.of_nat Z.sub Z.opp Z.leb Z.compare Z.add].
  f_equal. lia.
Qed.

(** X20. [estimatePropertyValuation] reads the first figure of the answer by
    a pattern that takes at most three digits before a separator: when the
    first digits of the text are four or more in a row, the figure captured
    is the first three of them, and the estimated value is an integer of at
    most 999. *)
Theorem unseparated_figure_is_cut (pre rest : string) (a b c d : ascii)
    (groundingChunks : option (list chunk)) :
  Shape.no_digit pre = true ->
  is_digit a = true -> is_digit b = true -> is_digit c = true -> is_digit d = true ->
  let text := pre +:+ String a (String b (String c (String d rest))) in
  priceMatch text = Some (String a (String b (String c "")))
  /\ exists n, 0 <= n <= 999
       /\ ValuationResult.estimatedValue (read (Some text) groundingChunks)
          = JS.number_of_Z n.
Proof.
  intros Hpre Ha Hb Hc Hd. cbv zeta.
  assert (Hmatch : priceMatch (pre +:+ String a (String b (String c (String d rest))))
                   = Some (String a (String b (String c "")))).
  { rewrite priceMatch_skips by exact Hpre.
    cbn [priceMatch upto_digits]. rewrite Ha, Hb, Hc.
    cbn [thousands]. rewrite (digit_not_comma d Hd).
    destruct rest as [|r1 [|r2 [|r3 rest]]]; cbn [andb];
      unfold fraction;
      (destruct (digit_is_plain d Hd) as (_ & _ & _ & Hdot & _);
       destruct d as [[] [] [] [] [] [] [] []]; try reflexivity; congruence). }
  split; [exact Hmatch|].
  destruct (parseFloat_three_digits a b c Ha Hb Hc) as (n & Hn & Hparse).
  exists n. split; [exact Hn|].
  unfold read. cbn [ValuationResult.estimatedValue].
  assert (Htext : JS.truthy_opt (Some (pre +:+ String a (String b (String c (String d rest)))))
                  = Some (pre +:+ String a (String b (String c (String d rest))))).
  { unfold JS.truthy_opt. destruct pre; reflexivity. }
  rewrite Htext. cbn [default from_option id]. rewrite Hmatch.
  cbn [JS.remove_chars]. rewrite (digit_not_comma a Ha), (digit_not_comma b Hb),
    (digit_not_comma c Hc). exact Hparse.
Qed.

Lemma unseparated_figure_is_cut_witness :
  Shape.no_digit "About $" = true
  /\ is_digit "4" = true /\ is_digit "5" = true /\ is_digit "0" = true
  /\ priceMatch "About $450000 in all" = Some "450".
Proof.
  repeat (split; [reflexivity|]).
  apply (unseparated_figure_is_cut "About $" "00 in all" "4" "5" "0" "0" None);
    reflexivity.
Defined.

End ValuationFacts.

(** ** The ledger *)

(** X21. With a snapshot loaded and a key selected, re-valuing an entry that
    has an address, on an answer without any digit, resolves without an
    alert, replaces the entry (by id) by its re-valued form and leaves every
    other entry in place; the re-valued form has the old amount. *)
Theorem revaluation_without_a_figure (s : State) (current : UserData)
    (entry : FinanceEntry) (address text today : string)
    (groundingChunks : option (list PropertyValuation.chunk)) :
  user (app s) = Some current ->
  JS.truthy_opt (FinanceEntry.address entry) = Some address ->
  Shape.no_digit text = true ->
  let revalued :=
    ArchiveLedger.revalued entry (PropertyValuation.read (Some text) groundingChunks)
      (now (world (env s))) today in
  exists s',
    ArchiveLedger.handleRevaluate true (PropertyValuation.Answer (Some text) groundingChunks)
      today entry s = (Ok None, s')
    /\ entries_of s'
       = (fun e => if bool_decide (FinanceEntry.id e = FinanceEntry.id entry)
                   then revalued else e) <$> UserData.entries current
    /\ FinanceEntry.amount revalued = FinanceEntry.amount entry.
Proof.
  intros Hu Haddr Htext. cbv zeta.
  unfold ArchiveLedger.handleRevaluate. rewrite Haddr. cbn [negb].
  unfold try_catch, PropertyValuation.estimatePropertyValuation. run.
  rewrite run_lift. cbn [fst snd]. run.
  match goal with
  | |- context [App.updateEntry ?u ?st] =>
      destruct (updateEntry_replaces u st current Hu) as (s' & -> & Hentries)
  end.
  run. exists s'. split; [reflexivity|]. split; [exact Hentries|].
  unfold ArchiveLedger.revalued, PropertyValuation.read.
  cbn [FinanceEntry.amount ValuationResult.estimatedValue].
  assert (Hmatch : PropertyValuation.priceMatch (default "" (JS.truthy_opt (Some text))) = None).
  { apply priceMatch_no_digit. destruct text; [reflexivity | exact Htext]. }
  rewrite Hmatch. reflexivity.
Qed.

Lemma revaluation_without_a_figure_witness :
  let s := Example.state local_db Rejected ExtractRejected
             (Example.app_of Sample.with_house) in
  user (app s) = Some Sample.with_house
  /\ JS.truthy_opt (FinanceEntry.address Sample.house) = Some "1 High Street, Leeds"
  /\ Shape.no_digit "No comparable sales were found." = true
  /\ exists s',
       ArchiveLedger.handleRevaluate true
         (PropertyValuation.Answer (Some "No comparable sales were found.") None)
         "15/06/2025" Sample.house s = (Ok None, s')
       /\ (FinanceEntry.amount <$> newest s') = Some 250000%float.
Proof.
  cbv zeta. split; [reflexivity | split; [reflexivity | split; [reflexivity|]]].
  destruct (revaluation_without_a_figure
              (Example.state local_db Rejected ExtractRejected
                 (Example.app_of Sample.with_house))
              Sample.with_house Sample.house "1 High Street, Leeds"
              "No comparable sales were found." "15/06/2025" None
              eq_refl eq_refl eq_refl) as (s' & Heq & Hentries & Hamount).
  exists s'. split; [exact Heq|].
  unfold newest. rewrite Hentries. cbn [UserData.entries Sample.with_house App.with_entries
    fmap list_fmap head]. rewrite bool_decide_eq_true_2 by reflexivity.
  cbn [option_fmap option_map]. rewrite Hamount. reflexivity.
Defined.

Lemma includes_empty s : JS.includes "" s = true.
Proof. destruct s; reflexivity. Qed.

Lemma push_fold (l : list FinanceEntry) : forall g0,
  Forall (fun e => ArchiveLedger.month_of e <> "valueOf") l ->
  exists g,
    fold_left ArchiveLedger.push l (Some g0) = Some g
    /\ forall month,
         g !! month
         = match filter (fun e => ArchiveLedger.month_of e = month) l with
           | [] => g0 !! month
           | es => Some (default [] (g0 !! month) ++ es)
           end.
Proof.
  induction l as [|e l IH]; intros g0 Hl.
  - exists g0. split; reflexivity.
  - inversion Hl as [|? ? He Hl']; subst.
    cbn [fold_left]. unfold ArchiveLedger.push at 2. cbn [mbind option_bind].
    rewrite bool_decide_eq_false_2 by exact He.
    destruct (IH (<[ArchiveLedger.month_of e :=
                     default [] (g0 !! ArchiveLedger.month_of e) ++ [e]]> g0) Hl')
      as (g & Hg & Hlookup).
    exists g. split; [exact Hg|]. intros month. rewrite Hlookup, filter_cons.
    destruct (decide (ArchiveLedger.month_of e = month)) as [->|Hne].
    + rewrite lookup_insert_eq. cbn [default from_option id].
      destruct (filter _ l); [reflexivity|]. rewrite <- app_assoc. reflexivity.
    + rewrite lookup_insert_ne by exact Hne. reflexivity.
Qed.

(** X22. The ledger groups every entry matching the search under the first
    seven characters of its date: the group of a month is the matching
    entries of that month, in ledger order, and there is no empty group;
    with an empty search every entry matches.  (No matching entry is dated
    [valueOf...], a name the plain object [groups] reads as a function.) *)
Theorem ledger_groups_by_month (search : string) (data : UserData) :
  Forall (fun e => ArchiveLedger.month_of e <> "valueOf")
    (ArchiveLedger.filtered search data) ->
  (search = "" -> ArchiveLedger.filtered search data = UserData.entries data)
  /\ exists g,
       ArchiveLedger.groups search data = Some g
       /\ forall month,
            g !! month
            = match filter (fun e => ArchiveLedger.month_of e = month)
                      (ArchiveLedger.filtered search data) with
              | [] => None
              | es => Some es
              end.
Proof.
  intros Hl. split.
  - intros ->. unfold ArchiveLedger.filtered.
    induction (UserData.entries data) as [|e es IH]; [reflexivity|].
    rewrite filter_cons, decide_True; [rewrite IH; reflexivity|].
    unfold ArchiveLedger.matches. cbn [JS.toLowerCase JS.map_chars].
    rewrite includes_empty. reflexivity.
  - unfold ArchiveLedger.groups.
    destruct (push_fold (ArchiveLedger.filtered search data) ∅ Hl) as (g & Hg & Hlookup).
    exists g. split; [exact Hg|]. intros month. rewrite Hlookup, lookup_empty.
    destruct (filter _ _); reflexivity.
Qed.

Lemma ledger_groups_by_month_witness :
  Forall (fun e => ArchiveLedger.month_of e <> "valueOf")
    (ArchiveLedger.filtered "" Example.mixed)
  /\ ArchiveLedger.filtered "" Example.mixed = UserData.entries Example.mixed.
Proof.
  assert (H : Forall (fun e => ArchiveLedger.month_of e <> "valueOf")
                (ArchiveLedger.filtered "" Example.mixed)).
  { vm_compute. repeat constructor; discriminate. }
  split; [exact H|].
  destruct (ledger_groups_by_month "" Example.mixed H) as [Hall _]. apply Hall. reflexivity.
Defined.

(** ** Generating the passkey *)

(** X23. With a snapshot loaded, [handleGeneratePasskey] resolves with a
    legacy profile installed whose passkey has the specified shape (sixteen
    characters of the alphabet in four hyphenated blocks), marked
    configured, under the successor name given or else a default that is
    not empty. *)
Theorem generated_passkey_is_stored (successorName : string) (s : State)
    (current : UserData) :
  user (app s) = Some current ->
  (forall k, 0 <= random (world (env s)) k /\ random (world (env s)) k < 1)%Q ->
  exists s' legacy,
    SafetyNet.handleGeneratePasskey successorName s = (Ok tt, s')
    /\ (user (app s') ≫= UserData.legacy) = Some legacy
    /\ Spec.well_shaped (LegacyProfile.recoveryPasskey legacy)
    /\ LegacyProfile.isConfigured legacy = true
    /\ LegacyProfile.successorName legacy <> ""
    /\ (successorName <> "" -> LegacyProfile.successorName legacy = successorName).
Proof.
  intros Hu Hr. unfold SafetyNet.handleGeneratePasskey. rewrite run_bind, run_lift.
  destruct (generated_passkey_well_shaped (env s) Hr) as (passkey & e' & -> & Hshape).
  cbn [fst snd]. run.
  match goal with
  | |- context [App.updateLegacy ?l ?st] =>
      destruct (updateLegacy_installs l st current Hu) as (s' & -> & Hl)
  end.
  eexists _, _. split; [reflexivity|]. split; [exact Hl|].
  cbn [LegacyProfile.recoveryPasskey LegacyProfile.isConfigured LegacyProfile.successorName].
  split; [exact Hshape|]. split; [reflexivity|].
  split; [apply or_else_str_not_empty; discriminate|].
  intros Hne. destruct successorName; [congruence | reflexivity].
Qed.

Lemma generated_passkey_is_stored_witness :
  let s := Example.state local_db Rejected ExtractRejected (Example.app_of Example.mixed) in
  user (app s) = Some Example.mixed
  /\ (forall k, 0 <= random (world (env s)) k /\ random (world (env s)) k < 1)%Q
  /\ exists s' legacy,
       SafetyNet.handleGeneratePasskey "" s = (Ok tt, s')
       /\ (user (app s') ≫= UserData.legacy) = Some legacy
       /\ Spec.well_shaped (LegacyProfile.recoveryPasskey legacy).
Proof.
  cbv zeta.
  assert (Hr : forall k : nat,
    (0 <= random (world (env (Example.state local_db Rejected ExtractRejected
                               (Example.app_of Example.mixed)))) k
     /\ random (world (env (Example.state local_db Rejected ExtractRejected
                              (Example.app_of Example.mixed)))) k < 1)%Q).
  { intros k. split; [apply Qle_refl | reflexivity]. }
  split; [reflexivity | split; [exact Hr|]].
  destruct (generated_passkey_is_stored ""
              (Example.state local_db Rejected ExtractRejected (Example.app_of Example.mixed))
              Example.mixed eq_refl Hr) as (s' & legacy & Heq & Hl & Hshape & _).
  exists s', legacy. auto.
Defined.

(** ** The passkey, typed without its hyphens *)

Lemma rev_app_rev_app s : forall a b,
  String.rev_app (String.rev_app s a) b = String.rev_app a (s +:+ b).
Proof.
  induction s as [|c s IH]; intros a b; [reflexivity|].
  cbn [String.rev_app]. rewrite IH. reflexivity.
Qed.

Lemma rev_rev s : String.rev (String.rev s) = s.
Proof. unfold String.rev. rewrite rev_app_rev_app. simpl. apply append_nil_r. Qed.

Lemma all_chars_rev_app p s : forall acc,
  JS.all_chars p (String.rev_app s acc) = JS.all_chars p s && JS.all_chars p acc.
Proof.
  induction s as [|c s IH]; intros acc; [reflexivity|].
  cbn [String.rev_app JS.all_chars]. rewrite IH. cbn [JS.all_chars].
  destruct (p c), (JS.all_chars p s); reflexivity.
Qed.

Lemma trimStart_no_space s :
  JS.all_chars (fun c => negb (JS.is_space c)) s = true -> JS.trimStart s = s.
Proof.
  destruct s as [|c s]; [reflexivity|]. cbn [JS.all_chars JS.trimStart].
  destruct (JS.is_space c); [discriminate | reflexivity].
Qed.

Lemma trim_no_space s :
  JS.all_chars (fun c => negb (JS.is_space c)) s = true -> JS.trim s = s.
Proof.
  intros H. unfold JS.trim, JS.trimEnd. rewrite (trimStart_no_space s H).
  rewrite trimStart_no_space; [apply rev_rev|].
  unfold String.rev. rewrite all_chars_rev_app, H. reflexivity.
Qed.

Lemma toUpperCase_fixed s :
  JS.all_chars (fun c => bool_decide (JS.upper_char c = c)) s = true ->
  JS.toUpperCase s = s.
Proof.
  unfold JS.toUpperCase. induction s as [|c s IH]; [reflexivity|].
  cbn [JS.all_chars JS.map_chars]. rewrite andb_true_iff, bool_decide_eq_true.
  intros [-> H]. rewrite (IH H). reflexivity.
Qed.

Lemma all_chars_append p a b :
  JS.all_chars p (a +:+ b) = JS.all_chars p a && JS.all_chars p b.
Proof.
  induction a as [|c a IH]; [reflexivity|].
  rewrite append_cons. cbn [JS.all_chars]. rewrite IH. apply andb_assoc.
Qed.

Lemma all_chars_blocks p cs : forall i,
  p "-"%char = true -> Forall (fun c => p c = true) cs ->
  JS.all_chars p (Spec.blocks i cs) = true.
Proof.
  induction cs as [|c cs IH]; intros i Hh Hall; [reflexivity|].
  apply Forall_cons in Hall as [Hc Hall]. cbn [Spec.blocks].
  rewrite all_chars_append. cbn [JS.all_chars]. rewrite Hc, (IH _ Hh Hall).
  destruct ((0 <? i)%nat && (i mod 4 =? 0)%nat); cbn [JS.all_chars]; rewrite ?Hh; reflexivity.
Qed.

Lemma remove_chars_append drop a b :
  JS.remove_chars drop (a +:+ b) = JS.remove_chars drop a +:+ JS.remove_chars drop b.
Proof.
  induction a as [|c a IH]; [reflexivity|].
  rewrite append_cons. cbn [JS.remove_chars]. rewrite IH. destruct (drop c); reflexivity.
Qed.

Lemma remove_hyphens_blocks cs : forall i,
  Forall (fun c => JS.is_hyphen c || JS.is_space c = false) cs ->
  JS.remove_chars (fun c => JS.is_hyphen c || JS.is_space c) (Spec.blocks i cs)
  = string_of_list_ascii cs.
Proof.
  induction cs as [|c cs IH]; intros i Hall; [reflexivity|].
  apply Forall_cons in Hall as [Hc Hall]. cbn [Spec.blocks string_of_list_ascii].
  rewrite remove_chars_append. cbn [JS.remove_chars]. rewrite Hc, (IH _ Hall).
  destruct ((0 <? i)%nat && (i mod 4 =? 0)%nat); reflexivity.
Qed.

Lemma charset_plain c :
  c ∈ list_ascii_of_string SafetyNet.charset ->
  JS.is_space c = false /\ JS.is_hyphen c = false /\ JS.upper_char c = c.
Proof.
  intros H. vm_compute in H.
  repeat (apply elem_of_cons in H as [-> | H]; [repeat split; reflexivity|]).
  by apply elem_of_nil in H.
Qed.

(** The stored passkey, normalised, is its sixteen characters. *)
Lemma normalizedPasskey_of_blocks (cs : list ascii) :
  Forall (fun c => c ∈ list_ascii_of_string SafetyNet.charset) cs ->
  SecurityVault.normalizedPasskey (Spec.blocks 0 cs) = string_of_list_ascii cs.
Proof.
  intros Hall. unfold SecurityVault.normalizedPasskey.
  rewrite trim_no_space, toUpperCase_fixed.
  - apply remove_hyphens_blocks. eapply Forall_impl; [exact Hall|].
    intros c Hc. destruct (charset_plain c Hc) as (Hs & Hh & _). rewrite Hs, Hh. reflexivity.
  - apply all_chars_blocks; [reflexivity|]. eapply Forall_impl; [exact Hall|].
    intros c Hc. destruct (charset_plain c Hc) as (_ & _ & Hu).
    apply bool_decide_eq_true, Hu.
  - apply all_chars_blocks; [reflexivity|]. eapply Forall_impl; [exact Hall|].
    intros c Hc. destruct (charset_plain c Hc) as (Hs & _ & _). rewrite Hs. reflexivity.
Qed.

(** X24. A stored passkey of the generated shape is accepted when typed
    without its hyphens: any input whose first nineteen characters (what the
    field takes), trimmed, upper-cased and stripped of white space, spell
    the sixteen characters, typed into the passkey field of a locked
    session, unlocks the vault. *)
Theorem passkey_without_hyphens_unlocks (d : UserData) (legacy : LegacyProfile)
    (cs : list ascii) (input : string) :
  UserData.legacy d = Some legacy ->
  LegacyProfile.recoveryPasskey legacy = Spec.blocks 0 cs ->
  length cs = 16%nat ->
  Forall (fun c => c ∈ list_ascii_of_string SafetyNet.charset) cs ->
  SecurityVault.normalizedInput (JS.slice0 19 input) = string_of_list_ascii cs ->
  Session.locked (Example.try_passkey input (Example.locked_session d)) = false.
Proof.
  intros Hlegacy Hstored Hlen Hall Hinput.
  assert (Hne : JS.truthy_opt (Some (Spec.blocks 0 cs)) = Some (Spec.blocks 0 cs)).
  { destruct cs as [|c cs]; [discriminate Hlen | reflexivity]. }
  unfold Example.try_passkey, Example.locked_session, Session.enter.
  cbn -[SecurityVault.normalizedInput SecurityVault.normalizedPasskey JS.slice0
        JS.truthy_opt Spec.blocks].
  rewrite Hlegacy. cbn -[SecurityVault.normalizedInput SecurityVault.normalizedPasskey
                         JS.slice0 JS.truthy_opt Spec.blocks].
  unfold SecurityVault.handlePasskeyUnlock. cbn [fmap option_fmap option_map].
  rewrite Hstored, Hne.
  cbn [SecurityVault.setPasskeyInput SecurityVault.passkeyInput].
  rewrite Hinput, normalizedPasskey_of_blocks by exact Hall.
  rewrite bool_decide_eq_true_2 by reflexivity. reflexivity.
Qed.

Lemma passkey_without_hyphens_unlocks_witness :
  let cs := list_ascii_of_string "ABCDEFGHJKLMNPQR" in
  UserData.legacy Example.with_passkey = Some Example.legacy
  /\ LegacyProfile.recoveryPasskey Example.legacy = Spec.blocks 0 cs
  /\ length cs = 16%nat
  /\ Forall (fun c => c ∈ list_ascii_of_string SafetyNet.charset) cs
  /\ SecurityVault.normalizedInput (JS.slice0 19 "abcd efgh jklm npqr")
     = string_of_list_ascii cs
  /\ Session.locked (Example.try_passkey "abcd efgh jklm npqr"
                       (Example.locked_session Example.with_passkey)) = false.
Proof.
  cbv zeta.
  assert (Hall : Forall (fun c => c ∈ list_ascii_of_string SafetyNet.charset)
                   (list_ascii_of_string "ABCDEFGHJKLMNPQR")).
  { vm_compute.
    repeat (constructor;
            [repeat first [apply list_elem_of_here | apply list_elem_of_further]|]).
    constructor. }
  split; [reflexivity | split; [reflexivity | split; [reflexivity | split; [exact Hall|]]]].
  split; [reflexivity|].
  apply (passkey_without_hyphens_unlocks Example.with_passkey Example.legacy
           (list_ascii_of_string "ABCDEFGHJKLMNPQR") "abcd efgh jklm npqr");
    first [reflexivity | exact Hall].
Defined.

(** ** Scanning a statement *)

Lemma keeps_ret {A} (a : A) : keeps_services (mret a).
Proof. intros e. reflexivity. Qed.

Lemma keeps_throw {A} msg : keeps_services (throw msg : IO A).
Proof. intros e. reflexivity. Qed.

Lemma keeps_gets {A} (f : Env -> A) : keeps_services (gets f).
Proof. intros e. reflexivity. Qed.

Lemma keeps_modify_world f : keeps_services (modify_world f).
Proof. intros e. reflexivity. Qed.

Lemma keeps_bind {A B} (m : IO A) (f : A -> IO B) :
  keeps_services m -> (forall a, keeps_services (f a)) -> keeps_services (m ≫= f).
Proof.
  intros Hm Hf e. rewrite run_bind. specialize (Hm e).
  destruct (m e) as [[a|msg|] e1]; cbn [snd] in *; [|exact Hm|exact Hm].
  rewrite Hf. exact Hm.
Qed.

Lemma keeps_try_catch {A} (m : IO A) h :
  keeps_services m -> (forall msg, keeps_services (h msg)) -> keeps_services (try_catch m h).
Proof.
  intros Hm Hh e. unfold try_catch. specialize (Hm e).
  destruct (m e) as [[a|msg|] e1]; cbn [snd] in *; [exact Hm| |exact Hm].
  rewrite Hh. exact Hm.
Qed.

Lemma keeps_io what : keeps_services (io what).
Proof.
  unfold io. apply keeps_bind; [apply keeps_gets|].
  intros [|[] rest]; [apply keeps_ret | |];
    (apply keeps_bind; [apply keeps_modify_world|]; intros _);
    [apply keeps_throw | apply keeps_ret].
Qed.

Lemma keeps_draw {A} (source : World -> nat -> A) : keeps_services (draw source).
Proof.
  unfold draw. apply keeps_bind; [apply keeps_gets|]. intros x.
  apply keeps_bind; [apply keeps_modify_world|]. intros _. apply keeps_ret.
Qed.

Create HintDb kept.
#[local] Hint Resolve keeps_ret keeps_throw keeps_gets keeps_modify_world keeps_io
  keeps_draw : kept.
#[local] Hint Extern 2 (keeps_services (_ ≫= _)) => apply keeps_bind; [|intros] : kept.
#[local] Hint Extern 2 (keeps_services (try_catch _ _)) =>
  apply keeps_try_catch; [|intros] : kept.
#[local] Hint Extern 3 (keeps_services (match ?x with _ => _ end)) => destruct x : kept.
#[local] Hint Extern 3 (keeps_services (if ?x then _ else _)) => destruct x : kept.

Lemma keeps_findFile name parentId : keeps_services (GoogleDriveService.findFile name parentId).
Proof. unfold GoogleDriveService.findFile. auto 10 with kept. Qed.

Lemma keeps_create name mime parents content :
  keeps_services (GoogleDriveService.create_remote name mime parents content).
Proof. unfold GoogleDriveService.create_remote. auto 10 with kept. Qed.

Lemma keeps_ensureFolder name parentId :
  keeps_services (GoogleDriveService.ensureFolder name parentId).
Proof.
  unfold GoogleDriveService.ensureFolder.
  apply keeps_bind; [apply keeps_findFile|]. intros existing.
  destruct (JS.truthy_opt existing); [apply keeps_ret|].
  apply keeps_bind; [apply keeps_io|]. intros _. apply keeps_create.
Qed.

Lemma keeps_upload base64 mime fileName parentId :
  keeps_services (GoogleDriveService.uploadBinaryFile base64 mime fileName parentId).
Proof.
  unfold GoogleDriveService.uploadBinaryFile.
  apply keeps_bind; [apply keeps_io|]. intros _. apply keeps_create.
Qed.

Lemma keeps_handle_for what name :
  keeps_services (GoogleDriveService.handle_for what name).
Proof.
  unfold GoogleDriveService.handle_for.
  destruct (GoogleDriveService.valid_name name); auto with kept.
Qed.

#[local] Hint Resolve keeps_ensureFolder keeps_upload keeps_handle_for : kept.

(** The modes in which [archiveStatement] guards itself. *)
Lemma archive_guarded base64 mimeType accountName date (e : Env) :
  (mode (svc e) = local_fs /\ directoryHandle (svc e) = true) \/ mode (svc e) = drive ->
  exists r e',
    GoogleDriveService.archiveStatement base64 mimeType accountName date e = (Ok r, e')
    /\ svc e' = svc e.
Proof.
  intros Hmode.
  destruct (archive_never_throws_when_guarded base64 mimeType accountName date e Hmode)
    as (r & e' & Heq).
  exists r, e'. split; [exact Heq|].
  change e' with (snd (Ok r, e')). rewrite <- Heq. clear Heq.
  unfold GoogleDriveService.archiveStatement, draw. destruct e as [w s]. run.
  destruct Hmode as [[Hm Hd] | Hm]; cbn [svc] in *; rewrite Hm; try rewrite Hd; run.
  - match goal with |- svc (snd (?m ?e1)) = _ => change s with (svc e1) end.
    apply keeps_try_catch; auto 30 with kept.
  - match goal with |- svc (snd (?m ?e1)) = _ => change s with (svc e1) end.
    apply keeps_try_catch; auto 30 with kept.
Qed.

Lemma archived_entry_ok baseCurrency base64 mimeType res (e : Env) :
  Shape.guarded e ->
  exists entry e',
    FinanceForms.archived_entry baseCurrency base64 mimeType res e = (Ok entry, e')
    /\ svc e' = svc e /\ Shape.recorded res entry.
Proof.
  intros Hg. unfold FinanceForms.archived_entry. run.
  match goal with
  | |- context [GoogleDriveService.archiveStatement ?b ?m ?a ?d e] =>
      destruct (archive_guarded b m a d e Hg) as (r & e1 & -> & Hsvc)
  end.
  unfold draw. run. eexists _, _. split; [reflexivity|].
  split; [exact Hsvc | repeat split].
Qed.

Lemma scan_archives_all baseCurrency base64 mimeType results : forall e,
  Shape.guarded e ->
  exists newEntries e',
    for_each (FinanceForms.archived_entry baseCurrency base64 mimeType) results e
    = (Ok newEntries, e')
    /\ Forall2 Shape.recorded results newEntries.
Proof.
  induction results as [|res results IH]; intros e Hg.
  - exists [], e. split; [reflexivity | constructor].
  - cbn [for_each]. rewrite run_bind.
    destruct (archived_entry_ok baseCurrency base64 mimeType res e Hg)
      as (entry & e1 & -> & Hsvc & Hrec).
    assert (Hg1 : Shape.guarded e1) by (unfold Shape.guarded in *; rewrite Hsvc; exact Hg).
    destruct (IH e1 Hg1) as (entries & e2 & Heq & Hall).
    rewrite run_bind, Heq. run. exists (entry :: entries), e2.
    split; [reflexivity | constructor; assumption].
Qed.

(** X25. In the modes where [archiveStatement] guards itself (the local
    directory with its handle, the remote drive), with a snapshot loaded, a
    scan that extracts transactions records one entry for each of them, in
    order and ahead of the old entries, under every fault script: it never
    ends in the scan-failed alert, and never in the nothing-found one. *)
Theorem scan_records_every_transaction (baseCurrency base64 mimeType : string)
    (s : State) (current : UserData) (results : list PartialEntry) :
  user (app s) = Some current ->
  Shape.guarded (env s) ->
  extract_service (world (env s)) = Extracted results ->
  results <> [] ->
  let r := FinanceForms.handleFileUpload baseCurrency base64 mimeType s in
  fst r <> Ok (Some FinanceForms.ScanFailed)
  /\ fst r <> Ok (Some FinanceForms.NoTransactionsFound)
  /\ exists newEntries,
       entries_of (snd r) = newEntries ++ UserData.entries current
       /\ Forall2 Shape.recorded results newEntries.
Proof.
  intros Hu Hg Hx Hne. cbv zeta.
  unfold FinanceForms.handleFileUpload, try_catch, GeminiService.processDocument.
  rewrite !run_bind. rewrite run_lift. rewrite run_bind, run_gets, Hx. run.
  destruct results as [|res results]; [congruence|].
  rewrite run_bind, run_lift. cbn [env app].
  destruct (scan_archives_all baseCurrency base64 mimeType (res :: results) (env s) Hg)
    as (newEntries & e' & -> & Hall).
  cbn [fst snd]. run.
  match goal with
  | |- context [App.addEntries newEntries ?st] =>
      pose proof (addEntries_adds newEntries st current Hu) as Hadd;
      pose proof (with_user_never_throws) as Hnt;
      assert (Hn : forall msg, fst (App.addEntries newEntries st) <> Throw msg);
      [|destruct (App.addEntries newEntries st) as [[[]|msg|] st']]
  end.
  { intros msg. unfold App.addEntries. apply with_user_never_throws. intros now0 d0.
    apply never_throws_bind; [apply never_throws_modify_app|]. intros _.
    apply never_throws_bind; [apply syncToCloud_never_throws|]. intros d1.
    apply never_throws_bind; [apply updateExchangeRates_never_throws|]. intros _.
    apply never_throws_modify_app. }
  - run. cbn [fst snd] in *. repeat split; try discriminate. eauto.
  - destruct (Hn msg). reflexivity.
  - cbn [fst snd] in *. repeat split; try discriminate. eauto.
Qed.

Lemma scan_records_every_transaction_witness :
  let s := Example.failing_state local_fs (Extracted [Example.coffee])
             (Example.app_of Example.mixed) in
  user (app s) = Some Example.mixed
  /\ Shape.guarded (env s)
  /\ extract_service (world (env s)) = Extracted [Example.coffee]
  /\ [Example.coffee] <> []
  /\ fst (FinanceForms.handleFileUpload "USD" "aGVsbG8=" "image/png" s)
     <> Ok (Some FinanceForms.ScanFailed).
Proof.
  cbv zeta.
  assert (Hg : Shape.guarded (env (Example.failing_state local_fs (Extracted [Example.coffee])
                                     (Example.app_of Example.mixed))))
    by (left; split; reflexivity).
  split; [reflexivity | split; [exact Hg | split; [reflexivity | split; [discriminate|]]]].
  apply (scan_records_every_transaction "USD" "aGVsbG8=" "image/png"
           (Example.failing_state local_fs (Extracted [Example.coffee])
              (Example.app_of Example.mixed))
           Example.mixed [Example.coffee] eq_refl Hg eq_refl).
  discriminate.
Defined.
